(** * Multi-agent orchestration core: a shallow embedding and its properties

    The development follows [lib/agents/types.ts], [lib/agents/base-agent.ts]
    and [lib/agents/chains/orchestrator.ts], the tool presets of
    [lib/agents/tools.ts] and the handler of [app/api/agent/route.ts].

    - JavaScript strings are modelled by [string]; every character stands for
      one code unit below 256.
    - A JavaScript [Map] is modelled by [JsMap.t], an association list kept in
      insertion order, because [Map.prototype.forEach] visits the entries in
      that order and the consensus strategy depends on it.
    - The query engine of the SDK is external.  It is a parameter of the
      model: a function from the query parameters and the state of the
      outside world to the events it delivers (and the value it throws, if
      any) and the next state of the world.
    - Every construction of a [BaseAgent] and every call of [BaseAgent.run]
      is recorded in a ghost log, which plays the part of the invocation
      counter of a test double. *)

From Stdlib Require Import String Ascii List Bool Arith NArith ZArith Lia.
From Stdlib Require Import DecimalString DecimalNat.
From Stdlib Require Import Floats.PrimFloat.
Import ListNotations.
Local Open Scope string_scope.
Local Open Scope list_scope.

Set Implicit Arguments.

(* ===================================================================== *)
(** ** JavaScript strings *)
(* ===================================================================== *)

Module JsString.

(** The line feed written [\n] in the source. *)
Definition nl : string := String (ascii_of_nat 10) EmptyString.

(** [WhiteSpace] and [LineTerminator] code units below 256: TAB, LF, VT,
    FF, CR, SP and NBSP. *)
Definition isWhite (c : ascii) : bool :=
  let n := nat_of_ascii c in
  (((9 <=? n) && (n <=? 13)) || (n =? 32) || (n =? 160))%nat.

(** The class [\d] of a regular expression without the [u] flag. *)
Definition isDigit (c : ascii) : bool :=
  let n := nat_of_ascii c in ((48 <=? n) && (n <=? 57))%nat.

Definition digitValue (c : ascii) : N := N.of_nat (nat_of_ascii c - 48).

Definition isEmpty (s : string) : bool :=
  match s with EmptyString => true | String _ _ => false end.

(** [String.prototype.trimStart]. *)
Fixpoint trimStart (s : string) : string :=
  match s with
  | EmptyString => EmptyString
  | String c r => if isWhite c then trimStart r else s
  end.

(** [String.prototype.trimEnd]. *)
Fixpoint trimEnd (s : string) : string :=
  match s with
  | EmptyString => EmptyString
  | String c r =>
      let r' := trimEnd r in
      if isWhite c && isEmpty r' then EmptyString else String c r'
  end.

(** [String.prototype.trim]. *)
Definition trim (s : string) : string := trimEnd (trimStart s).

(** The text matched by [/^(\d+)/]: the longest run of digits at the start
    of the string (empty when the match fails). *)
Fixpoint leadingDigits (s : string) : string :=
  match s with
  | EmptyString => EmptyString
  | String c r => if isDigit c then String c (leadingDigits r) else EmptyString
  end.

(** [s.match(/^(\d+)/)]: the first capture group, or [None] for [null]. *)
Definition matchLeadingDigits (s : string) : option string :=
  let ds := leadingDigits s in
  if isEmpty ds then None else Some ds.

(** The value of a string of decimal digits, most significant first. *)
Fixpoint decimalValue (acc : N) (ds : string) : N :=
  match ds with
  | EmptyString => acc
  | String c r => decimalValue (10 * acc + digitValue c) r
  end.

(** [parseInt] on a non-empty string of decimal digits.  The value of
    JavaScript is the nearest double; it differs from the exact one only
    above 2^53, where both exceed the length of any array, and the source
    uses the value only in a comparison with such a length and, when that
    succeeds, as an index. *)
Definition parseInt (ds : string) : Z := Z.of_N (decimalValue 0 ds).

(** A number in a template literal, for the non-negative integers the
    source prints. *)
Definition ofNat (n : nat) : string := NilZero.string_of_uint (Nat.to_uint n).

(** [Array.prototype.join]. *)
Definition join (sep : string) (l : list string) : string := String.concat sep l.

(** JavaScript truthiness of a string. *)
Definition truthy (s : string) : bool := negb (isEmpty s).

(** [x] occurs in [s]. *)
Definition Contains (x s : string) : Prop :=
  exists pre post, s = (pre ++ x ++ post)%string.

End JsString.

(* ===================================================================== *)
(** ** JavaScript maps with string keys *)
(* ===================================================================== *)

Module JsMap.

Section WithValue.
Variable V : Type.

(** The entries in insertion order; [set] keeps the keys distinct. *)
Definition t := list (string * V).

Definition empty : t := [].

(** [Map.prototype.get]; [None] stands for [undefined]. *)
Fixpoint get (k : string) (m : t) : option V :=
  match m with
  | [] => None
  | (k', v) :: m' => if String.eqb k k' then Some v else get k m'
  end.

(** [Map.prototype.set]: an existing key keeps its position and takes the
    new value, a new key goes to the end. *)
Fixpoint set (k : string) (v : V) (m : t) : t :=
  match m with
  | [] => [(k, v)]
  | (k', v') :: m' =>
      if String.eqb k k' then (k', v) :: m' else (k', v') :: set k v m'
  end.

Definition keys (m : t) : list string := map fst m.
Definition values (m : t) : list V := map snd m.
(** [Map.prototype.forEach] with a callback that updates an accumulator. *)
Definition forEach (A : Type) (f : A -> V -> string -> A) (m : t) (acc : A) : A :=
  fold_left (fun a kv => f a (snd kv) (fst kv)) m acc.

(** [pairs.forEach(({ key, value }) => m.set(key, value))]: the writes of a
    list of pairs, in order, into a map. *)
Definition setAll (l : list (string * V)) (m : t) : t :=
  fold_left (fun acc o => set (fst o) (snd o) acc) l m.

(** The value of the last pair of [l] whose key is [k]: what a reader
    expects [setAll] to leave under [k]. *)
Fixpoint lastWrite (k : string) (l : list (string * V)) : option V :=
  match l with
  | [] => None
  | (k', v) :: l' =>
      match lastWrite k l' with
      | Some v' => Some v'
      | None => if String.eqb k k' then Some v else None
      end
  end.

End WithValue.

Arguments empty {V}.

End JsMap.

(* ===================================================================== *)
(** ** A state monad for code that talks to the outside world *)
(* ===================================================================== *)

Definition State (S A : Type) : Type := S -> A * S.

Definition ret {S A : Type} (a : A) : State S A := fun s => (a, s).

Definition bind {S A B : Type} (c : State S A) (k : A -> State S B) : State S B :=
  fun s => let (a, s') := c s in k a s'.

Declare Scope state_scope.
Delimit Scope state_scope with state.
Notation "x <- c ;; k" := (bind c (fun x => k))
  (at level 61, c at next level, right associativity) : state_scope.
Notation "' p <- c ;; k" := (bind c (fun x => let 'p := x in k))
  (at level 61, p pattern, c at next level, right associativity) : state_scope.

(** The calls [f x] for the elements of a list, in the order of the list,
    and the list of what they return. *)
Fixpoint mapM {S A B : Type} (f : A -> State S B) (xs : list A) : State S (list B) :=
  match xs with
  | [] => ret []
  | x :: xs' => (y <- f x ;; ys <- mapM f xs' ;; ret (y :: ys))%state
  end.

(* ===================================================================== *)
(** ** The data model ([types.ts]) *)
(* ===================================================================== *)

Inductive PermissionMode : Type :=
| PermDefault | PermAcceptEdits | PermBypassPermissions | PermPlan.

Module McpServerConfig.
Record t : Type := {
  command : string;
  args : option (list string);
  env : option (JsMap.t string)
}.
End McpServerConfig.

(** An optional property is an [option]; [None] is an absent property. *)
Module AgentConfig.
Record t : Type := {
  name : string;
  systemPrompt : string;
  model : option string;
  maxTurns : option N;
  permissionMode : option PermissionMode;
  allowedTools : option (list string);
  disallowedTools : option (list string);
  mcpServers : option (JsMap.t McpServerConfig.t)
}.
End AgentConfig.

Record Usage : Type := { inputTokens : N; outputTokens : N }.

Module AgentResult.
Record t : Type := {
  success : bool;
  result : option string;
  sessionId : option string;
  numTurns : option N;
  usage : option Usage;
  totalCostUsd : option float;
  error : option string;
  errors : option (list string)
}.

(** The object literal [{ success: false, error: msg }]. *)
Definition failure (msg : string) : t :=
  {| success := false; result := None; sessionId := None; numTurns := None;
     usage := None; totalCostUsd := None; error := Some msg; errors := None |}.
End AgentResult.

(** The named agents the composition strategies receive. *)
Record AgentSpec : Type := { specName : string; specSystemPrompt : string }.

Record PipelineStage : Type := {
  stageName : string;
  stageSystemPrompt : string;
  transform : option (string -> string)
}.

Record SubAgent : Type := {
  subName : string;
  subSystemPrompt : string;
  description : string
}.

(* ===================================================================== *)
(** ** The contract of the query engine *)
(* ===================================================================== *)

Record SDKUsage : Type := { input_tokens : N; output_tokens : N }.

(** The fields of a result message that the source reads.  [result], [usage]
    and [total_cost_usd] are read only when [subtype] is [success];
    [errors] is [None] when the message has no property of that name. *)
Module SDKResultMessage.
Record t : Type := {
  subtype : string;
  session_id : string;
  num_turns : N;
  result : string;
  usage : SDKUsage;
  total_cost_usd : float;
  errors : option (list string)
}.
End SDKResultMessage.

Inductive SDKMessage : Type :=
| AssistantMessage (content : string)
| UserMessage (content : string)
| SystemMessage (content : string)
| ResultMessage (m : SDKResultMessage.t).

(** [message.type]. *)
Definition messageType (message : SDKMessage) : string :=
  match message with
  | AssistantMessage _ => "assistant"
  | UserMessage _ => "user"
  | SystemMessage _ => "system"
  | ResultMessage _ => "result"
  end.

(** What a [catch] clause can receive: an instance of [Error] with its
    message, or any other value. *)
Inductive Thrown : Type :=
| ErrorObject (message : string)
| OtherValue.

Module QueryOptions.
Record t : Type := {
  model : option string;
  systemPrompt : string;
  maxTurns : option N;
  permissionMode : option PermissionMode;
  allowedTools : option (list string);
  disallowedTools : option (list string);
  mcpServers : option (JsMap.t McpServerConfig.t);
  resume : option string
}.
End QueryOptions.

Record QueryParams : Type := { prompt : string; options : QueryOptions.t }.

(** One use of the engine: the messages the asynchronous iterator yields and,
    when the call of [query] or a later step of the iteration throws, the
    value thrown after them. *)
Record QueryRun : Type := { events : list SDKMessage; raised : option Thrown }.

(** The entries of the ghost log: an agent was constructed with a
    configuration; an agent with a configuration passed parameters to the
    engine and returned a result. *)
Inductive LogEntry : Type :=
| Constructed (config : AgentConfig.t)
| Ran (config : AgentConfig.t) (params : QueryParams) (outcome : AgentResult.t).

(* ===================================================================== *)
(** ** [BaseAgent] ([base-agent.ts]) *)
(* ===================================================================== *)

Definition DEFAULT_MODEL : string := "claude-sonnet-4-5-20250929".
Definition DEFAULT_MAX_TURNS : N := 10.

Module BaseAgent.
Record t : Type := { config : AgentConfig.t; sessionId : option string }.
End BaseAgent.

Definition orDefault {A : Type} (d : A) (o : option A) : option A :=
  match o with Some _ => o | None => Some d end.

(** The object the constructor stores:
    [{ model: DEFAULT_MODEL, maxTurns: DEFAULT_MAX_TURNS,
       permissionMode: "default", ...config }]. *)
Definition withDefaults (config : AgentConfig.t) : AgentConfig.t :=
  {| AgentConfig.name := AgentConfig.name config;
     AgentConfig.systemPrompt := AgentConfig.systemPrompt config;
     AgentConfig.model := orDefault DEFAULT_MODEL (AgentConfig.model config);
     AgentConfig.maxTurns := orDefault DEFAULT_MAX_TURNS (AgentConfig.maxTurns config);
     AgentConfig.permissionMode := orDefault PermDefault (AgentConfig.permissionMode config);
     AgentConfig.allowedTools := AgentConfig.allowedTools config;
     AgentConfig.disallowedTools := AgentConfig.disallowedTools config;
     AgentConfig.mcpServers := AgentConfig.mcpServers config |}.

(** The [options] of the call of [query] in [run]. *)
Definition queryOptions (agent : BaseAgent.t) : QueryOptions.t :=
  let c := BaseAgent.config agent in
  {| QueryOptions.model := AgentConfig.model c;
     QueryOptions.systemPrompt := AgentConfig.systemPrompt c;
     QueryOptions.maxTurns := AgentConfig.maxTurns c;
     QueryOptions.permissionMode := AgentConfig.permissionMode c;
     QueryOptions.allowedTools := AgentConfig.allowedTools c;
     QueryOptions.disallowedTools := AgentConfig.disallowedTools c;
     QueryOptions.mcpServers := AgentConfig.mcpServers c;
     QueryOptions.resume := BaseAgent.sessionId agent |}.

(** The initial value of [result] in [run]. *)
Definition noResult : AgentResult.t := AgentResult.failure "No result received".

(** The two object literals built from a result message. *)
Definition successResult (m : SDKResultMessage.t) : AgentResult.t :=
  {| AgentResult.success := true;
     AgentResult.result := Some (SDKResultMessage.result m);
     AgentResult.sessionId := Some (SDKResultMessage.session_id m);
     AgentResult.numTurns := Some (SDKResultMessage.num_turns m);
     AgentResult.usage :=
       Some {| inputTokens := input_tokens (SDKResultMessage.usage m);
               outputTokens := output_tokens (SDKResultMessage.usage m) |};
     AgentResult.totalCostUsd := Some (SDKResultMessage.total_cost_usd m);
     AgentResult.error := None;
     AgentResult.errors := None |}.

Definition errorResult (m : SDKResultMessage.t) : AgentResult.t :=
  {| AgentResult.success := false;
     AgentResult.result := None;
     AgentResult.sessionId := Some (SDKResultMessage.session_id m);
     AgentResult.numTurns := Some (SDKResultMessage.num_turns m);
     AgentResult.usage := None;
     AgentResult.totalCostUsd := None;
     AgentResult.error := Some (SDKResultMessage.subtype m);
     AgentResult.errors := SDKResultMessage.errors m |}.

(** The body of the [for await] loop of [run], on the pair of the local
    [result] and the field [this.sessionId]. *)
Definition onMessage (st : AgentResult.t * option string) (message : SDKMessage)
  : AgentResult.t * option string :=
  match message with
  | ResultMessage resultMsg =>
      (if String.eqb (SDKResultMessage.subtype resultMsg) "success"
       then successResult resultMsg
       else errorResult resultMsg,
       Some (SDKResultMessage.session_id resultMsg))
  | _ => st
  end.

(** The [catch] clause of [run]. *)
Definition caught (error : Thrown) : AgentResult.t :=
  AgentResult.failure
    (match error with ErrorObject message => message | OtherValue => "Unknown error" end).

(** A settled promise: fulfilled with a value or rejected with the value
    thrown. *)
Inductive Completion (A : Type) : Type :=
| Returned (a : A)
| Rejected (e : Thrown).

Arguments Returned {A} a.
Arguments Rejected {A} e.

(** [`${x}`] for an optional string. *)
Definition interpolate (x : option string) : string :=
  match x with Some s => s | None => "undefined" end.

(** [x || ""] for an optional string. *)
Definition orEmpty (x : option string) : string :=
  match x with Some s => s | None => "" end.

(** [x || 0] for an optional count. *)
Definition orZero (x : option nat) : nat :=
  match x with Some n => n | None => 0 end.

(** [xs.map((x, i) => f(x, i))]. *)
Fixpoint mapi_from {A B : Type} (i : nat) (f : A -> nat -> B) (xs : list A) : list B :=
  match xs with
  | [] => []
  | x :: xs' => f x i :: mapi_from (S i) f xs'
  end.

Definition mapi {A B : Type} (f : A -> nat -> B) (xs : list A) : list B :=
  mapi_from 0 f xs.

(** The [try] block of [run] once [query] has been called: the loop over the
    messages, then either the [return] of the block or the [catch] clause.
    The assignments to [this.sessionId] made before a throw remain. *)
Definition consume (agent : BaseAgent.t) (q : QueryRun) : AgentResult.t * BaseAgent.t :=
  let '(result, sessionId) :=
    fold_left onMessage (events q) (noResult, BaseAgent.sessionId agent) in
  (match raised q with
   | None => result
   | Some error => caught error
   end,
   {| BaseAgent.config := BaseAgent.config agent; BaseAgent.sessionId := sessionId |}).

(** The object literal [{ name, systemPrompt, ...options }] of [createAgent]
    when the third argument is left out. *)
Definition createAgentConfig (name systemPrompt : string) : AgentConfig.t :=
  {| AgentConfig.name := name;
     AgentConfig.systemPrompt := systemPrompt;
     AgentConfig.model := None;
     AgentConfig.maxTurns := None;
     AgentConfig.permissionMode := None;
     AgentConfig.allowedTools := None;
     AgentConfig.disallowedTools := None;
     AgentConfig.mcpServers := None |}.

(** The prompt [runSequentialChain] passes to the next agent. *)
Definition chainInput (result : AgentResult.t) : string :=
  ("Previous agent output:" ++ JsString.nl ++ interpolate (AgentResult.result result)
     ++ JsString.nl ++ JsString.nl ++ "Please continue with your task.")%string.

(** The prompt [runPipeline] passes to the next stage. *)
Definition pipelineInput (stage : PipelineStage) (result : AgentResult.t) : string :=
  match transform stage with
  | Some f => f (orEmpty (AgentResult.result result))
  | None => orEmpty (AgentResult.result result)
  end.

Section Engine.

(** The state of the outside world and the engine. *)
Variable World : Type.
Variable query : QueryParams -> World -> QueryRun * World.

Record Sys : Type := { world : World; log : list LogEntry }.

Definition M (A : Type) : Type := State Sys A.

Definition record (e : LogEntry) : M unit :=
  fun s => (tt, {| world := world s; log := log s ++ [e] |}).

Definition callQuery (params : QueryParams) : M QueryRun :=
  fun s => let (q, w) := query params (world s) in (q, {| world := w; log := log s |}).

Local Open Scope state_scope.

(** [new BaseAgent(config)]. *)
Definition newBaseAgent (config : AgentConfig.t) : M BaseAgent.t :=
  _ <- record (Constructed (withDefaults config)) ;;
  ret {| BaseAgent.config := withDefaults config; BaseAgent.sessionId := None |}.

(** [BaseAgent.run].  The agent is returned with the session reference the
    call leaves in it.  The promise is always fulfilled: the [catch] clause
    turns every value thrown into a result. *)
Definition run (agent : BaseAgent.t) (prompt : string)
  : M (AgentResult.t * BaseAgent.t) :=
  let params := {| prompt := prompt; options := queryOptions agent |} in
  q <- callQuery params ;;
  let (returned, agent') := consume agent q in
  _ <- record (Ran (BaseAgent.config agent) params returned) ;;
  ret (returned, agent').

(** [createAgent(name, systemPrompt)], without the optional third argument. *)
Definition createAgent (name systemPrompt : string) : M BaseAgent.t :=
  newBaseAgent (createAgentConfig name systemPrompt).

(* ------------------------------------------------------------------- *)
(** *** The composition strategies ([chains/orchestrator.ts]) *)
(* ------------------------------------------------------------------- *)

(** The loop of [runSequentialChain] from a given position, with the
    locals [currentInput] and [results]. *)
Fixpoint chainLoop (agents : list AgentSpec) (currentInput : string)
         (results : list AgentResult.t) : M (list AgentResult.t) :=
  match agents with
  | [] => ret results
  | agentConfig :: rest =>
      agent <- createAgent (specName agentConfig) (specSystemPrompt agentConfig) ;;
      '(result, _) <- run agent currentInput ;;
      let results := results ++ [result] in
      if negb (AgentResult.success result) then ret results
      else chainLoop rest (chainInput result) results
  end.

Definition runSequentialChain (agents : list AgentSpec) (initialInput : string)
  : M (list AgentResult.t) :=
  chainLoop agents initialInput [].

(** The asynchronous callback of [agents.map] in [runParallelAgents]. *)
Definition parallelTask (input : string) (agentConfig : AgentSpec)
  : M (string * AgentResult.t) :=
  agent <- createAgent (specName agentConfig) (specSystemPrompt agentConfig) ;;
  '(result, _) <- run agent input ;;
  ret (specName agentConfig, result).

(** [runParallelAgents].  Each callback of [agents.map] runs up to its
    first suspension before the next one starts, which is after it has
    called [query]: the engine is called once per agent, in the order of
    the list.  [run] never rejects, so [Promise.all] is fulfilled with one
    outcome per agent, in the order of the list. *)
Definition runParallelAgents (agents : list AgentSpec) (input : string)
  : M (JsMap.t AgentResult.t) :=
  outcomes <- mapM (parallelTask input) agents ;;
  ret (JsMap.setAll outcomes JsMap.empty).

Definition votingPrompt (question : string) (options : list string) : string :=
  JsString.trim
    (JsString.nl ++ question ++ JsString.nl ++ JsString.nl
     ++ "Please choose ONE of the following options and explain your reasoning:"
     ++ JsString.nl
     ++ JsString.join JsString.nl
          (mapi (fun opt i => JsString.ofNat (i + 1) ++ ". " ++ opt) options)
     ++ JsString.nl ++ JsString.nl
     ++ "Respond with your choice number first, then your reasoning."
     ++ JsString.nl ++ "  ")%string.

(** The callback of [results.forEach]: the vote of one agent, if any. *)
Definition parseVote (options : list string) (votes : JsMap.t string)
           (result : AgentResult.t) (agentName : string) : JsMap.t string :=
  if AgentResult.success result
     && JsString.truthy (orEmpty (AgentResult.result result))
  then
    match JsString.matchLeadingDigits (orEmpty (AgentResult.result result)) with
    | Some digits =>
        let choiceIndex := (JsString.parseInt digits - 1)%Z in
        if ((0 <=? choiceIndex) && (choiceIndex <? Z.of_nat (length options)))%Z
        then
          match nth_error options (Z.to_nat choiceIndex) with
          | Some choice => JsMap.set agentName choice votes
          | None => votes
          end
        else votes
    | None => votes
    end
  else votes.

Definition parseVotes (options : list string) (results : JsMap.t AgentResult.t)
  : JsMap.t string :=
  JsMap.forEach (parseVote options) results JsMap.empty.

(** The callback of [votes.forEach]. *)
Definition countVote (voteCounts : JsMap.t nat) (vote : string) (_ : string)
  : JsMap.t nat :=
  JsMap.set vote (orZero (JsMap.get vote voteCounts) + 1) voteCounts.

Definition countVotes (votes : JsMap.t string) : JsMap.t nat :=
  JsMap.forEach countVote votes JsMap.empty.

(** The callback of [voteCounts.forEach], on the pair of the locals
    [winner] and [maxVotes]; [None] is the [undefined] that [options[0]]
    yields for an empty list. *)
Definition pickWinner (st : option string * nat) (count : nat) (opt : string)
  : option string * nat :=
  let (winner, maxVotes) := st in
  if (maxVotes <? count)%nat then (Some opt, count) else (winner, maxVotes).

Definition findWinner (options : list string) (voteCounts : JsMap.t nat)
  : option string :=
  fst (JsMap.forEach pickWinner voteCounts (nth_error options 0, 0)).

Record Consensus : Type := { winner : option string; votes : JsMap.t string }.

Definition runConsensusAgents (agents : list AgentSpec) (question : string)
           (options : list string) : M Consensus :=
  results <- runParallelAgents agents (votingPrompt question options) ;;
  let votes := parseVotes options results in
  let voteCounts := countVotes votes in
  ret {| winner := findWinner options voteCounts; votes := votes |}.

Record PipelineOutcome : Type := {
  finalResult : AgentResult.t;
  stageResults : JsMap.t AgentResult.t
}.

(** The loop of [runPipeline] from a given position, with the locals
    [currentInput], [finalResult] and [stageResults]. *)
Fixpoint pipelineLoop (stages : list PipelineStage) (currentInput : string)
         (finalResult : AgentResult.t) (stageResults : JsMap.t AgentResult.t)
  : M PipelineOutcome :=
  match stages with
  | [] => ret {| finalResult := finalResult; stageResults := stageResults |}
  | stage :: rest =>
      agent <- createAgent (stageName stage) (stageSystemPrompt stage) ;;
      '(result, _) <- run agent currentInput ;;
      let stageResults := JsMap.set (stageName stage) result stageResults in
      if negb (AgentResult.success result)
      then ret {| finalResult := result; stageResults := stageResults |}
      else pipelineLoop rest (pipelineInput stage result) result stageResults
  end.

Definition runPipeline (stages : list PipelineStage) (initialInput : string)
  : M PipelineOutcome :=
  pipelineLoop stages initialInput (AgentResult.failure "No stages executed")
               JsMap.empty.

Definition agentList (subAgents : list SubAgent) : string :=
  JsString.join JsString.nl
    (map (fun a => "- " ++ subName a ++ ": " ++ description a)%string subAgents).

Definition enhancedPrompt (supervisorPrompt : string) (subAgents : list SubAgent)
           (task : string) : string :=
  JsString.trim
    (JsString.nl ++ supervisorPrompt ++ JsString.nl ++ JsString.nl
     ++ "You have access to the following specialized agents:" ++ JsString.nl
     ++ agentList subAgents ++ JsString.nl ++ JsString.nl
     ++ "When you need to delegate a task, describe which agent should handle it and what they should do."
     ++ JsString.nl
     ++ "The system will execute the delegation and return the results."
     ++ JsString.nl ++ JsString.nl
     ++ "Task: " ++ task ++ JsString.nl ++ "  ")%string.

Definition runWithSupervisor (supervisorPrompt : string)
           (subAgents : list SubAgent) (task : string) : M AgentResult.t :=
  supervisor <- createAgent "supervisor"
                  (enhancedPrompt supervisorPrompt subAgents task) ;;
  '(result, _) <- run supervisor task ;;
  ret result.

(* ------------------------------------------------------------------- *)
(** *** [AgentOrchestrator] ([chains/orchestrator.ts]) *)
(* ------------------------------------------------------------------- *)

Section Registry.

(** The payload of a handoff has the type [unknown].  Its values, their
    truthiness and the text [JSON.stringify(data, null, 2)] puts in the
    template literal (or the value it throws, as it does for a cyclic
    object or a BigInt) are parameters. *)
Variable Data : Type.
Variable dataTruthy : Data -> bool.
Variable stringify : Data -> Thrown + string.

Record AgentHandoff : Type := {
  fromAgent : string;
  toAgent : string;
  context : string;
  data : option Data
}.

(** The private fields of the class.  An agent object is reachable only
    through the table, so the table holds the agents by value and a run
    stores the agent back under its name. *)
Record AgentOrchestrator : Type := {
  agents : JsMap.t BaseAgent.t;
  handoffHistory : list AgentHandoff;
  currentAgent : option string
}.

(** [new AgentOrchestrator()]. *)
Definition newOrchestrator : AgentOrchestrator :=
  {| agents := JsMap.empty; handoffHistory := []; currentAgent := None |}.

Definition registerAgent (this : AgentOrchestrator) (config : AgentConfig.t)
  : M AgentOrchestrator :=
  agent <- newBaseAgent config ;;
  ret {| agents := JsMap.set (AgentConfig.name config) agent (agents this);
         handoffHistory := handoffHistory this;
         currentAgent := currentAgent this |}.

(** The effect of a run on the agent object the table holds under
    [name]: the table keeps the object with its new session reference. *)
Definition storeAgent (this : AgentOrchestrator) (name : string)
           (agent : BaseAgent.t) : AgentOrchestrator :=
  {| agents := JsMap.set name agent (agents this);
     handoffHistory := handoffHistory this;
     currentAgent := currentAgent this |}.

Definition getAgent (this : AgentOrchestrator) (name : string) : option BaseAgent.t :=
  JsMap.get name (agents this).

Definition execute (this : AgentOrchestrator) (startAgent task : string)
  : M (AgentResult.t * AgentOrchestrator) :=
  match JsMap.get startAgent (agents this) with
  | None =>
      ret (AgentResult.failure ("Agent not found: " ++ startAgent)%string, this)
  | Some agent =>
      let this :=
        {| agents := agents this;
           handoffHistory := handoffHistory this;
           currentAgent := Some startAgent |} in
      '(result, agent') <- run agent task ;;
      ret (result, storeAgent this startAgent agent')
  end.

(** [!this.currentAgent]: [null] and the empty string are both falsy. *)
Definition noCurrentAgent (currentAgent : option string) : bool :=
  match currentAgent with
  | None => true
  | Some name => JsString.isEmpty name
  end.

(** The line of the handoff message about the payload:
    [data ? `Data: ${JSON.stringify(data, null, 2)}` : ""]. *)
Definition dataLine (data : option Data) : Thrown + string :=
  match data with
  | None => inr ""
  | Some d =>
      if dataTruthy d then
        match stringify d with
        | inl e => inl e
        | inr text => inr ("Data: " ++ text)%string
        end
      else inr ""
  end.

Definition handoffMessage (currentAgent context dataLine : string) : string :=
  JsString.trim
    (JsString.nl ++ "[HANDOFF FROM " ++ currentAgent ++ "]" ++ JsString.nl
     ++ "Context: " ++ context ++ JsString.nl
     ++ dataLine ++ JsString.nl ++ JsString.nl
     ++ "Please continue with this task based on the context provided."
     ++ JsString.nl ++ "    ")%string.

Definition handoff (this : AgentOrchestrator) (toAgent context : string)
           (data : option Data)
  : M (Completion AgentResult.t * AgentOrchestrator) :=
  if noCurrentAgent (currentAgent this) then
    ret (Returned (AgentResult.failure "No current agent to hand off from"), this)
  else
    match JsMap.get toAgent (agents this) with
    | None =>
        ret (Returned (AgentResult.failure
                         ("Target agent not found: " ++ toAgent)%string), this)
    | Some nextAgent =>
        let from := orEmpty (currentAgent this) in
        let history :=
          handoffHistory this
            ++ [{| fromAgent := from; toAgent := toAgent;
                   context := context; data := data |}] in
        match dataLine data with
        | inl e =>
            ret (Rejected e,
                 {| agents := agents this;
                    handoffHistory := history;
                    currentAgent := currentAgent this |})
        | inr line =>
            let this :=
              {| agents := agents this;
                 handoffHistory := history;
                 currentAgent := Some toAgent |} in
            '(result, nextAgent') <-
               run nextAgent (handoffMessage from context line) ;;
            ret (Returned result, storeAgent this toAgent nextAgent')
        end
    end.

(** [getHandoffHistory]: a copy of the list. *)
Definition getHandoffHistory (this : AgentOrchestrator) : list AgentHandoff :=
  handoffHistory this.

Definition resetAgent (agent : BaseAgent.t) : BaseAgent.t :=
  {| BaseAgent.config := BaseAgent.config agent; BaseAgent.sessionId := None |}.

Definition reset (this : AgentOrchestrator) : AgentOrchestrator :=
  {| agents := map (fun kv => (fst kv, resetAgent (snd kv))) (agents this);
     handoffHistory := [];
     currentAgent := None |}.

End Registry.

End Engine.

Arguments newOrchestrator {Data}.

(* ===================================================================== *)
(** ** A scripted engine for worked examples *)
(* ===================================================================== *)

(** The world is the list of the runs the engine has still to deliver; every
    call of [query] takes the next one, and an exhausted script delivers no
    message at all. *)
Definition Script : Type := list QueryRun.

Definition scripted (_ : QueryParams) (w : Script) : QueryRun * Script :=
  match w with
  | [] => ({| events := []; raised := None |}, [])
  | q :: w' => (q, w')
  end.

Definition resultEvent (subtype text session : string) (errs : option (list string))
  : SDKMessage :=
  ResultMessage
    {| SDKResultMessage.subtype := subtype;
       SDKResultMessage.session_id := session;
       SDKResultMessage.num_turns := 1;
       SDKResultMessage.result := text;
       SDKResultMessage.usage := {| input_tokens := 12; output_tokens := 7 |};
       SDKResultMessage.total_cost_usd := 0.25%float;
       SDKResultMessage.errors := errs |}.

(** A run that answers [text]. *)
Definition replies (text session : string) : QueryRun :=
  {| events := [SystemMessage "init"; AssistantMessage text;
                resultEvent "success" text session None];
     raised := None |}.

(** A run that ends with a terminal event other than success. *)
Definition gives_up (subtype session : string) : QueryRun :=
  {| events := [SystemMessage "init";
                resultEvent subtype "" session (Some ["budget"])];
     raised := None |}.

(** A run in which the engine throws. *)
Definition throws (message : string) : QueryRun :=
  {| events := []; raised := Some (ErrorObject message) |}.

Definition start (w : Script) : Sys Script := {| world := w; log := [] |}.

Definition spec (name : string) : AgentSpec :=
  {| specName := name; specSystemPrompt := "You are " ++ name |}.

Definition namedConfig (name : string) : AgentConfig.t :=
  {| AgentConfig.name := name;
     AgentConfig.systemPrompt := "You are " ++ name;
     AgentConfig.model := None;
     AgentConfig.maxTurns := None;
     AgentConfig.permissionMode := None;
     AgentConfig.allowedTools := None;
     AgentConfig.disallowedTools := None;
     AgentConfig.mcpServers := None |}.

(** Payloads for worked examples: a non-negative integer below 2^53, which
    [JSON.stringify] prints in decimal and which is falsy when zero, and a
    BigInt, which [JSON.stringify] refuses with a [TypeError]. *)
Inductive Payload : Type :=
| NumberPayload (n : N)
| BigIntPayload (n : N).

Definition payloadTruthy (d : Payload) : bool :=
  match d with
  | NumberPayload n => negb (N.eqb n 0)
  | BigIntPayload n => negb (N.eqb n 0)
  end.

Definition payloadStringify (d : Payload) : Thrown + string :=
  match d with
  | NumberPayload n => inr (NilZero.string_of_uint (N.to_uint n))
  | BigIntPayload _ => inl (ErrorObject "Do not know how to serialize a BigInt")
  end.

(** A registry with three agents, one of them registered under the empty
    name. *)
Definition demoRegistry : State (Sys Script) (AgentOrchestrator Payload) :=
  (o1 <- registerAgent newOrchestrator (namedConfig "researcher") ;;
   o2 <- registerAgent o1 (namedConfig "writer") ;;
   registerAgent o2 (namedConfig ""))%state.

(** Five voters over three options: the answers 1, 2, 2, 3 and one that
    starts with no digit. *)
Definition fiveVoters : list AgentSpec :=
  [spec "a1"; spec "a2"; spec "a3"; spec "a4"; spec "a5"].

Definition fiveAnswers : Script :=
  [replies "1" "s1"; replies "2" "s2"; replies "2" "s3"; replies "3" "s4";
   replies "(unparseable)" "s5"].

(* ===================================================================== *)
(** ** Vocabulary of the properties *)
(* ===================================================================== *)

(** [message.type === "result"]. *)
Definition isResult (message : SDKMessage) : bool :=
  String.eqb (messageType message) "result".

(** A result is well formed when a success carries its text and no error,
    and a failure carries an error. *)
Definition wellFormed (r : AgentResult.t) : bool :=
  if AgentResult.success r
  then match AgentResult.result r, AgentResult.error r with
       | Some _, None => true
       | _, _ => false
       end
  else match AgentResult.error r with
       | Some _ => true
       | None => false
       end.

(** The configurations of the agents constructed, in order. *)
Fixpoint constructions (l : list LogEntry) : list AgentConfig.t :=
  match l with
  | [] => []
  | Constructed c :: l' => c :: constructions l'
  | Ran _ _ _ :: l' => constructions l'
  end.

(** The runs made, in order: the agent, what it passed to the engine and
    what it returned. *)
Fixpoint runs (l : list LogEntry) : list (AgentConfig.t * QueryParams * AgentResult.t) :=
  match l with
  | [] => []
  | Constructed _ :: l' => runs l'
  | Ran c p r :: l' => (c, p, r) :: runs l'
  end.

(** The parameters [run] passes to the engine. *)
Definition paramsOf (agent : BaseAgent.t) (prompt : string) : QueryParams :=
  {| prompt := prompt; options := queryOptions agent |}.

(** No message of the list is a result message. *)
Definition noResultIn (events : list SDKMessage) : bool :=
  forallb (fun e => negb (isResult e)) events.

(** The agent [createAgent] returns: the defaults of the constructor and no
    session. *)
Definition freshAgent (name systemPrompt : string) : BaseAgent.t :=
  {| BaseAgent.config := withDefaults (createAgentConfig name systemPrompt);
     BaseAgent.sessionId := None |}.

(** The two entries one stage of a strategy adds to the log: the agent is
    constructed, then run once on [input], and returns [r]. *)
Definition stageEntries (name systemPrompt input : string) (r : AgentResult.t)
  : list LogEntry :=
  [Constructed (BaseAgent.config (freshAgent name systemPrompt));
   Ran (BaseAgent.config (freshAgent name systemPrompt))
       (paramsOf (freshAgent name systemPrompt) input) r].

(** What the engine answers to a fresh agent, and what that agent returns. *)
Definition stageAnswer {World : Type}
           (query : QueryParams -> World -> QueryRun * World)
           (name systemPrompt input : string) (s : Sys World) : QueryRun :=
  fst (query (paramsOf (freshAgent name systemPrompt) input) (world s)).

Definition stageResult {World : Type}
           (query : QueryParams -> World -> QueryRun * World)
           (name systemPrompt input : string) (s : Sys World) : AgentResult.t :=
  fst (consume (freshAgent name systemPrompt)
               (stageAnswer query name systemPrompt input s)).

(** The log of a sequential chain whose stages returned [results]. *)
Fixpoint chainLog (agents : list AgentSpec) (input : string)
         (results : list AgentResult.t) : list LogEntry :=
  match agents, results with
  | a :: agents', r :: results' =>
      stageEntries (specName a) (specSystemPrompt a) input r
        ++ chainLog agents' (chainInput r) results'
  | _, _ => []
  end.

(** The log of a pipeline whose stages returned [results]. *)
Fixpoint pipelineLog (stages : list PipelineStage) (input : string)
         (results : list AgentResult.t) : list LogEntry :=
  match stages, results with
  | st :: stages', r :: results' =>
      stageEntries (stageName st) (stageSystemPrompt st) input r
        ++ pipelineLog stages' (pipelineInput st r) results'
  | _, _ => []
  end.

(** The configuration of the agent a strategy creates for a specification. *)
Definition specConfig (a : AgentSpec) : AgentConfig.t :=
  BaseAgent.config (freshAgent (specName a) (specSystemPrompt a)).

(** The configuration of the agent a pipeline creates for a stage. *)
Definition stageConfig (st : PipelineStage) : AgentConfig.t :=
  BaseAgent.config (freshAgent (stageName st) (stageSystemPrompt st)).

(** Projections of a run of the log. *)
Definition runConfig (x : AgentConfig.t * QueryParams * AgentResult.t) : AgentConfig.t :=
  fst (fst x).
Definition runPrompt (x : AgentConfig.t * QueryParams * AgentResult.t) : string :=
  prompt (snd (fst x)).
Definition runOutcome (x : AgentConfig.t * QueryParams * AgentResult.t) : AgentResult.t :=
  snd x.

(** The log of a fan-out whose agents returned [results]: every agent is
    constructed and run once, on the same input, in the order of the list. *)
Fixpoint parallelLog (agents : list AgentSpec) (input : string)
         (results : list AgentResult.t) : list LogEntry :=
  match agents, results with
  | a :: agents', r :: results' =>
      stageEntries (specName a) (specSystemPrompt a) input r
        ++ parallelLog agents' input results'
  | _, _ => []
  end.

(** The fixed text of the supervisor prompt before and after the catalogue
    of agents, up to the colon of the task line. *)
Definition supervisorIntro : string :=
  ("You have access to the following specialized agents:" ++ JsString.nl)%string.

Definition supervisorRules : string :=
  (JsString.nl ++ JsString.nl
   ++ "When you need to delegate a task, describe which agent should handle it and what they should do."
   ++ JsString.nl
   ++ "The system will execute the delegation and return the results."
   ++ JsString.nl ++ JsString.nl ++ "Task:")%string.

(** The line of the catalogue about one agent. *)
Definition catalogueLine (a : SubAgent) : string :=
  ("- " ++ subName a ++ ": " ++ description a)%string.

(** Every character of the string is a decimal digit. *)
Fixpoint allDigits (s : string) : bool :=
  match s with
  | EmptyString => true
  | String c r => JsString.isDigit c && allDigits r
  end.

Definition startsWithDigit (s : string) : bool :=
  match s with
  | EmptyString => false
  | String c _ => JsString.isDigit c
  end.

(** [text] begins with a run of digits, which ends where the text ends or a
    character that is no digit stands, and the run reads [n] in decimal. *)
Definition LeadingNumber (text : string) (n : N) : Prop :=
  exists digits rest,
    text = (digits ++ rest)%string
    /\ digits <> ""
    /\ allDigits digits = true
    /\ startsWithDigit rest = false
    /\ n = JsString.decimalValue 0 digits.

(** The result [r] is a valid vote for [choice]: a success whose text begins
    with the number of [choice] in the list of options, counted from 1. *)
Definition ValidVote (options : list string) (r : AgentResult.t) (choice : string) : Prop :=
  AgentResult.success r = true
  /\ exists text n,
       AgentResult.result r = Some text
       /\ LeadingNumber text n
       /\ (1 <= n)%N
       /\ nth_error options (N.to_nat (n - 1)) = Some choice.

(** The vote [parseVote] reads in a result, if any. *)
Definition ballot (options : list string) (r : AgentResult.t) : option string :=
  if AgentResult.success r
  then match JsString.matchLeadingDigits (orEmpty (AgentResult.result r)) with
       | Some digits =>
           let n := JsString.decimalValue 0 digits in
           if ((1 <=? n) && (n <=? N.of_nat (length options)))%N
           then nth_error options (N.to_nat (n - 1))
           else None
       | None => None
       end
  else None.

(** The number of votes for an option in a list of votes. *)
Definition tally (o : string) (vs : list string) : nat := count_occ string_dec vs o.

(** The tallies [countVotes] builds from the votes in the order of the
    mapping. *)
Definition countStep (counts : JsMap.t nat) (vote : string) : JsMap.t nat :=
  JsMap.set vote (orZero (JsMap.get vote counts) + 1) counts.

Definition tallies (vs : list string) : JsMap.t nat := fold_left countStep vs JsMap.empty.

(** [w] is, among the options with the greatest tally, the one that stands
    first in the list of options: the tie-break by the order of the
    options. *)
Definition EarliestTopOption (options vs : list string) (w : string) : Prop :=
  exists i,
    nth_error options i = Some w
    /\ (forall o, tally o vs <= tally w vs)
    /\ (forall j o, j < i -> nth_error options j = Some o -> tally o vs < tally w vs).

(** The entry of the vote mapping for one entry of the result mapping: the
    agent and its vote, or nothing. *)
Definition ballotEntry (options : list string) (kv : string * AgentResult.t)
  : list (string * string) :=
  match ballot options (snd kv) with
  | Some choice => [(fst kv, choice)]
  | None => []
  end.


(* ===================================================================== *)
(** ** Inputs of the worked examples *)
(* ===================================================================== *)

(** A chain of three agents whose second stage gives up. *)
Definition demoChain : list AgentResult.t * Sys Script :=
  runSequentialChain scripted [spec "a"; spec "b"; spec "c"] "go"
    (start [replies "one" "s1"; gives_up "error_max_turns" "s2"; replies "three" "s3"]).


Definition demoConsensus : Consensus * Sys Script :=
  runConsensusAgents scripted fiveVoters "Which one?" ["A"; "B"; "C"] (start fiveAnswers).

Definition demoAgent : BaseAgent.t := freshAgent "helper" "You are a helper".

(** One run that succeeds and one whose terminal event is not a success. *)
Definition demoRun : AgentResult.t * BaseAgent.t * Sys Script :=
  run scripted demoAgent "hello" (start [replies "hi" "session-1"]).

Definition demoDelegates : list SubAgent :=
  [{| subName := "writer"; subSystemPrompt := "You write"; description := "writes text" |};
   {| subName := "coder"; subSystemPrompt := "You code"; description := "writes code" |}].

Definition demoSupervisor : AgentResult.t * Sys Script :=
  runWithSupervisor scripted "Coordinate the team." demoDelegates "Ship it"
    (start [replies "done" "s1"]).

(** The registry of the examples before any call, and with the cursor on
    the researcher. *)
Definition demoRegistered : AgentOrchestrator Payload * Sys Script :=
  demoRegistry (start []).

Definition demoWithCursor : AgentOrchestrator Payload :=
  {| agents := agents (fst demoRegistered);
     handoffHistory := [];
     currentAgent := Some "researcher" |}.

Definition shout : string -> string := fun text => ("LOUD: " ++ text)%string.

Definition demoStages : list PipelineStage :=
  [{| stageName := "draft"; stageSystemPrompt := "You draft"; transform := Some shout |};
   {| stageName := "edit"; stageSystemPrompt := "You edit"; transform := None |};
   {| stageName := "publish"; stageSystemPrompt := "You publish"; transform := None |}].

Definition demoPipeline : PipelineOutcome * Sys Script :=
  runPipeline scripted demoStages "topic"
    (start [replies "draft text" "s1"; replies "edited text" "s2"; replies "out" "s3"]).

(* ===================================================================== *)
(** ** The rest of [base-agent.ts] *)
(* ===================================================================== *)

(** [getSessionId] and [setSessionId]; the method [reset] of [BaseAgent] is
    [resetAgent]. *)
Definition getSessionId (agent : BaseAgent.t) : option string :=
  BaseAgent.sessionId agent.

Definition setSessionId (agent : BaseAgent.t) (sessionId : string) : BaseAgent.t :=
  {| BaseAgent.config := BaseAgent.config agent; BaseAgent.sessionId := Some sessionId |}.

(** The object literal [stream] builds from a result message that is no
    success: it has neither [numTurns] nor [errors]. *)
Definition streamErrorResult (m : SDKResultMessage.t) : AgentResult.t :=
  {| AgentResult.success := false;
     AgentResult.result := None;
     AgentResult.sessionId := Some (SDKResultMessage.session_id m);
     AgentResult.numTurns := None;
     AgentResult.usage := None;
     AgentResult.totalCostUsd := None;
     AgentResult.error := Some (SDKResultMessage.subtype m);
     AgentResult.errors := None |}.

(** The statements after [yield message] in the loop of [stream], on the
    pair of the local [result] and the field [this.sessionId]. *)
Definition onStreamMessage (st : AgentResult.t * option string) (message : SDKMessage)
  : AgentResult.t * option string :=
  match message with
  | ResultMessage resultMsg =>
      (if String.eqb (SDKResultMessage.subtype resultMsg) "success"
       then successResult resultMsg
       else streamErrorResult resultMsg,
       Some (SDKResultMessage.session_id resultMsg))
  | _ => st
  end.

(** The generator object [stream] returns.  Its body has not started, or it
    is suspended at [yield message] with the messages the engine has still
    to deliver (and the value it throws after them), or it has completed.
    The agent is carried along with the session reference it has at that
    point. *)
Inductive StreamState : Type :=
| NotStarted (agent : BaseAgent.t) (prompt : string)
| Suspended (agent : BaseAgent.t) (message : SDKMessage) (rest : list SDKMessage)
            (raised : option Thrown) (result : AgentResult.t)
| Completed (agent : BaseAgent.t).

(** What a call of [next()] gives: a message, the return value of the
    generator, or nothing more. *)
Inductive StreamStep : Type :=
| Yielded (message : SDKMessage)
| Done (result : AgentResult.t)
| Exhausted.

Definition agentOf (st : StreamState) : BaseAgent.t :=
  match st with
  | NotStarted agent _ => agent
  | Suspended agent _ _ _ _ => agent
  | Completed agent => agent
  end.

(** The head of the [for await] loop of [stream]: the next message is
    yielded; at the end of the messages the generator returns [result], or
    what the [catch] clause makes of the value thrown. *)
Definition streamLoop (agent : BaseAgent.t) (rest : list SDKMessage)
           (raised : option Thrown) (result : AgentResult.t)
  : StreamStep * StreamState :=
  match rest with
  | message :: rest' => (Yielded message, Suspended agent message rest' raised result)
  | [] =>
      (Done (match raised with
             | None => result
             | Some error => caught error
             end),
       Completed agent)
  end.

(** [generator.return()]: the consumer leaves its loop; the generator
    completes where it stands and runs nothing more of its body. *)
Definition abandon (st : StreamState) : StreamState := Completed (agentOf st).

(** [Partial<AgentConfig>], the optional third argument of the factories. *)
Module PartialAgentConfig.
Record t : Type := {
  name : option string;
  systemPrompt : option string;
  model : option string;
  maxTurns : option N;
  permissionMode : option PermissionMode;
  allowedTools : option (list string);
  disallowedTools : option (list string);
  mcpServers : option (JsMap.t McpServerConfig.t)
}.

(** The argument left out, or an object without properties. *)
Definition none : t :=
  {| name := None; systemPrompt := None; model := None; maxTurns := None;
     permissionMode := None; allowedTools := None; disallowedTools := None;
     mcpServers := None |}.
End PartialAgentConfig.

(** [a ?? b] on optional properties in a spread: the later object wins
    where it has the property. *)
Definition orElse {A : Type} (later earlier : option A) : option A :=
  match later with Some _ => later | None => earlier end.

Definition orElseValue {A : Type} (later : option A) (earlier : A) : A :=
  match later with Some x => x | None => earlier end.

(** The object literal [{ ...config, ...options }]. *)
Definition withOptions (config : AgentConfig.t) (options : PartialAgentConfig.t)
  : AgentConfig.t :=
  {| AgentConfig.name :=
       orElseValue (PartialAgentConfig.name options) (AgentConfig.name config);
     AgentConfig.systemPrompt :=
       orElseValue (PartialAgentConfig.systemPrompt options)
                   (AgentConfig.systemPrompt config);
     AgentConfig.model :=
       orElse (PartialAgentConfig.model options) (AgentConfig.model config);
     AgentConfig.maxTurns :=
       orElse (PartialAgentConfig.maxTurns options) (AgentConfig.maxTurns config);
     AgentConfig.permissionMode :=
       orElse (PartialAgentConfig.permissionMode options)
              (AgentConfig.permissionMode config);
     AgentConfig.allowedTools :=
       orElse (PartialAgentConfig.allowedTools options) (AgentConfig.allowedTools config);
     AgentConfig.disallowedTools :=
       orElse (PartialAgentConfig.disallowedTools options)
              (AgentConfig.disallowedTools config);
     AgentConfig.mcpServers :=
       orElse (PartialAgentConfig.mcpServers options) (AgentConfig.mcpServers config) |}.

(** The object literals of [createToolAgent] and [createMcpAgent] before
    the spread of [options]. *)
Definition toolAgentConfig (name systemPrompt : string) (allowedTools : list string)
  : AgentConfig.t :=
  {| AgentConfig.name := name;
     AgentConfig.systemPrompt := systemPrompt;
     AgentConfig.model := None;
     AgentConfig.maxTurns := None;
     AgentConfig.permissionMode := None;
     AgentConfig.allowedTools := Some allowedTools;
     AgentConfig.disallowedTools := None;
     AgentConfig.mcpServers := None |}.

Definition mcpAgentConfig (name systemPrompt : string)
           (mcpServers : option (JsMap.t McpServerConfig.t)) : AgentConfig.t :=
  {| AgentConfig.name := name;
     AgentConfig.systemPrompt := systemPrompt;
     AgentConfig.model := None;
     AgentConfig.maxTurns := None;
     AgentConfig.permissionMode := None;
     AgentConfig.allowedTools := None;
     AgentConfig.disallowedTools := None;
     AgentConfig.mcpServers := mcpServers |}.

(** [systemPrompt || "You are a helpful assistant."] in [runQuery]. *)
Definition oneShotPrompt (systemPrompt : option string) : string :=
  match systemPrompt with
  | Some s => if JsString.truthy s then s else "You are a helpful assistant."
  | None => "You are a helpful assistant."
  end.

(** A message of the input of [runConversation]:
    [{ type: "user", message: { role: "user", content } }]. *)
Record ConversationMessage : Type := { userContent : string }.

(** The [options] of the call of [query] in [runConversation]: the two
    lists of tools are not passed. *)
Definition conversationOptions (agent : BaseAgent.t) : QueryOptions.t :=
  let c := BaseAgent.config agent in
  {| QueryOptions.model := AgentConfig.model c;
     QueryOptions.systemPrompt := AgentConfig.systemPrompt c;
     QueryOptions.maxTurns := AgentConfig.maxTurns c;
     QueryOptions.permissionMode := AgentConfig.permissionMode c;
     QueryOptions.allowedTools := None;
     QueryOptions.disallowedTools := None;
     QueryOptions.mcpServers := AgentConfig.mcpServers c;
     QueryOptions.resume := BaseAgent.sessionId agent |}.

(** The body of the loop of [runConversation]: a result message that is no
    success sets the session reference and leaves [result] as it is. *)
Definition onConversationMessage (st : AgentResult.t * option string)
           (message : SDKMessage) : AgentResult.t * option string :=
  match message with
  | ResultMessage resultMsg =>
      (if String.eqb (SDKResultMessage.subtype resultMsg) "success"
       then successResult resultMsg
       else fst st,
       Some (SDKResultMessage.session_id resultMsg))
  | _ => st
  end.

(** The [try] block of [runConversation] once [query] has been called. *)
Definition consumeConversation (agent : BaseAgent.t) (q : QueryRun)
  : AgentResult.t * BaseAgent.t :=
  let '(result, sessionId) :=
    fold_left onConversationMessage (events q) (noResult, BaseAgent.sessionId agent) in
  (match raised q with
   | None => result
   | Some error => caught error
   end,
   {| BaseAgent.config := BaseAgent.config agent; BaseAgent.sessionId := sessionId |}).

Section EngineRest.

Variable World : Type.
Variable query : QueryParams -> World -> QueryRun * World.

(** The engine called with a sequence of user messages as its prompt. *)
Variable converse :
  list ConversationMessage -> QueryOptions.t -> World -> QueryRun * World.

Local Open Scope state_scope.

(** One call of [next()] on the generator of [stream].  The first call
    starts the body, which calls [query]; a later call resumes after
    [yield message] and handles that message. *)
Definition next (st : StreamState) : M World (StreamStep * StreamState) :=
  match st with
  | NotStarted agent prompt =>
      q <- callQuery query {| prompt := prompt; options := queryOptions agent |} ;;
      ret (streamLoop agent (events q) (raised q) noResult)
  | Suspended agent message rest raised result =>
      let '(result', sessionId) :=
        onStreamMessage (result, BaseAgent.sessionId agent) message in
      ret (streamLoop {| BaseAgent.config := BaseAgent.config agent;
                         BaseAgent.sessionId := sessionId |}
                      rest raised result')
  | Completed agent => ret (Exhausted, Completed agent)
  end.

(** [n] calls of [next()] in a row. *)
Fixpoint nextN (n : nat) (st : StreamState) : M World (list StreamStep * StreamState) :=
  match n with
  | 0 => ret ([], st)
  | S n' =>
      '(step, st') <- next st ;;
      '(steps, st'') <- nextN n' st' ;;
      ret (step :: steps, st'')
  end.

(** [agent.stream(prompt)]: the generator, not yet started. *)
Definition stream (agent : BaseAgent.t) (prompt : string) : StreamState :=
  NotStarted agent prompt.

(** [BaseAgent.runConversation]. *)
Definition runConversation (agent : BaseAgent.t) (messages : list ConversationMessage)
  : M World (AgentResult.t * BaseAgent.t) :=
  fun s =>
    let (q, w) := converse messages (conversationOptions agent) (world s) in
    (consumeConversation agent q, {| world := w; log := log s |}).

(** [createAgent(name, systemPrompt, options)]. *)
Definition createAgentWith (name systemPrompt : string)
           (options : PartialAgentConfig.t) : M World BaseAgent.t :=
  newBaseAgent (withOptions (createAgentConfig name systemPrompt) options).

Definition createToolAgent (name systemPrompt : string) (allowedTools : list string)
           (options : PartialAgentConfig.t) : M World BaseAgent.t :=
  newBaseAgent (withOptions (toolAgentConfig name systemPrompt allowedTools) options).

Definition createMcpAgent (name systemPrompt : string)
           (mcpServers : option (JsMap.t McpServerConfig.t))
           (options : PartialAgentConfig.t) : M World BaseAgent.t :=
  newBaseAgent (withOptions (mcpAgentConfig name systemPrompt mcpServers) options).

(** [runQuery]. *)
Definition runQuery (prompt : string) (systemPrompt : option string)
           (options : PartialAgentConfig.t) : M World AgentResult.t :=
  agent <- createAgentWith "one-shot" (oneShotPrompt systemPrompt) options ;;
  '(result, _) <- run query agent prompt ;;
  ret result.

Section RegistryRest.

Variable Data : Type.
Variable dataTruthy : Data -> bool.
Variable stringify : Data -> Thrown + string.

(** The calls a user of an [AgentOrchestrator] can make. *)
Inductive RegistryCall : Type :=
| CallRegister (config : AgentConfig.t)
| CallExecute (startAgent task : string)
| CallHandoff (toAgent context : string) (data : option Data)
| CallReset.

(** One call, for its effect on the orchestrator. *)
Definition perform (this : AgentOrchestrator Data) (call : RegistryCall)
  : M World (AgentOrchestrator Data) :=
  match call with
  | CallRegister config => registerAgent this config
  | CallExecute startAgent task =>
      '(_, this') <- execute query this startAgent task ;;
      ret this'
  | CallHandoff toAgent context data =>
      '(_, this') <- handoff query dataTruthy stringify this toAgent context data ;;
      ret this'
  | CallReset => ret (reset this)
  end.

(** A sequence of calls, one after the other. *)
Fixpoint performAll (this : AgentOrchestrator Data) (calls : list RegistryCall)
  : M World (AgentOrchestrator Data) :=
  match calls with
  | [] => ret this
  | call :: calls' =>
      this' <- perform this call ;;
      performAll this' calls'
  end.

End RegistryRest.

End EngineRest.

Arguments CallRegister {Data} config.
Arguments CallExecute {Data} startAgent task.
Arguments CallHandoff {Data} toAgent context data.
Arguments CallReset {Data}.

(** A failed result without its number of turns and its list of errors; a
    success as it is. *)
Definition withoutFailureDetails (r : AgentResult.t) : AgentResult.t :=
  if AgentResult.success r then r
  else {| AgentResult.success := false;
          AgentResult.result := AgentResult.result r;
          AgentResult.sessionId := AgentResult.sessionId r;
          AgentResult.numTurns := None;
          AgentResult.usage := AgentResult.usage r;
          AgentResult.totalCostUsd := AgentResult.totalCostUsd r;
          AgentResult.error := AgentResult.error r;
          AgentResult.errors := None |}.

(** [message] is a result message whose subtype is [success]. *)
Definition isSuccessResult (message : SDKMessage) : bool :=
  match message with
  | ResultMessage m => String.eqb (SDKResultMessage.subtype m) "success"
  | _ => false
  end.

(** No message of the list is a successful result message. *)
Definition noSuccessIn (events : list SDKMessage) : bool :=
  forallb (fun e => negb (isSuccessResult e)) events.

(* ===================================================================== *)
(** ** The tool presets ([tools.ts]) *)
(* ===================================================================== *)

(** [Object.values(BUILTIN_TOOLS)], in the order of the object literal. *)
Definition BUILTIN_TOOLS : list string :=
  ["Read"; "Write"; "Edit"; "Glob"; "Grep"; "Bash"; "WebFetch"; "WebSearch";
   "NotebookEdit"; "Task"; "TodoWrite"].

Module TOOL_PRESETS.
Definition readOnly : list string := ["Read"; "Glob"; "Grep"].
Definition fileAccess : list string := ["Read"; "Write"; "Edit"; "Glob"; "Grep"].
Definition development : list string :=
  ["Read"; "Write"; "Edit"; "Glob"; "Grep"; "Bash"].
Definition research : list string :=
  ["Read"; "Glob"; "Grep"; "WebFetch"; "WebSearch"].
Definition all : list string := BUILTIN_TOOLS.
End TOOL_PRESETS.

(* ===================================================================== *)
(** ** Vocabulary and inputs for the rest of the code *)
(* ===================================================================== *)

(** The engine of the worked examples, called with a sequence of user
    messages. *)
Definition scriptedConversation (_ : list ConversationMessage) (_ : QueryOptions.t)
           (w : Script) : QueryRun * Script :=
  match w with
  | [] => ({| events := []; raised := None |}, [])
  | q :: w' => (q, w')
  end.

(** Two runs of one agent: the first gives up, the second answers. *)
Definition demoTwoRuns : Script :=
  [gives_up "error_max_turns" "s1"; replies "hi" "s2"].

Definition demoFirstRun : AgentResult.t * BaseAgent.t * Sys Script :=
  run scripted demoAgent "hello" (start demoTwoRuns).

Definition demoSecondRun : AgentResult.t * BaseAgent.t * Sys Script :=
  run scripted (snd (fst demoFirstRun)) "again" (snd demoFirstRun).

(** A run with a successful result message followed by one that is no
    success, as a conversation that is cut short after its first answer. *)
Definition answers_then_gives_up (text session subtype session' : string) : QueryRun :=
  {| events := [SystemMessage "init"; resultEvent "success" text session None;
                AssistantMessage "more"; resultEvent subtype "" session' None];
     raised := None |}.

Definition demoConversation : AgentResult.t * BaseAgent.t * Sys Script :=
  runConversation scriptedConversation demoAgent
    [{| userContent := "first" |}; {| userContent := "second" |}]
    (start [answers_then_gives_up "one" "s1" "error_max_turns" "s2"]).

(** A factory called and the agent it returns run once. *)
Definition thenRun {World : Type} (query : QueryParams -> World -> QueryRun * World)
           (create : M World BaseAgent.t) (input : string)
  : M World (AgentResult.t * BaseAgent.t) :=
  (agent <- create ;; run query agent input)%state.

(** The three factories with their explicit arguments. *)
Inductive FactoryCall : Type :=
| MakeAgent (name systemPrompt : string)
| MakeToolAgent (name systemPrompt : string) (allowedTools : list string)
| MakeMcpAgent (name systemPrompt : string)
               (mcpServers : option (JsMap.t McpServerConfig.t)).

Definition callFactory {World : Type} (call : FactoryCall) (opts : PartialAgentConfig.t)
  : M World BaseAgent.t :=
  match call with
  | MakeAgent name systemPrompt => createAgentWith name systemPrompt opts
  | MakeToolAgent name systemPrompt allowedTools =>
      createToolAgent name systemPrompt allowedTools opts
  | MakeMcpAgent name systemPrompt mcpServers =>
      createMcpAgent name systemPrompt mcpServers opts
  end.

Definition explicitName (call : FactoryCall) : string :=
  match call with
  | MakeAgent name _ => name
  | MakeToolAgent name _ _ => name
  | MakeMcpAgent name _ _ => name
  end.

Definition explicitPrompt (call : FactoryCall) : string :=
  match call with
  | MakeAgent _ systemPrompt => systemPrompt
  | MakeToolAgent _ systemPrompt _ => systemPrompt
  | MakeMcpAgent _ systemPrompt _ => systemPrompt
  end.

Definition explicitTools (call : FactoryCall) : option (list string) :=
  match call with
  | MakeToolAgent _ _ allowedTools => Some allowedTools
  | _ => None
  end.

Definition explicitServers (call : FactoryCall) : option (JsMap.t McpServerConfig.t) :=
  match call with
  | MakeMcpAgent _ _ mcpServers => mcpServers
  | _ => None
  end.

(** The call registers an agent under the name [n]. *)
Definition registers {Data : Type} (n : string) (call : RegistryCall Data) : bool :=
  match call with
  | CallRegister config => String.eqb (AgentConfig.name config) n
  | _ => false
  end.

(** The call can reach the agent object held under the name [n]: it
    registers an agent under [n], runs the agent [n], or resets every
    agent. *)
Definition touches {Data : Type} (n : string) (call : RegistryCall Data) : bool :=
  match call with
  | CallRegister config => String.eqb (AgentConfig.name config) n
  | CallExecute startAgent _ => String.eqb startAgent n
  | CallHandoff toAgent _ _ => String.eqb toAgent n
  | CallReset => true
  end.

Definition isHandoffCall {Data : Type} (call : RegistryCall Data) : bool :=
  match call with
  | CallHandoff _ _ _ => true
  | _ => false
  end.

(** The registry of the examples after a handoff from the researcher to the
    writer. *)
Definition demoCalls : list (RegistryCall Payload) :=
  [CallRegister (namedConfig "researcher"); CallRegister (namedConfig "writer");
   CallExecute "researcher" "research this";
   CallHandoff "writer" "write it up" (Some (NumberPayload 7))].

Definition demoSession : Script := [replies "found" "s1"; replies "written" "s2"].

(** A record of the handoff history names a source that is not the empty
    name, and both its source and its target are among [names]. *)
Definition recordOk {Data : Type} (names : list string) (h : AgentHandoff Data) : Prop :=
  fromAgent h <> "" /\ In (fromAgent h) names /\ In (toAgent h) names.

(** What holds of an orchestrator between two calls. *)
Definition RegistryInv {Data : Type} (this : AgentOrchestrator Data) : Prop :=
  NoDup (JsMap.keys (agents this))
  /\ (forall n a, JsMap.get n (agents this) = Some a ->
                  AgentConfig.name (BaseAgent.config a) = n
                  /\ AgentConfig.model (BaseAgent.config a) <> None
                  /\ AgentConfig.maxTurns (BaseAgent.config a) <> None)
  /\ (forall c, currentAgent this = Some c -> In c (JsMap.keys (agents this)))
  /\ (forall h, In h (handoffHistory this) -> recordOk (JsMap.keys (agents this)) h).

(** The registry of the examples after the calls of [demoCalls], and calls
    made afterwards. *)
Definition demoAfterHandoff : AgentOrchestrator Payload * Sys Script :=
  performAll scripted payloadTruthy payloadStringify newOrchestrator demoCalls
             (start demoSession).

Definition demoLaterCalls : list (RegistryCall Payload) :=
  [CallExecute "researcher" "again"; CallHandoff "writer" "once more" None; CallReset].

Definition demoOtherCalls : list (RegistryCall Payload) :=
  [CallExecute "researcher" "again"; CallRegister (namedConfig "editor")].



(* ===================================================================== *)
(** ** The agent route ([app/api/agent/route.ts]) *)
(* ===================================================================== *)

(** The names of the properties every object inherits from
    [Object.prototype]. *)
Definition inheritedKey (key : string) : bool :=
  existsb (String.eqb key)
    ["constructor"; "hasOwnProperty"; "isPrototypeOf"; "propertyIsEnumerable";
     "toLocaleString"; "toString"; "valueOf"; "__proto__"; "__defineGetter__";
     "__defineSetter__"; "__lookupGetter__"; "__lookupSetter__"].

(** An agent type: a string that names no property inherited from
    [Object.prototype].  For such a key, [table[key]] on an object literal
    is a property of the literal or [undefined].  For the twelve other
    strings the handler finds inherited functions where it expects a system
    prompt and a list of tools; a configuration cannot hold them, and these
    requests have no counterpart in the model. *)
Module AgentType.
Record t : Type := {
  name : string;
  notInherited : inheritedKey name = false
}.
End AgentType.

(** The default of the destructuring, [agentType = "default"]. *)
Definition defaultAgentType : AgentType.t :=
  {| AgentType.name := "default"; AgentType.notInherited := eq_refl |}.

(** The fields the handler reads in the body of the request.  The model
    covers the bodies in which [prompt] and [systemPrompt] are strings,
    [agentType] is an agent type, [tools] is an array of strings and
    [maxTurns] is a non-negative integer, whenever they are present; an
    absent property is [None]. *)
Module AgentRequest.
Record t : Type := {
  prompt : option string;
  systemPrompt : option string;
  agentType : option AgentType.t;
  tools : option (list string);
  maxTurns : option N
}.
End AgentRequest.

(** What the surroundings of one request answer: each of the calls is made
    at most once, and either returns or throws.  [json] also throws when the
    body is [null], because the destructuring that follows does. *)
Module RouteEnv.
Record t : Type := {
  auth : Thrown + option string;
  json : Thrown + AgentRequest.t;
  ANTHROPIC_API_KEY : option string;
  checkApiLimit : Thrown + bool;
  checkSubscription : Thrown + bool;
  incrementApiLimit : option Thrown
}.
End RouteEnv.

(** The calls made to the usage counter and to the subscription, in
    order. *)
Inductive RouteEffect : Type :=
| CheckedApiLimit
| CheckedSubscription
| IncrementedApiLimit.

(** The object the handler serializes: the result without its list of
    errors. *)
Module AgentResponse.
Record t : Type := {
  success : bool;
  result : option string;
  sessionId : option string;
  numTurns : option N;
  usage : option Usage;
  totalCostUsd : option float;
  error : option string
}.
End AgentResponse.

Definition responseOf (r : AgentResult.t) : AgentResponse.t :=
  {| AgentResponse.success := AgentResult.success r;
     AgentResponse.result := AgentResult.result r;
     AgentResponse.sessionId := AgentResult.sessionId r;
     AgentResponse.numTurns := AgentResult.numTurns r;
     AgentResponse.usage := AgentResult.usage r;
     AgentResponse.totalCostUsd := AgentResult.totalCostUsd r;
     AgentResponse.error := AgentResult.error r |}.

(** A response with a text and a status, or [NextResponse.json] with status
    200. *)
Inductive RouteResponse : Type :=
| TextResponse (text : string) (status : N)
| JsonResponse (body : AgentResponse.t).

(** [systemPrompts[agentType]]: [None] is [undefined]. *)
Definition systemPrompts (systemPrompt : string) (agentType : AgentType.t)
  : option string :=
  let key := AgentType.name agentType in
  if String.eqb key "default" then Some systemPrompt
  else if String.eqb key "researcher" then
    Some "You are a research assistant. Find and summarize information clearly and accurately. Use web search when needed."
  else if String.eqb key "writer" then
    Some "You are a content writer. Create engaging, well-structured content based on the given topic."
  else if String.eqb key "analyst" then
    Some "You are a data analyst. Analyze information and provide actionable insights."
  else if String.eqb key "developer" then
    Some "You are a software developer. Help write, review, and debug code. Use file tools when needed."
  else None.

(** [toolPresets[agentType]]. *)
Definition toolPresets (agentType : AgentType.t) : option (list string) :=
  let key := AgentType.name agentType in
  if String.eqb key "default" then Some []
  else if String.eqb key "researcher" then Some TOOL_PRESETS.research
  else if String.eqb key "writer" then Some []
  else if String.eqb key "analyst" then Some TOOL_PRESETS.readOnly
  else if String.eqb key "developer" then Some TOOL_PRESETS.development
  else None.

(** [systemPrompts[agentType] || systemPrompts.default]. *)
Definition effectiveSystemPrompt (systemPrompt : string) (agentType : AgentType.t)
  : string :=
  match systemPrompts systemPrompt agentType with
  | Some text => if JsString.truthy text then text else systemPrompt
  | None => systemPrompt
  end.

(** [tools || toolPresets[agentType] || []]: an array is truthy, also when
    it is empty. *)
Definition effectiveTools (tools : option (list string)) (agentType : AgentType.t)
  : list string :=
  match tools with
  | Some given => given
  | None =>
      match toolPresets agentType with
      | Some preset => preset
      | None => []
      end
  end.

(** [!x] for an optional string: [undefined], [null] and the empty string
    are falsy. *)
Definition absent (x : option string) : bool :=
  match x with
  | Some s => JsString.isEmpty s
  | None => true
  end.

(** The options [{ maxTurns }]. *)
Definition maxTurnsOnly (maxTurns : N) : PartialAgentConfig.t :=
  {| PartialAgentConfig.name := None;
     PartialAgentConfig.systemPrompt := None;
     PartialAgentConfig.model := None;
     PartialAgentConfig.maxTurns := Some maxTurns;
     PartialAgentConfig.permissionMode := None;
     PartialAgentConfig.allowedTools := None;
     PartialAgentConfig.disallowedTools := None;
     PartialAgentConfig.mcpServers := None |}.

(** The response of the outer [catch] clause. *)
Definition internalError : RouteResponse := TextResponse "Internal Error" 500.

Section Route.

Variable World : Type.
Variable query : QueryParams -> World -> QueryRun * World.

Local Open Scope state_scope.

(** The part of the handler after the guards: the agent is made and run,
    the usage is counted for a user without subscription, and the result is
    serialized. *)
Definition answer (env : RouteEnv.t) (body : AgentRequest.t) (isPro : bool)
  : M World (RouteResponse * list RouteEffect) :=
  let systemPrompt :=
    orElseValue (AgentRequest.systemPrompt body) "You are a helpful AI assistant." in
  let agentType := orElseValue (AgentRequest.agentType body) defaultAgentType in
  let maxTurns := orElseValue (AgentRequest.maxTurns body) 10%N in
  let effectivePrompt := effectiveSystemPrompt systemPrompt agentType in
  let effectiveTools := effectiveTools (AgentRequest.tools body) agentType in
  agent <- (if (0 <? length effectiveTools)%nat
            then createToolAgent (AgentType.name agentType ++ "-agent") effectivePrompt
                                 effectiveTools (maxTurnsOnly maxTurns)
            else createAgentWith (AgentType.name agentType ++ "-agent") effectivePrompt
                                 (maxTurnsOnly maxTurns)) ;;
  '(result, _) <- run query agent (orEmpty (AgentRequest.prompt body)) ;;
  if negb isPro then
    match RouteEnv.incrementApiLimit env with
    | Some _ =>
        ret (internalError,
             [CheckedApiLimit; CheckedSubscription; IncrementedApiLimit])
    | None =>
        ret (JsonResponse (responseOf result),
             [CheckedApiLimit; CheckedSubscription; IncrementedApiLimit])
    end
  else ret (JsonResponse (responseOf result), [CheckedApiLimit; CheckedSubscription]).

(** The handler [POST], with the calls it made to the usage counter and to
    the subscription. *)
Definition POST (env : RouteEnv.t) : M World (RouteResponse * list RouteEffect) :=
  match RouteEnv.auth env with
  | inl _ => ret (internalError, [])
  | inr userId =>
      match RouteEnv.json env with
      | inl _ => ret (internalError, [])
      | inr body =>
          if absent userId then ret (TextResponse "Unauthorized" 401, [])
          else if absent (RouteEnv.ANTHROPIC_API_KEY env)
          then ret (TextResponse "Anthropic API Key not configured." 500, [])
          else if absent (AgentRequest.prompt body)
          then ret (TextResponse "Prompt is required" 400, [])
          else
            match RouteEnv.checkApiLimit env with
            | inl _ => ret (internalError, [CheckedApiLimit])
            | inr freeTrial =>
                match RouteEnv.checkSubscription env with
                | inl _ => ret (internalError, [CheckedApiLimit; CheckedSubscription])
                | inr isPro =>
                    if negb freeTrial && negb isPro
                    then ret (TextResponse
                                "Free trial has expired. Please upgrade to pro." 403,
                              [CheckedApiLimit; CheckedSubscription])
                    else answer env body isPro
                end
            end
      end
  end.

End Route.

(** The list of tools the engine receives for a request: the tools of the
    request when it has some, the preset of the agent type when the request
    has no property [tools], and no restriction otherwise. *)
Definition routeTools (tools : option (list string)) (agentType : AgentType.t)
  : option (list string) :=
  match tools with
  | Some [] => None
  | Some given => Some given
  | None =>
      if String.eqb (AgentType.name agentType) "researcher"
      then Some TOOL_PRESETS.research
      else if String.eqb (AgentType.name agentType) "analyst"
      then Some TOOL_PRESETS.readOnly
      else if String.eqb (AgentType.name agentType) "developer"
      then Some TOOL_PRESETS.development
      else None
  end.

(** The four agent types with a system prompt of their own. *)
Definition namedAgentType (agentType : AgentType.t) : bool :=
  existsb (String.eqb (AgentType.name agentType))
          ["researcher"; "writer"; "analyst"; "developer"].

(** A request the guards let through, from a user on the free trial. *)
Definition demoRequest : AgentRequest.t :=
  {| AgentRequest.prompt := Some "Fix the bug";
     AgentRequest.systemPrompt := Some "Be brief.";
     AgentRequest.agentType :=
       Some {| AgentType.name := "developer"; AgentType.notInherited := eq_refl |};
     AgentRequest.tools := Some [];
     AgentRequest.maxTurns := None |}.

Definition demoEnv : RouteEnv.t :=
  {| RouteEnv.auth := inr (Some "user_1");
     RouteEnv.json := inr demoRequest;
     RouteEnv.ANTHROPIC_API_KEY := Some "key";
     RouteEnv.checkApiLimit := inr true;
     RouteEnv.checkSubscription := inr false;
     RouteEnv.incrementApiLimit := None |}.

(** The same request, refused because the trial has run out. *)
Definition demoExpiredEnv : RouteEnv.t :=
  {| RouteEnv.auth := inr (Some "user_1");
     RouteEnv.json := inr demoRequest;
     RouteEnv.ANTHROPIC_API_KEY := Some "key";
     RouteEnv.checkApiLimit := inr false;
     RouteEnv.checkSubscription := inr false;
     RouteEnv.incrementApiLimit := None |}.

(* ===================================================================== *)
(** ** Facts about [JsMap] *)
(* ===================================================================== *)

Module JsMapFacts.

Section WithValue.
Variable V : Type.
Implicit Types (m : JsMap.t V) (k : string) (v : V) (l : list (string * V)).

Lemma get_set_same k v m : JsMap.get k (JsMap.set k v m) = Some v.
Proof.
  induction m as [|[k' v'] m IH]; simpl.
  - now rewrite String.eqb_refl.
  - destruct (String.eqb k k') eqn:E; simpl; rewrite E; auto.
Qed.

Lemma get_set_other k k' v m :
  k <> k' -> JsMap.get k' (JsMap.set k v m) = JsMap.get k' m.
Proof.
  intros Hne. induction m as [|[k0 v0] m IH]; simpl.
  - destruct (String.eqb_spec k' k); congruence.
  - destruct (String.eqb_spec k k0) as [->|Hk]; simpl.
    + destruct (String.eqb_spec k' k0); congruence.
    + now rewrite IH.
Qed.

Lemma get_In_keys k m : JsMap.get k m <> None <-> In k (JsMap.keys m).
Proof.
  induction m as [|[k' v'] m IH]; simpl.
  - split; [congruence | tauto].
  - destruct (String.eqb_spec k k') as [->|Hk].
    + split; [auto | congruence].
    + rewrite IH. split; [auto | intros [H|H]; congruence].
Qed.

Lemma get_None_keys k m : JsMap.get k m = None <-> ~ In k (JsMap.keys m).
Proof.
  rewrite <- get_In_keys. destruct (JsMap.get k m); split; try congruence.
  intros H. exfalso. apply H. congruence.
Qed.

(** A key already present keeps its place; a new key goes last. *)
Lemma keys_set_present k v m :
  In k (JsMap.keys m) -> JsMap.keys (JsMap.set k v m) = JsMap.keys m.
Proof.
  induction m as [|[k' v'] m IH]; simpl; [tauto|].
  intros H. destruct (String.eqb_spec k k') as [->|Hk]; simpl; auto.
  f_equal. apply IH. destruct H; congruence.
Qed.

Lemma keys_set_absent k v m :
  ~ In k (JsMap.keys m) -> JsMap.keys (JsMap.set k v m) = JsMap.keys m ++ [k].
Proof.
  induction m as [|[k' v'] m IH]; simpl; auto.
  intros H. destruct (String.eqb_spec k k') as [->|Hk]; simpl.
  - exfalso. auto.
  - f_equal. apply IH. tauto.
Qed.

Lemma In_keys_set k k' v m :
  In k' (JsMap.keys (JsMap.set k v m)) <-> k' = k \/ In k' (JsMap.keys m).
Proof.
  destruct (in_dec string_dec k (JsMap.keys m)) as [Hin|Hout].
  - rewrite keys_set_present by assumption. intuition congruence.
  - rewrite keys_set_absent by assumption. rewrite in_app_iff. simpl.
    intuition congruence.
Qed.

Lemma NoDup_keys_set k v m :
  NoDup (JsMap.keys m) -> NoDup (JsMap.keys (JsMap.set k v m)).
Proof.
  intros Hnd. destruct (in_dec string_dec k (JsMap.keys m)) as [Hin|Hout].
  - now rewrite keys_set_present.
  - rewrite keys_set_absent by assumption.
    apply NoDup_app; [assumption | repeat constructor; simpl; tauto |].
    intros x Hx [<-|[]]. contradiction.
Qed.

Lemma get_setAll k l : forall m,
  JsMap.get k (JsMap.setAll l m) =
  match JsMap.lastWrite k l with Some v => Some v | None => JsMap.get k m end.
Proof.
  induction l as [|[k' v] l IH]; intros m; simpl; auto.
  unfold JsMap.setAll in *. simpl. rewrite IH.
  destruct (JsMap.lastWrite k l); auto.
  destruct (String.eqb_spec k k') as [->|Hk].
  - apply get_set_same.
  - apply get_set_other. congruence.
Qed.

Lemma NoDup_keys_setAll l : forall m,
  NoDup (JsMap.keys m) -> NoDup (JsMap.keys (JsMap.setAll l m)).
Proof.
  induction l as [|[k v] l IH]; intros m Hm; simpl; auto.
  apply IH. now apply NoDup_keys_set.
Qed.

Lemma In_keys_setAll k l : forall m,
  In k (JsMap.keys (JsMap.setAll l m)) <-> In k (map fst l) \/ In k (JsMap.keys m).
Proof.
  induction l as [|[k' v] l IH]; intros m; simpl; [tauto|].
  unfold JsMap.setAll in *. simpl. rewrite IH, In_keys_set. intuition congruence.
Qed.

Lemma lastWrite_None k l : JsMap.lastWrite k l = None <-> ~ In k (map fst l).
Proof.
  induction l as [|[k' v] l IH]; simpl; [tauto|].
  destruct (JsMap.lastWrite k l).
  - split; [congruence|]. intros H. exfalso.
    assert (Hn : ~ In k (map fst l)) by tauto.
    apply IH in Hn. congruence.
  - destruct (String.eqb_spec k k') as [->|Hk].
    + split; [congruence | intros H; exfalso; auto].
    + split; auto. intros _ [H|H]; [congruence|]. apply IH in H; auto.
Qed.

Lemma set_absent k v m :
  ~ In k (JsMap.keys m) -> JsMap.set k v m = m ++ [(k, v)].
Proof.
induction m as [|[k' v'] m IH]; simpl; auto.
intros H. destruct (String.eqb_spec k k') as [->|Hk].
- exfalso. auto.
- f_equal. apply IH. tauto.
Qed.

(** Writes under distinct new keys are appended in order. *)
Lemma setAll_distinct l : forall m,
  NoDup (JsMap.keys m ++ map fst l) -> JsMap.setAll l m = m ++ l.
Proof.
induction l as [|[k v] l IH]; intros m Hnd; simpl.
- now rewrite app_nil_r.
- unfold JsMap.setAll in *. simpl.
  assert (Hk : ~ In k (JsMap.keys m)).
  { simpl in Hnd. apply NoDup_remove_2 in Hnd. rewrite in_app_iff in Hnd. tauto. }
  rewrite set_absent by assumption. rewrite IH.
  + now rewrite <- app_assoc.
  + unfold JsMap.keys in *. rewrite map_app. simpl. rewrite <- app_assoc. exact Hnd.
Qed.


End WithValue.

End JsMapFacts.

(* ===================================================================== *)
(** ** [BaseAgent.run] *)
(* ===================================================================== *)

(** The loop of [run] forgets everything before the last result message. *)
Lemma fold_onMessage_no_result events : forall st,
  noResultIn events = true ->
  fold_left onMessage events st = st.
Proof.
induction events as [|e events IH]; intros st H; simpl in *; auto.
apply andb_prop in H as [He H]. destruct e; simpl in *; auto; discriminate.
Qed.

Lemma fold_onMessage_last pre m post st :
  noResultIn post = true ->
  fold_left onMessage (pre ++ ResultMessage m :: post) st =
  onMessage st (ResultMessage m).
Proof.
intros H. rewrite fold_left_app. simpl.
now rewrite fold_onMessage_no_result.
Qed.

(** Every sequence of messages either holds no result message or splits at
    its last one. *)
Lemma last_result_split (events : list SDKMessage) :
  noResultIn events = true \/
  exists pre m post,
    events = pre ++ ResultMessage m :: post /\
    noResultIn post = true.
Proof.
induction events as [|e events IH]; [now left|].
destruct IH as [Hnone | (pre & m & post & -> & Hpost)].
- destruct e as [c|c|c|m]; simpl; try (now left).
  right. exists [], m, events. auto.
- right. exists (e :: pre), m, post. auto.
Qed.

Section RunFacts.

Variable World : Type.
Variable query : QueryParams -> World -> QueryRun * World.

(** [run] calls the engine once and adds one entry to the log. *)
Lemma run_unfold agent prompt (s : Sys World) :
  run query agent prompt s =
  (consume agent (fst (query (paramsOf agent prompt) (world s))),
   {| world := snd (query (paramsOf agent prompt) (world s));
      log := log s ++ [Ran (BaseAgent.config agent) (paramsOf agent prompt)
                           (fst (consume agent
                                   (fst (query (paramsOf agent prompt) (world s)))))] |}).
Proof.
unfold run, bind, callQuery, record, ret, paramsOf. simpl.
destruct (query _ (world s)) as [q w]. simpl.
destruct (consume agent q) as [r a]. reflexivity.
Qed.

Lemma createAgent_unfold name systemPrompt (s : Sys World) :
  createAgent name systemPrompt s =
  (freshAgent name systemPrompt,
   {| world := world s;
      log := log s ++ [Constructed (BaseAgent.config (freshAgent name systemPrompt))] |}).
Proof. reflexivity. Qed.

Lemma consume_raised agent q e :
  raised q = Some e -> fst (consume agent q) = caught e.
Proof.
unfold consume. intros ->.
now destruct (fold_left onMessage (events q) (noResult, BaseAgent.sessionId agent)).
Qed.

Lemma consume_no_result agent q :
  raised q = None -> noResultIn (events q) = true ->
  consume agent q = (noResult, agent).
Proof.
unfold consume. intros -> H. rewrite fold_onMessage_no_result by assumption.
now destruct agent.
Qed.

Lemma consume_last_result agent q pre m post :
  raised q = None ->
  events q = pre ++ ResultMessage m :: post -> noResultIn post = true ->
  consume agent q =
  (if String.eqb (SDKResultMessage.subtype m) "success"
   then successResult m else errorResult m,
   {| BaseAgent.config := BaseAgent.config agent;
      BaseAgent.sessionId := Some (SDKResultMessage.session_id m) |}).
Proof.
unfold consume. intros -> -> H. now rewrite fold_onMessage_last.
Qed.

Lemma wellFormed_consume agent q : wellFormed (fst (consume agent q)) = true.
Proof.
destruct (raised q) as [e|] eqn:Hr.
- rewrite (@consume_raised agent q _ Hr). reflexivity.
- destruct (last_result_split (events q)) as [Hn | (pre & m & post & He & Hp)].
  + now rewrite consume_no_result.
  + rewrite (@consume_last_result agent q pre m post Hr He Hp). simpl.
    now destruct (String.eqb _ _).
Qed.

(** C5. [BaseAgent.run] always returns a well-formed result, whatever the
    engine does.  When the engine throws an [Error], the result is the
    failure with its message (and with ["Unknown error"] for another value
    thrown).  When the iteration ends after no result message at all, the
    result is the failure ["No result received"].  When it ends and the last
    result message is not a success, the result is a failure with the
    subtype of that message as [error], its list of errors as [errors], and
    its session identifier and number of turns. *)
Theorem run_always_returns_a_result
        (agent : BaseAgent.t) (prompt : string) (s : Sys World)
        (q : QueryRun) (w : World) :
  query (paramsOf agent prompt) (world s) = (q, w) ->
  exists (r : AgentResult.t) (agent' : BaseAgent.t),
    run query agent prompt s =
      ((r, agent'),
       {| world := w;
          log := log s ++ [Ran (BaseAgent.config agent) (paramsOf agent prompt) r] |})
    /\ wellFormed r = true
    /\ (forall message, raised q = Some (ErrorObject message) ->
        r = AgentResult.failure message)
    /\ (raised q = Some OtherValue -> r = AgentResult.failure "Unknown error")
    /\ (raised q = None -> noResultIn (events q) = true ->
        r = AgentResult.failure "No result received")
    /\ (forall pre m post,
        raised q = None ->
        events q = pre ++ ResultMessage m :: post -> noResultIn post = true ->
        SDKResultMessage.subtype m <> "success" ->
        r = {| AgentResult.success := false;
               AgentResult.result := None;
               AgentResult.sessionId := Some (SDKResultMessage.session_id m);
               AgentResult.numTurns := Some (SDKResultMessage.num_turns m);
               AgentResult.usage := None;
               AgentResult.totalCostUsd := None;
               AgentResult.error := Some (SDKResultMessage.subtype m);
               AgentResult.errors := SDKResultMessage.errors m |}).
Proof.
intros Hq.
exists (fst (consume agent q)), (snd (consume agent q)).
rewrite run_unfold, Hq. simpl.
split; [now destruct (consume agent q)|].
split; [apply wellFormed_consume|].
repeat split.
- intros message Hr. now rewrite (@consume_raised agent q _ Hr).
- intros Hr. now rewrite (@consume_raised agent q _ Hr).
- intros Hr Hn. now rewrite consume_no_result.
- intros pre m post Hr He Hp Hsub.
  rewrite (@consume_last_result agent q pre m post Hr He Hp). simpl.
  destruct (String.eqb_spec (SDKResultMessage.subtype m) "success"); [contradiction|].
  reflexivity.
Qed.

(** C9. After a call of [BaseAgent.run] that returns a success, the session
    reference of the agent is the session identifier of the terminal result
    message: the engine did not throw, the messages it delivered split at
    a last result message, that message is a success, and its session
    identifier is both in the agent and in the result. *)
Theorem run_success_sets_session
        (agent : BaseAgent.t) (prompt : string) (s : Sys World)
        (r : AgentResult.t) (agent' : BaseAgent.t) (s' : Sys World) :
  run query agent prompt s = ((r, agent'), s') ->
  AgentResult.success r = true ->
  exists q pre m post,
    q = fst (query (paramsOf agent prompt) (world s))
    /\ raised q = None
    /\ events q = pre ++ ResultMessage m :: post
    /\ noResultIn post = true
    /\ SDKResultMessage.subtype m = "success"
    /\ BaseAgent.sessionId agent' = Some (SDKResultMessage.session_id m)
    /\ AgentResult.sessionId r = Some (SDKResultMessage.session_id m)
    /\ AgentResult.result r = Some (SDKResultMessage.result m).
Proof.
rewrite run_unfold. intros Heq Hs.
set (q := fst (query (paramsOf agent prompt) (world s))) in *.
injection Heq as Hc _.
assert (Hr : r = fst (consume agent q)) by now rewrite Hc.
assert (Ha : agent' = snd (consume agent q)) by now rewrite Hc.
clear Hc. exists q.
destruct (raised q) as [e|] eqn:Hraised.
- rewrite (@consume_raised agent q _ Hraised) in Hr. subst r. discriminate.
- destruct (last_result_split (events q)) as [Hn | (pre & m & post & He & Hp)].
  + rewrite consume_no_result in Hr by assumption. subst r. discriminate.
  + exists pre, m, post.
    rewrite (@consume_last_result agent q pre m post Hraised He Hp) in Hr, Ha.
    simpl in Hr, Ha. subst r agent'.
    destruct (String.eqb_spec (SDKResultMessage.subtype m) "success") as [E|E];
      [|discriminate].
    repeat split; auto.
Qed.

End RunFacts.

(* ===================================================================== *)
(** ** The sequential chain and the pipeline *)
(* ===================================================================== *)

Section ChainFacts.

Variable World : Type.
Variable query : QueryParams -> World -> QueryRun * World.

Lemma chainLoop_cons a agents input results (s : Sys World) :
  chainLoop query (a :: agents) input results s =
  let r := stageResult query (specName a) (specSystemPrompt a) input s in
  let s1 := {| world := snd (query (paramsOf (freshAgent (specName a) (specSystemPrompt a)) input)
                                   (world s));
               log := log s ++ stageEntries (specName a) (specSystemPrompt a) input r |} in
  if negb (AgentResult.success r) then (results ++ [r], s1)
  else chainLoop query agents (chainInput r) (results ++ [r]) s1.
Proof.
simpl. unfold bind at 1. rewrite createAgent_unfold.
unfold bind at 1. rewrite run_unfold. simpl.
unfold stageResult, stageAnswer, stageEntries.
destruct (consume _ _) as [r a'] eqn:E. simpl.
rewrite <- app_assoc. simpl.
destruct (AgentResult.success r); reflexivity.
Qed.

Lemma chainLog_nil agents input : chainLog agents input [] = [].
Proof. now destruct agents. Qed.

Lemma chainLoop_spec agents : forall input results (s : Sys World) rs s',
  chainLoop query agents input results s = (rs, s') ->
  exists new,
    rs = results ++ new
    /\ log s' = log s ++ chainLog agents input new
    /\ length new <= length agents
    /\ (forall k r, nth_error new k = Some r ->
                    AgentResult.success r = false -> length new = S k)
    /\ (forallb AgentResult.success new = true -> length new = length agents).
Proof.
induction agents as [|a agents IH]; intros input results s rs s' H.
- injection H as <- <-. exists []. simpl. rewrite !app_nil_r.
  repeat split; auto. intros [|k] r; discriminate.
- rewrite chainLoop_cons in H. cbv zeta in H.
  set (r := stageResult query (specName a) (specSystemPrompt a) input s) in *.
  destruct (AgentResult.success r) eqn:Hs; simpl in H.
  + apply IH in H as (new & -> & Hlog & Hlen & Hfail & Hall).
    exists (r :: new). simpl in *. rewrite Hlog, <- !app_assoc. simpl.
    repeat split; auto.
    * lia.
    * intros [|k] r' Hk Hr'; simpl in Hk.
      -- congruence.
      -- f_equal. eauto.
    * rewrite Hs. simpl. intros Hn. f_equal. auto.
  + injection H as <- <-. exists [r]. simpl. rewrite chainLog_nil.
    repeat split; auto.
    * lia.
    * intros [|[|k]] r' Hk Hr'; simpl in Hk; try discriminate. reflexivity.
    * rewrite Hs. discriminate.
Qed.

Lemma wellFormed_stageResult name systemPrompt input (s : Sys World) :
  wellFormed (stageResult query name systemPrompt input s) = true.
Proof. apply wellFormed_consume. Qed.

Lemma chainLoop_wellFormed agents : forall input results (s : Sys World) rs s',
  chainLoop query agents input results s = (rs, s') ->
  Forall (fun r => wellFormed r = true) results ->
  Forall (fun r => wellFormed r = true) rs.
Proof.
induction agents as [|a agents IH]; intros input results s rs s' H Hwf.
- now injection H as <- <-.
- rewrite chainLoop_cons in H. cbv zeta in H.
  assert (Hwf' : Forall (fun r => wellFormed r = true)
                   (results ++ [stageResult query (specName a) (specSystemPrompt a) input s])).
  { apply Forall_app. split; auto. constructor; auto.
    apply wellFormed_stageResult. }
  destruct (negb _).
  + now injection H as <- <-.
  + eapply IH; eauto.
Qed.

End ChainFacts.

Lemma wellFormed_success_text r :
  wellFormed r = true -> AgentResult.success r = true ->
  exists text, AgentResult.result r = Some text.
Proof.
unfold wellFormed. intros H Hs. rewrite Hs in H.
destruct (AgentResult.result r); eauto. discriminate.
Qed.

Lemma runs_chainLog agents : forall input results,
  length results <= length agents ->
  map runOutcome (runs (chainLog agents input results)) = results
  /\ map runConfig (runs (chainLog agents input results)) =
     map specConfig (firstn (length results) agents)
  /\ constructions (chainLog agents input results) =
     map specConfig (firstn (length results) agents).
Proof.
induction agents as [|a agents IH]; intros input [|r results] Hlen; simpl in *;
  try (repeat split; reflexivity); try lia.
destruct (IH (chainInput r) results) as (H1 & H2 & H3); [lia|].
unfold runOutcome, runConfig in *. simpl. rewrite H1, H2, H3. auto.
Qed.

Lemma chainLog_first agents input results x :
  nth_error (runs (chainLog agents input results)) 0 = Some x ->
  runPrompt x = input.
Proof.
destruct agents as [|a agents], results as [|r results]; simpl; try discriminate.
intros H. injection H as <-. reflexivity.
Qed.

Lemma chainLog_next agents : forall input results i x y,
  nth_error (runs (chainLog agents input results)) i = Some x ->
  nth_error (runs (chainLog agents input results)) (S i) = Some y ->
  runPrompt y = chainInput (runOutcome x).
Proof.
induction agents as [|a agents IH]; intros input [|r results] i x y; simpl;
  try (destruct i; discriminate).
destruct i as [|i]; simpl.
- intros Hx Hy. injection Hx as <-. simpl.
  now apply chainLog_first in Hy.
- apply IH.
Qed.

Lemma pipelineLog_first stages input results x :
  nth_error (runs (pipelineLog stages input results)) 0 = Some x ->
  runPrompt x = input.
Proof.
destruct stages as [|a stages], results as [|r results]; simpl; try discriminate.
intros H. injection H as <-. reflexivity.
Qed.

Lemma pipelineLog_next stages : forall input results i st x y,
  nth_error stages i = Some st ->
  nth_error (runs (pipelineLog stages input results)) i = Some x ->
  nth_error (runs (pipelineLog stages input results)) (S i) = Some y ->
  runPrompt y = pipelineInput st (runOutcome x).
Proof.
induction stages as [|a stages IH]; intros input [|r results] i st x y; simpl;
  try (destruct i; discriminate).
destruct i as [|i]; simpl.
- intros Hst Hx Hy. injection Hst as <-. injection Hx as <-. simpl.
  now apply pipelineLog_first in Hy.
- apply IH.
Qed.

Lemma runs_pipelineLog stages : forall input results,
  length results <= length stages ->
  map runOutcome (runs (pipelineLog stages input results)) = results.
Proof.
induction stages as [|a stages IH]; intros input [|r results] Hlen; simpl in *;
  try reflexivity; try lia.
unfold runOutcome at 1. simpl.
f_equal. apply IH. lia.
Qed.

Lemma configs_pipelineLog stages : forall input results,
  length results <= length stages ->
  map runConfig (runs (pipelineLog stages input results))
  = map stageConfig (firstn (length results) stages).
Proof.
induction stages as [|a stages IH]; intros input [|r results] Hlen; simpl in *;
  try reflexivity; try lia.
unfold runConfig at 1. simpl.
f_equal. apply IH. lia.
Qed.

Section ChainTheorems.

Variable World : Type.
Variable query : QueryParams -> World -> QueryRun * World.

Lemma pipelineLoop_cons st stages input final table (s : Sys World) :
  pipelineLoop query (st :: stages) input final table s =
  let r := stageResult query (stageName st) (stageSystemPrompt st) input s in
  let s1 := {| world := snd (query (paramsOf (freshAgent (stageName st) (stageSystemPrompt st))
                                             input) (world s));
               log := log s ++ stageEntries (stageName st) (stageSystemPrompt st) input r |} in
  if negb (AgentResult.success r)
  then ({| finalResult := r; stageResults := JsMap.set (stageName st) r table |}, s1)
  else pipelineLoop query stages (pipelineInput st r) r
                    (JsMap.set (stageName st) r table) s1.
Proof.
simpl. unfold bind at 1. rewrite createAgent_unfold.
unfold bind at 1. rewrite run_unfold. simpl.
unfold stageResult, stageAnswer, stageEntries.
destruct (consume _ _) as [r a'] eqn:E. simpl.
rewrite <- app_assoc. simpl.
destruct (AgentResult.success r); reflexivity.
Qed.

Lemma pipelineLog_nil stages input : pipelineLog stages input [] = [].
Proof. now destruct stages. Qed.


(** In a list of results in which a failure can only be the last entry, an
    entry that has a successor is a well-formed success: it carries its
    text. *)
Lemma inner_entry_has_text (new : list AgentResult.t) i r r' :
  Forall (fun r => wellFormed r = true) new ->
  (forall k r, nth_error new k = Some r ->
               AgentResult.success r = false -> length new = S k) ->
  nth_error new i = Some r -> nth_error new (S i) = Some r' ->
  exists text, AgentResult.result r = Some text.
Proof.
intros Hwf Hfail Hi Hsi.
apply wellFormed_success_text.
- rewrite Forall_forall in Hwf. apply Hwf. eapply nth_error_In; eauto.
- destruct (AgentResult.success r) eqn:Hs; auto.
  apply (Hfail i r Hi) in Hs.
  assert (S i < length new) by (apply nth_error_Some; congruence). lia.
Qed.

(** C2. [runSequentialChain] over [N] agents: a result that is a failure is
    the last of the list returned, so when stage [k + 1] (counting from 1)
    is the first to fail the list has exactly [k + 1] entries; when no
    result is a failure the list has [N] entries.  The entries are, in
    order, what the runs of the stages returned, and the agents constructed
    and run are exactly those of the first [length results] stages: no
    agent of a later stage is constructed or run. *)
Theorem sequential_chain_stops_at_first_failure
        (agents : list AgentSpec) (initialInput : string) (s : Sys World)
        (results : list AgentResult.t) (s' : Sys World) :
  runSequentialChain query agents initialInput s = (results, s') ->
  (forall k r, nth_error results k = Some r ->
               AgentResult.success r = false -> length results = S k)
  /\ (forallb AgentResult.success results = true -> length results = length agents)
  /\ length results <= length agents
  /\ exists entries,
       log s' = log s ++ entries
       /\ map runOutcome (runs entries) = results
       /\ map runConfig (runs entries) = map specConfig (firstn (length results) agents)
       /\ constructions entries = map specConfig (firstn (length results) agents).
Proof.
unfold runSequentialChain. intros H.
apply chainLoop_spec in H as (new & Hrs & Hlog & Hlen & Hfail & Hall).
simpl in Hrs. subst results.
repeat split; auto.
exists (chainLog agents initialInput new). split; auto.
now apply runs_chainLog.
Qed.

(** A list of results with a failure has one at some position. *)
Lemma forallb_success_false (new : list AgentResult.t) :
  forallb AgentResult.success new = false ->
  exists k r, nth_error new k = Some r /\ AgentResult.success r = false.
Proof.
induction new as [|r new IH]; [discriminate|].
cbn [forallb]. destruct (AgentResult.success r) eqn:Hs.
- intros H. destruct (IH H) as (k & r' & Hk & Hr'). exists (S k), r'. auto.
- intros _. exists 0, r. auto.
Qed.

(** When a failure can only be the last result and a list of results that
    are all successes has one result per stage, a result that is a success
    and is not that of the last stage has a successor. *)
Lemma success_has_successor (new : list AgentResult.t) (n i : nat) r :
  (forall k r, nth_error new k = Some r ->
               AgentResult.success r = false -> length new = S k) ->
  (forallb AgentResult.success new = true -> length new = n) ->
  nth_error new i = Some r -> AgentResult.success r = true -> S i < n ->
  S i < length new.
Proof.
intros Hfail Hall Hi Hs Hn.
assert (Hlt : i < length new) by (apply nth_error_Some; congruence).
destruct (forallb AgentResult.success new) eqn:E.
- rewrite (Hall eq_refl). exact Hn.
- destruct (forallb_success_false new E) as (k & r' & Hk & Hr').
  pose proof (Hfail k r' Hk Hr') as Hlen.
  assert (i <> k) by (intros ->; congruence). lia.
Qed.

(** The loop of [runPipeline] runs every stage unless a stage fails. *)
Lemma pipelineLoop_runs stages : forall input final table (s : Sys World) out s',
  pipelineLoop query stages input final table s = (out, s') ->
  exists new,
    log s' = log s ++ pipelineLog stages input new
    /\ length new <= length stages
    /\ Forall (fun r => wellFormed r = true) new
    /\ (forall k r, nth_error new k = Some r ->
                    AgentResult.success r = false -> length new = S k)
    /\ (forallb AgentResult.success new = true -> length new = length stages).
Proof.
induction stages as [|st stages IH]; intros input final table s out s' H.
- injection H as <- <-. exists []. simpl. rewrite app_nil_r.
  repeat split; auto. intros [|k] r; discriminate.
- rewrite pipelineLoop_cons in H. cbv zeta in H.
  pose proof (wellFormed_stageResult query (stageName st) (stageSystemPrompt st) input s)
    as Hwf.
  set (r := stageResult query (stageName st) (stageSystemPrompt st) input s) in *.
  destruct (AgentResult.success r) eqn:Hs; simpl in H.
  + apply IH in H as (new & Hlog & Hlen & Hall & Hfail & Hcomplete).
    exists (r :: new). simpl in *. rewrite Hlog, <- !app_assoc. simpl.
    repeat split; auto.
    * lia.
    * intros [|k] r' Hk Hr'; simpl in Hk.
      -- congruence.
      -- f_equal. eauto.
    * rewrite Hs. simpl. intros Hn. f_equal. auto.
  + injection H as <- <-. exists [r]. simpl. rewrite pipelineLog_nil.
    repeat split; auto.
    * lia.
    * intros [|[|k]] r' Hk Hr'; simpl in Hk; try discriminate. reflexivity.
    * rewrite Hs. discriminate.
Qed.

(** C7. The prompt of the next stage.  In [runPipeline] the first stage is
    run, by the agent made for it, on the initial input; whenever stage [i]
    has succeeded and is not the last, stage [i + 1] is run, by the agent
    made for it, on the text of the result of stage [i], passed through the
    transform of stage [i] when it has one and as it is when it has none;
    after a stage that failed no stage is run.  In [runSequentialChain] the
    same holds with the text of the result of stage [i] between
    ["Previous agent output:\n"] and ["\n\nPlease continue with your task."]
    as the prompt of stage [i + 1]. *)
Theorem next_stage_prompt :
  (forall (stages : list PipelineStage) (initialInput : string) (s : Sys World)
          (out : PipelineOutcome) (s' : Sys World),
      runPipeline query stages initialInput s = (out, s') ->
      exists entries,
        log s' = log s ++ entries
        /\ map runConfig (runs entries)
           = map stageConfig (firstn (length (runs entries)) stages)
        /\ (stages <> [] ->
            exists x, nth_error (runs entries) 0 = Some x /\ runPrompt x = initialInput)
        /\ (forall i st x,
               nth_error stages i = Some st ->
               nth_error (runs entries) i = Some x ->
               AgentResult.success (runOutcome x) = true ->
               S i < length stages ->
               exists y text,
                 nth_error (runs entries) (S i) = Some y
                 /\ AgentResult.result (runOutcome x) = Some text
                 /\ runPrompt y = match transform st with
                                  | Some f => f text
                                  | None => text
                                  end)
        /\ (forall i x,
               nth_error (runs entries) i = Some x ->
               AgentResult.success (runOutcome x) = false ->
               nth_error (runs entries) (S i) = None)
        /\ (forall x, nth_error (runs entries) 0 = Some x -> runPrompt x = initialInput)
        /\ (forall i st x y,
               nth_error stages i = Some st ->
               nth_error (runs entries) i = Some x ->
               nth_error (runs entries) (S i) = Some y ->
               exists text,
                 AgentResult.result (runOutcome x) = Some text
                 /\ runPrompt y = match transform st with
                                  | Some f => f text
                                  | None => text
                                  end))
  /\
  (forall (agents : list AgentSpec) (initialInput : string) (s : Sys World)
          (results : list AgentResult.t) (s' : Sys World),
      runSequentialChain query agents initialInput s = (results, s') ->
      exists entries,
        log s' = log s ++ entries
        /\ map runOutcome (runs entries) = results
        /\ map runConfig (runs entries)
           = map specConfig (firstn (length (runs entries)) agents)
        /\ (agents <> [] ->
            exists x, nth_error (runs entries) 0 = Some x /\ runPrompt x = initialInput)
        /\ (forall i x,
               nth_error (runs entries) i = Some x ->
               AgentResult.success (runOutcome x) = true ->
               S i < length agents ->
               exists y text,
                 nth_error (runs entries) (S i) = Some y
                 /\ AgentResult.result (runOutcome x) = Some text
                 /\ runPrompt y =
                    ("Previous agent output:" ++ JsString.nl ++ text
                       ++ JsString.nl ++ JsString.nl
                       ++ "Please continue with your task.")%string)
        /\ (forall i x,
               nth_error (runs entries) i = Some x ->
               AgentResult.success (runOutcome x) = false ->
               nth_error (runs entries) (S i) = None)
        /\ (forall x, nth_error (runs entries) 0 = Some x -> runPrompt x = initialInput)
        /\ (forall i x y,
               nth_error (runs entries) i = Some x ->
               nth_error (runs entries) (S i) = Some y ->
               exists text,
                 AgentResult.result (runOutcome x) = Some text
                 /\ runPrompt y =
                    ("Previous agent output:" ++ JsString.nl ++ text
                       ++ JsString.nl ++ JsString.nl
                       ++ "Please continue with your task.")%string)).
Proof.
split.
- intros stages initialInput s out s' H. unfold runPipeline in H.
  apply pipelineLoop_runs in H as (new & Hlog & Hlen & Hwf & Hfail & Hall).
  pose proof (runs_pipelineLog stages initialInput new Hlen) as Hout.
  assert (Hruns : length (runs (pipelineLog stages initialInput new)) = length new)
    by (rewrite <- Hout at 2; now rewrite length_map).
  assert (Hnth : forall i x,
             nth_error (runs (pipelineLog stages initialInput new)) i = Some x ->
             nth_error new i = Some (runOutcome x))
    by (intros i x Hx; rewrite <- Hout; now apply map_nth_error).
  assert (Hnext : forall i st x y,
             nth_error stages i = Some st ->
             nth_error (runs (pipelineLog stages initialInput new)) i = Some x ->
             nth_error (runs (pipelineLog stages initialInput new)) (S i) = Some y ->
             exists text,
               AgentResult.result (runOutcome x) = Some text
               /\ runPrompt y = match transform st with
                                | Some f => f text
                                | None => text
                                end).
  { intros i st x y Hst Hx Hy.
    destruct (@inner_entry_has_text new i _ _ Hwf Hfail (Hnth _ _ Hx) (Hnth _ _ Hy))
      as [text Ht].
    exists text. split; auto.
    rewrite pipelineLog_next with (1 := Hst) (2 := Hx) (3 := Hy).
    unfold pipelineInput. now rewrite Ht. }
  exists (pipelineLog stages initialInput new).
  split; [exact Hlog|].
  split; [rewrite Hruns; now apply configs_pipelineLog|].
  split.
  { intros Hne.
    assert (H0 : 0 < length (runs (pipelineLog stages initialInput new))).
    { rewrite Hruns. destruct new as [|r new]; [|simpl; lia].
      specialize (Hall eq_refl). destruct stages; [contradiction | discriminate]. }
    apply nth_error_Some in H0.
    destruct (nth_error (runs (pipelineLog stages initialInput new)) 0) as [x|] eqn:Hx;
      [|contradiction].
    exists x. split; [reflexivity|]. now apply pipelineLog_first in Hx. }
  split.
  { intros i st x Hst Hx Hs Hlast.
    pose proof (@success_has_successor new (length stages) i _ Hfail Hall
                  (Hnth _ _ Hx) Hs Hlast) as Hsucc.
    rewrite <- Hruns in Hsucc. apply nth_error_Some in Hsucc.
    destruct (nth_error (runs (pipelineLog stages initialInput new)) (S i))
      as [y|] eqn:Hy; [|contradiction].
    destruct (Hnext i st x y Hst Hx Hy) as (text & Ht & Hp).
    exists y, text. auto. }
  split.
  { intros i x Hx Hs. apply nth_error_None. rewrite Hruns.
    rewrite (Hfail i _ (Hnth _ _ Hx) Hs). lia. }
  split; [intros x; apply pipelineLog_first | exact Hnext].
- intros agents initialInput s results s' H. unfold runSequentialChain in H.
  assert (Hwf : Forall (fun r => wellFormed r = true) results)
    by (eapply chainLoop_wellFormed; [exact H | constructor]).
  apply chainLoop_spec in H as (new & Hrs & Hlog & Hlen & Hfail & Hall).
  simpl in Hrs. subst results.
  destruct (runs_chainLog agents initialInput new Hlen) as (Hout & Hcfg & _).
  assert (Hruns : length (runs (chainLog agents initialInput new)) = length new)
    by (rewrite <- Hout at 2; now rewrite length_map).
  assert (Hnth : forall i x,
             nth_error (runs (chainLog agents initialInput new)) i = Some x ->
             nth_error new i = Some (runOutcome x))
    by (intros i x Hx; rewrite <- Hout; now apply map_nth_error).
  assert (Hnext : forall i x y,
             nth_error (runs (chainLog agents initialInput new)) i = Some x ->
             nth_error (runs (chainLog agents initialInput new)) (S i) = Some y ->
             exists text,
               AgentResult.result (runOutcome x) = Some text
               /\ runPrompt y =
                  ("Previous agent output:" ++ JsString.nl ++ text
                     ++ JsString.nl ++ JsString.nl
                     ++ "Please continue with your task.")%string).
  { intros i x y Hx Hy.
    destruct (@inner_entry_has_text new i _ _ Hwf Hfail (Hnth _ _ Hx) (Hnth _ _ Hy))
      as [text Ht].
    exists text. split; auto.
    rewrite chainLog_next with (1 := Hx) (2 := Hy).
    unfold chainInput. now rewrite Ht. }
  exists (chainLog agents initialInput new).
  split; [exact Hlog|]. split; [exact Hout|].
  split; [rewrite Hruns; exact Hcfg|].
  split.
  { intros Hne.
    assert (H0 : 0 < length (runs (chainLog agents initialInput new))).
    { rewrite Hruns. destruct new as [|r new]; [|simpl; lia].
      specialize (Hall eq_refl). destruct agents; [contradiction | discriminate]. }
    apply nth_error_Some in H0.
    destruct (nth_error (runs (chainLog agents initialInput new)) 0) as [x|] eqn:Hx;
      [|contradiction].
    exists x. split; [reflexivity|]. now apply chainLog_first in Hx. }
  split.
  { intros i x Hx Hs Hlast.
    pose proof (@success_has_successor new (length agents) i _ Hfail Hall
                  (Hnth _ _ Hx) Hs Hlast) as Hsucc.
    rewrite <- Hruns in Hsucc. apply nth_error_Some in Hsucc.
    destruct (nth_error (runs (chainLog agents initialInput new)) (S i))
      as [y|] eqn:Hy; [|contradiction].
    destruct (Hnext i x y Hx Hy) as (text & Ht & Hp).
    exists y, text. auto. }
  split.
  { intros i x Hx Hs. apply nth_error_None. rewrite Hruns.
    rewrite (Hfail i _ (Hnth _ _ Hx) Hs). lia. }
  split; [intros x; apply chainLog_first | exact Hnext].
Qed.

End ChainTheorems.

(* ===================================================================== *)
(** ** The parallel fan-out *)
(* ===================================================================== *)

Lemma map_fst_combine (A B : Type) (l : list A) : forall l' : list B,
  length l' = length l -> map fst (combine l l') = l.
Proof.
induction l as [|a l IH]; intros [|b l'] Hlen; simpl in *; try discriminate; auto.
f_equal. apply IH. lia.
Qed.

(** When the names are distinct the result mapping lists them in the order
    of the list. *)
Lemma setAll_distinct_names (names : list string) (rs : list AgentResult.t) :
  length rs = length names -> NoDup names ->
  JsMap.keys (JsMap.setAll (combine names rs) JsMap.empty) = names.
Proof.
intros Hlen Hnd. rewrite JsMapFacts.setAll_distinct.
- simpl. unfold JsMap.keys. now apply map_fst_combine.
- simpl. now rewrite map_fst_combine.
Qed.

Lemma lastWrite_combine_nth (agents : list AgentSpec) :
  forall (rs : list AgentResult.t) i a r,
    nth_error agents i = Some a -> nth_error rs i = Some r ->
    (forall j b, i < j -> nth_error agents j = Some b -> specName b <> specName a) ->
    JsMap.lastWrite (specName a) (combine (map specName agents) rs) = Some r.
Proof.
induction agents as [|a0 agents IH]; intros rs i a r Ha Hr Hlater.
- destruct i; discriminate.
- destruct rs as [|r0 rs]; [destruct i; discriminate|].
  destruct i as [|i]; simpl in *.
  + injection Ha as ->. injection Hr as ->.
    assert (Hnone : JsMap.lastWrite (specName a) (combine (map specName agents) rs) = None).
    { apply JsMapFacts.lastWrite_None. intros Hin.
      apply in_map_iff in Hin as ([n v] & Hn & Hin). simpl in Hn. subst n.
      apply in_combine_l in Hin. apply in_map_iff in Hin as (b & Hb & Hin).
      apply In_nth_error in Hin as [j Hj].
      apply (Hlater (S j) b); [lia | exact Hj | exact Hb]. }
    rewrite Hnone. now rewrite String.eqb_refl.
  + rewrite (IH rs i a r Ha Hr); auto.
    intros j b Hlt Hb. apply (Hlater (S j) b); [lia | exact Hb].
Qed.

Section ParallelFacts.

Variable World : Type.
Variable query : QueryParams -> World -> QueryRun * World.

Lemma parallelTask_unfold input a (s : Sys World) :
  parallelTask query input a s =
  ((specName a, stageResult query (specName a) (specSystemPrompt a) input s),
   {| world := snd (query (paramsOf (freshAgent (specName a) (specSystemPrompt a)) input)
                          (world s));
      log := log s ++ stageEntries (specName a) (specSystemPrompt a) input
                        (stageResult query (specName a) (specSystemPrompt a) input s) |}).
Proof.
unfold parallelTask. unfold bind at 1. rewrite createAgent_unfold.
unfold bind at 1. rewrite run_unfold. simpl.
unfold stageResult, stageAnswer, stageEntries.
destruct (consume _ _) as [r a'] eqn:E. simpl.
now rewrite <- app_assoc.
Qed.

Lemma mapM_parallelTask input agents : forall (s : Sys World) outcomes s',
  mapM (parallelTask query input) agents s = (outcomes, s') ->
  exists rs,
    length rs = length agents
    /\ outcomes = combine (map specName agents) rs
    /\ log s' = log s ++ parallelLog agents input rs
    /\ Forall (fun r => wellFormed r = true) rs.
Proof.
induction agents as [|a agents IH]; intros s outcomes s' H; simpl in H.
- injection H as <- <-. exists []. simpl. now rewrite app_nil_r.
- unfold bind at 1 in H. rewrite parallelTask_unfold in H.
  unfold bind at 1 in H.
  destruct (mapM (parallelTask query input) agents _) as [ys s1] eqn:E.
  injection H as <- <-.
  apply IH in E as (rs & Hlen & -> & Hlog & Hwf).
  exists (stageResult query (specName a) (specSystemPrompt a) input s :: rs).
  simpl in *. rewrite Hlog, <- !app_assoc. simpl.
  repeat split; auto.
  constructor; auto. apply wellFormed_stageResult.
Qed.

Lemma runParallelAgents_keys_NoDup agents input (s : Sys World) :
  NoDup (JsMap.keys (fst (runParallelAgents query agents input s))).
Proof.
unfold runParallelAgents, bind.
destruct (mapM (parallelTask query input) agents s) as [outcomes s1]. simpl.
apply JsMapFacts.NoDup_keys_setAll. constructor.
Qed.

(** The fan-out runs the agents in the order of the list and writes their
    results, in that order, under their names. *)
Lemma runParallelAgents_outcomes agents input (s : Sys World) results s' :
  runParallelAgents query agents input s = (results, s') ->
  exists rs,
    length rs = length agents
    /\ results = JsMap.setAll (combine (map specName agents) rs) JsMap.empty
    /\ log s' = log s ++ parallelLog agents input rs.
Proof.
unfold runParallelAgents. intros H. unfold bind in H.
destruct (mapM (parallelTask query input) agents s) as [outcomes s1] eqn:E.
injection H as <- <-.
apply mapM_parallelTask in E as (rs & Hlen & -> & Hlog & _).
exists rs. auto.
Qed.

(** An agent whose name no later agent of the list bears finds its own
    result under its name. *)
Lemma setAll_own_result (agents : list AgentSpec) (rs : list AgentResult.t) i a r :
  nth_error agents i = Some a -> nth_error rs i = Some r ->
  (forall j b, i < j -> nth_error agents j = Some b -> specName b <> specName a) ->
  JsMap.get (specName a) (JsMap.setAll (combine (map specName agents) rs) JsMap.empty)
  = Some r.
Proof.
intros Ha Hr Hlater. rewrite JsMapFacts.get_setAll.
now rewrite (@lastWrite_combine_nth agents rs i a r Ha Hr Hlater).
Qed.


End ParallelFacts.

(* ===================================================================== *)
(** ** Facts about strings *)
(* ===================================================================== *)

Module JsStringFacts.

Import JsString.

Lemma append_assoc (a b c : string) : ((a ++ b) ++ c = a ++ (b ++ c))%string.
Proof. induction a as [|x a IH]; simpl; auto. now rewrite IH. Qed.

Lemma append_nil_r (a : string) : (a ++ "" = a)%string.
Proof. induction a as [|x a IH]; simpl; auto. now rewrite IH. Qed.

Lemma isEmpty_true (a : string) : isEmpty a = true -> a = "".
Proof. destruct a; [auto | discriminate]. Qed.

(** Leading white space is removed from the first part, and from the second
    one too when nothing of the first remains. *)
Lemma trimStart_app (a b : string) :
  trimStart (a ++ b) =
  if isEmpty (trimStart a) then trimStart b else (trimStart a ++ b)%string.
Proof.
induction a as [|x a IH]; simpl; auto.
destruct (isWhite x); auto.
Qed.

Lemma trimEnd_app (a b : string) :
  trimEnd (a ++ b) =
  if isEmpty (trimEnd b) then trimEnd a else (a ++ trimEnd b)%string.
Proof.
induction a as [|x a IH]; simpl.
- destruct (trimEnd b); reflexivity.
- rewrite IH. destruct (isEmpty (trimEnd b)) eqn:E; auto.
  destruct (trimEnd b) as [|y t] eqn:Eb; [discriminate|].
  destruct a; simpl; now rewrite andb_false_r.
Qed.

(** What is left of the first part stands at the front of the result. *)
Lemma trimStart_app_solid (a b : string) :
  trimStart b = b -> trimStart (a ++ b) = (trimStart a ++ b)%string.
Proof.
intros Hb. rewrite trimStart_app, Hb.
destruct (trimStart a); reflexivity.
Qed.

Lemma trimEnd_app_solid (a b : string) :
  isEmpty (trimEnd b) = false -> trimEnd (a ++ b) = (a ++ trimEnd b)%string.
Proof. intros Hb. now rewrite trimEnd_app, Hb. Qed.

Lemma Contains_refl (x : string) : Contains x x.
Proof. exists "", "". simpl. now rewrite append_nil_r. Qed.

Lemma Contains_nil (s : string) : Contains "" s.
Proof. exists "", s. reflexivity. Qed.

Lemma Contains_app_l (x a b : string) : Contains x a -> Contains x (a ++ b).
Proof.
intros (pre & post & ->). exists pre, (post ++ b)%string.
now rewrite !append_assoc.
Qed.

Lemma Contains_app_r (x a b : string) : Contains x b -> Contains x (a ++ b).
Proof.
intros (pre & post & ->). exists (a ++ pre)%string, post.
now rewrite !append_assoc.
Qed.

Lemma Contains_trimStart_app (a b : string) :
  Contains (trimStart a) (trimStart (a ++ b)).
Proof.
rewrite trimStart_app. destruct (isEmpty (trimStart a)) eqn:E.
- apply isEmpty_true in E. rewrite E. apply Contains_nil.
- apply Contains_app_l, Contains_refl.
Qed.

Lemma Contains_trimEnd_app (a b : string) :
  Contains (trimEnd b) (trimEnd (a ++ b)).
Proof.
rewrite trimEnd_app. destruct (isEmpty (trimEnd b)) eqn:E.
- apply isEmpty_true in E. rewrite E. apply Contains_nil.
- apply Contains_app_r, Contains_refl.
Qed.

(** Every element of a list occurs in its [join]. *)
Lemma Contains_join (sep x : string) (l : list string) :
  In x l -> Contains x (join sep l).
Proof.
unfold join. induction l as [|y l IH]; simpl; [tauto|].
intros [->|Hin].
- destruct l; [apply Contains_refl | apply Contains_app_l, Contains_refl].
- destruct l as [|z l]; [destruct Hin|].
  apply Contains_app_r, Contains_app_r. now apply IH.
Qed.

End JsStringFacts.

(* ===================================================================== *)
(** ** The supervisor *)
(* ===================================================================== *)

Lemma trimEnd_app_solid_l (a b : string) :
  JsString.trimEnd a = a ->
  JsString.trimEnd (a ++ b) = (a ++ JsString.trimEnd b)%string.
Proof.
intros Ha. rewrite JsStringFacts.trimEnd_app.
destruct (JsString.isEmpty (JsString.trimEnd b)) eqn:E; auto.
apply JsStringFacts.isEmpty_true in E. rewrite E, Ha.
now rewrite JsStringFacts.append_nil_r.
Qed.

(** The supervisor prompt, once trimmed: the instructions without their
    leading white space, the fixed text around the catalogue, and the task
    without its trailing white space. *)
Lemma enhancedPrompt_parts (supervisorPrompt : string) (subAgents : list SubAgent)
      (task : string) :
  enhancedPrompt supervisorPrompt subAgents task =
  (JsString.trimStart (supervisorPrompt ++ JsString.nl ++ JsString.nl)
   ++ supervisorIntro ++ agentList subAgents ++ supervisorRules
   ++ JsString.trimEnd (" " ++ task))%string.
Proof.
unfold enhancedPrompt, JsString.trim.
set (A := (supervisorPrompt ++ JsString.nl ++ JsString.nl)%string).
set (C := (" " ++ task)%string).
set (L := agentList subAgents).
assert (Hsplit :
  (JsString.nl ++ supervisorPrompt ++ JsString.nl ++ JsString.nl
   ++ "You have access to the following specialized agents:" ++ JsString.nl
   ++ L ++ JsString.nl ++ JsString.nl
   ++ "When you need to delegate a task, describe which agent should handle it and what they should do."
   ++ JsString.nl
   ++ "The system will execute the delegation and return the results."
   ++ JsString.nl ++ JsString.nl
   ++ "Task: " ++ task ++ JsString.nl ++ "  ")%string
  = ((JsString.nl ++ A)
       ++ (supervisorIntro ++ L ++ supervisorRules ++ C ++ JsString.nl ++ "  "))%string).
{ subst A C. rewrite !JsStringFacts.append_assoc. reflexivity. }
rewrite Hsplit. clear Hsplit.
rewrite JsStringFacts.trimStart_app_solid by reflexivity.
change (JsString.trimStart (JsString.nl ++ A)) with (JsString.trimStart A).
assert (HZ : JsString.trimEnd (C ++ JsString.nl ++ "  ") = JsString.trimEnd C).
{ rewrite JsStringFacts.trimEnd_app. reflexivity. }
assert (HW : JsString.trimEnd (supervisorRules ++ C ++ JsString.nl ++ "  ")
             = (supervisorRules ++ JsString.trimEnd C)%string).
{ rewrite trimEnd_app_solid_l by reflexivity. now rewrite HZ. }
assert (HV : JsString.trimEnd (L ++ supervisorRules ++ C ++ JsString.nl ++ "  ")
             = (L ++ supervisorRules ++ JsString.trimEnd C)%string).
{ rewrite JsStringFacts.trimEnd_app_solid; rewrite HW; reflexivity. }
assert (HU : JsString.trimEnd
               (supervisorIntro ++ L ++ supervisorRules ++ C ++ JsString.nl ++ "  ")
             = (supervisorIntro ++ L ++ supervisorRules ++ JsString.trimEnd C)%string).
{ rewrite JsStringFacts.trimEnd_app_solid; rewrite HV; [reflexivity|].
  destruct L; reflexivity. }
rewrite JsStringFacts.trimEnd_app_solid; rewrite HU; reflexivity.
Qed.

Section SupervisorFacts.

Variable World : Type.
Variable query : QueryParams -> World -> QueryRun * World.

(** C6. [runWithSupervisor] constructs one agent, named ["supervisor"], whose
    system prompt is the composite prompt, runs it once on the task and
    returns what that run returns; the log gains these two entries and no
    other, so no agent is constructed or run for a delegate.  The composite
    prompt is the trimmed template: it holds the instructions of the
    supervisor (without their leading white space), the line
    ["- name: description"] of every delegate, and the task (without its
    trailing white space) after ["Task:"]. *)
Theorem supervisor_runs_exactly_one_agent
        (supervisorPrompt : string) (subAgents : list SubAgent) (task : string)
        (s : Sys World) (result : AgentResult.t) (s' : Sys World) :
  runWithSupervisor query supervisorPrompt subAgents task s = (result, s') ->
  exists entries supervisor,
    log s' = log s ++ entries
    /\ supervisor = freshAgent "supervisor" (enhancedPrompt supervisorPrompt subAgents task)
    /\ constructions entries = [BaseAgent.config supervisor]
    /\ runs entries = [(BaseAgent.config supervisor, paramsOf supervisor task, result)]
    /\ length entries = 2
    /\ AgentConfig.name (BaseAgent.config supervisor) = "supervisor"
    /\ QueryOptions.systemPrompt (options (paramsOf supervisor task)) =
       enhancedPrompt supervisorPrompt subAgents task
    /\ result = fst (consume supervisor (fst (query (paramsOf supervisor task) (world s))))
    /\ enhancedPrompt supervisorPrompt subAgents task =
       (JsString.trimStart (supervisorPrompt ++ JsString.nl ++ JsString.nl)
        ++ supervisorIntro ++ agentList subAgents ++ supervisorRules
        ++ JsString.trimEnd (" " ++ task))%string
    /\ JsString.Contains (JsString.trimStart supervisorPrompt)
                         (enhancedPrompt supervisorPrompt subAgents task)
    /\ (forall a, In a subAgents ->
                  JsString.Contains (catalogueLine a)
                                    (enhancedPrompt supervisorPrompt subAgents task))
    /\ JsString.Contains (JsString.trimEnd task)
                         (enhancedPrompt supervisorPrompt subAgents task).
Proof.
unfold runWithSupervisor. intros H.
unfold bind at 1 in H. rewrite createAgent_unfold in H.
unfold bind at 1 in H. rewrite run_unfold in H.
set (supervisor := freshAgent "supervisor"
                     (enhancedPrompt supervisorPrompt subAgents task)) in *.
simpl in H.
destruct (consume supervisor _) as [r a'] eqn:E. simpl in H.
injection H as <- <-. simpl.
exists (stageEntries "supervisor" (enhancedPrompt supervisorPrompt subAgents task) task r),
       supervisor.
rewrite <- app_assoc.
repeat split; try reflexivity.
- now rewrite E.
- apply enhancedPrompt_parts.
- rewrite enhancedPrompt_parts.
  apply JsStringFacts.Contains_app_l, JsStringFacts.Contains_trimStart_app.
- intros a Ha. rewrite enhancedPrompt_parts.
  apply JsStringFacts.Contains_app_r, JsStringFacts.Contains_app_r,
        JsStringFacts.Contains_app_l.
  unfold agentList. apply JsStringFacts.Contains_join.
  apply in_map_iff. exists a. auto.
- rewrite enhancedPrompt_parts.
  do 4 apply JsStringFacts.Contains_app_r.
  apply JsStringFacts.Contains_trimEnd_app.
Qed.

End SupervisorFacts.

(* ===================================================================== *)
(** ** The consensus: reading the votes *)
(* ===================================================================== *)

Lemma leadingDigits_split (text : string) :
  exists rest,
    text = (JsString.leadingDigits text ++ rest)%string
    /\ allDigits (JsString.leadingDigits text) = true
    /\ startsWithDigit rest = false.
Proof.
induction text as [|c text (rest & Ht & Hd & Hr)]; simpl.
- exists "". auto.
- destruct (JsString.isDigit c) eqn:E.
  + exists rest. simpl. rewrite E, Hd, <- Ht. auto.
  + exists (String c text). simpl. rewrite E. auto.
Qed.

Lemma leadingDigits_app (digits rest : string) :
  allDigits digits = true -> startsWithDigit rest = false ->
  JsString.leadingDigits (digits ++ rest) = digits.
Proof.
intros Hd Hr. induction digits as [|c digits IH]; simpl in *.
- destruct rest; simpl in *; auto. now rewrite Hr.
- apply andb_prop in Hd as [Hc Hd]. rewrite Hc. f_equal. auto.
Qed.

(** The first capture group of [/^(\d+)/] is the run of digits that
    [LeadingNumber] describes. *)
Lemma matchLeadingDigits_spec (text digits : string) :
  JsString.matchLeadingDigits text = Some digits <->
  exists rest,
    text = (digits ++ rest)%string /\ digits <> ""
    /\ allDigits digits = true /\ startsWithDigit rest = false.
Proof.
unfold JsString.matchLeadingDigits. split.
- destruct (leadingDigits_split text) as (rest & Ht & Hd & Hr).
  destruct (JsString.leadingDigits text) as [|c ds] eqn:E; simpl; [discriminate|].
  intros H. injection H as <-. exists rest. repeat split; auto. discriminate.
- intros (rest & -> & Hne & Hd & Hr). rewrite leadingDigits_app by assumption.
  destruct digits; [contradiction | reflexivity].
Qed.

Lemma parseVote_ballot options votes r agentName :
  parseVote options votes r agentName =
  match ballot options r with
  | Some choice => JsMap.set agentName choice votes
  | None => votes
  end.
Proof.
unfold parseVote, ballot.
destruct (AgentResult.success r); simpl; auto.
destruct (JsString.matchLeadingDigits (orEmpty (AgentResult.result r))) as [digits|] eqn:E.
- assert (Ht : JsString.truthy (orEmpty (AgentResult.result r)) = true).
  { apply matchLeadingDigits_spec in E as (rest & Ht & Hne & _).
    destruct (orEmpty (AgentResult.result r)); [|reflexivity].
    destruct digits; [contradiction | discriminate]. }
  rewrite Ht. unfold JsString.parseInt.
  set (n := JsString.decimalValue 0 digits).
  destruct (N.leb_spec 1 n) as [H1|H1]; simpl.
  + assert (Hz : (Z.of_N n - 1 = Z.of_N (n - 1))%Z) by lia.
    assert (Hnat : Z.to_nat (Z.of_N (n - 1)) = N.to_nat (n - 1)) by lia.
    rewrite Hz, Hnat.
    assert (H0 : (0 <=? Z.of_N (n - 1))%Z = true) by (apply Z.leb_le; lia).
    rewrite H0. simpl.
    destruct (N.leb_spec n (N.of_nat (length options))) as [H2|H2].
    * assert (H3 : (Z.of_N (n - 1) <? Z.of_nat (length options))%Z = true)
        by (apply Z.ltb_lt; lia).
      rewrite H3. now destruct (nth_error options _).
    * assert (H3 : (Z.of_N (n - 1) <? Z.of_nat (length options))%Z = false)
        by (apply Z.ltb_ge; lia).
      now rewrite H3.
  + assert (H0 : (0 <=? Z.of_N n - 1)%Z = false) by (apply Z.leb_gt; lia).
    now rewrite H0.
- now destruct (JsString.truthy _).
Qed.

Lemma ballot_spec options r choice :
  ballot options r = Some choice <-> ValidVote options r choice.
Proof.
unfold ballot, ValidVote. split.
- destruct (AgentResult.success r); [|discriminate].
  destruct (JsString.matchLeadingDigits _) as [digits|] eqn:E; [|discriminate].
  apply matchLeadingDigits_spec in E as (rest & Ht & Hne & Hd & Hr).
  destruct (N.leb_spec 1 (JsString.decimalValue 0 digits)) as [H1|H1];
    simpl; [|discriminate].
  destruct (N.leb_spec (JsString.decimalValue 0 digits) (N.of_nat (length options)));
    [|discriminate].
  intros Hn. split; auto.
  destruct (AgentResult.result r) as [text|] eqn:Eres; simpl in Ht.
  + exists text, (JsString.decimalValue 0 digits). repeat split; auto.
    exists digits, rest. auto.
  + destruct digits; [contradiction | discriminate].
- intros (-> & text & n & Hres & (digits & rest & Ht & Hne & Hd & Hr & Hn) & H1 & Hnth).
  rewrite Hres. simpl.
  assert (E : JsString.matchLeadingDigits text = Some digits).
  { apply matchLeadingDigits_spec. exists rest. auto. }
  rewrite E, <- Hn.
  assert (Hlt : N.to_nat (n - 1) < length options)
    by (apply nth_error_Some; congruence).
  destruct (N.leb_spec 1 n); [|lia]. simpl.
  destruct (N.leb_spec n (N.of_nat (length options))); [auto | lia].
Qed.

Lemma parseVotes_from options (results : JsMap.t AgentResult.t) :
  forall (acc : JsMap.t string) name,
    NoDup (JsMap.keys results) ->
    JsMap.get name (JsMap.forEach (parseVote options) results acc) =
    match JsMap.get name results with
    | Some r => match ballot options r with
                | Some choice => Some choice
                | None => JsMap.get name acc
                end
    | None => JsMap.get name acc
    end.
Proof.
unfold JsMap.forEach.
induction results as [|[k r] results IH]; intros acc name Hnd; simpl; auto.
inversion Hnd as [|k' l Hk Hnd']; subst.
rewrite IH by assumption. rewrite parseVote_ballot.
destruct (String.eqb_spec name k) as [->|Hne].
- apply JsMapFacts.get_None_keys in Hk. rewrite Hk.
  destruct (ballot options r); auto. apply JsMapFacts.get_set_same.
- assert (Hacc : JsMap.get name
                   match ballot options r with
                   | Some choice => JsMap.set k choice acc
                   | None => acc
                   end = JsMap.get name acc).
  { destruct (ballot options r); auto. apply JsMapFacts.get_set_other. congruence. }
  rewrite Hacc. reflexivity.
Qed.

(** The vote mapping holds, for every agent of the result mapping, the vote
    read in its result, and nothing else. *)
Lemma parseVotes_get options (results : JsMap.t AgentResult.t) name :
  NoDup (JsMap.keys results) ->
  JsMap.get name (parseVotes options results) =
  match JsMap.get name results with
  | Some r => ballot options r
  | None => None
  end.
Proof.
intros Hnd. unfold parseVotes. rewrite parseVotes_from by assumption. simpl.
destruct (JsMap.get name results) as [r|]; auto. now destruct (ballot options r).
Qed.

(** The vote mapping lists the agents with a vote in the order of the
    result mapping. *)
Lemma parseVotes_entries options (results : JsMap.t AgentResult.t) :
  forall acc : JsMap.t string,
    NoDup (JsMap.keys results) ->
    (forall k, In k (JsMap.keys results) -> ~ In k (JsMap.keys acc)) ->
    JsMap.forEach (parseVote options) results acc =
    acc ++ flat_map (ballotEntry options) results.
Proof.
unfold JsMap.forEach.
induction results as [|[k r] results IH]; intros acc Hnd Hfresh; simpl.
- now rewrite app_nil_r.
- inversion Hnd as [|k' l Hk Hnd']; subst.
  rewrite parseVote_ballot. unfold ballotEntry at 1. simpl.
  destruct (ballot options r) as [choice|].
  + rewrite JsMapFacts.set_absent by (apply Hfresh; simpl; auto).
    rewrite IH; auto.
    * now rewrite <- app_assoc.
    * intros k0 Hk0. unfold JsMap.keys. rewrite map_app, in_app_iff. simpl.
      intros [Hin | [<- | []]].
      -- apply (Hfresh k0); simpl; auto.
      -- contradiction.
  + rewrite IH; auto. intros k0 Hk0. apply Hfresh. simpl. auto.
Qed.

(* ===================================================================== *)
(** ** The consensus: counting the votes and finding the winner *)
(* ===================================================================== *)

Lemma countVotes_tallies (votes : JsMap.t string) :
  countVotes votes = tallies (JsMap.values votes).
Proof.
unfold countVotes, tallies, JsMap.forEach, JsMap.values.
generalize (@JsMap.empty nat). induction votes as [|[k v] votes IH]; intros acc; simpl; auto.
Qed.

Lemma tallies_snoc vs v : tallies (vs ++ [v]) = countStep (tallies vs) v.
Proof. unfold tallies. now rewrite fold_left_app. Qed.

Lemma tally_snoc o vs v :
  tally o (vs ++ [v]) = tally o vs + (if string_dec v o then 1 else 0).
Proof.
unfold tally. rewrite count_occ_app. simpl. now destruct (string_dec v o).
Qed.

(** Under an option the tallies hold the number of its votes, and nothing
    under an option without a vote. *)
Lemma tallies_get vs : forall o,
  JsMap.get o (tallies vs) = if Nat.eqb (tally o vs) 0 then None else Some (tally o vs).
Proof.
induction vs as [|v vs IH] using rev_ind; intros o; [reflexivity|].
rewrite tallies_snoc, tally_snoc. unfold countStep.
destruct (string_dec v o) as [->|Hne].
- rewrite JsMapFacts.get_set_same, IH.
  destruct (Nat.eqb_spec (tally o vs) 0) as [E|E]; simpl.
  + rewrite E. reflexivity.
  + destruct (Nat.eqb_spec (tally o vs + 1) 0); [lia | reflexivity].
- rewrite JsMapFacts.get_set_other by assumption. rewrite IH, Nat.add_0_r. reflexivity.
Qed.

Lemma tallies_NoDup vs : NoDup (JsMap.keys (tallies vs)).
Proof.
induction vs as [|v vs IH] using rev_ind; [constructor|].
rewrite tallies_snoc. now apply JsMapFacts.NoDup_keys_set.
Qed.

Lemma tallies_keys_In vs o : In o (JsMap.keys (tallies vs)) <-> In o vs.
Proof.
rewrite <- JsMapFacts.get_In_keys, tallies_get.
rewrite (count_occ_In string_dec). fold (tally o vs).
destruct (Nat.eqb_spec (tally o vs) 0); split; intros; try congruence; lia.
Qed.

Lemma tallies_entry vs o c : In (o, c) (tallies vs) -> c = tally o vs /\ 0 < c.
Proof.
intros Hin.
assert (Hget : JsMap.get o (tallies vs) = Some c).
{ pose proof (tallies_NoDup vs) as Hnd. revert Hin Hnd.
  generalize (tallies vs) as m. induction m as [|[k v] m IH]; simpl; [tauto|].
  intros [Heq|Hin] Hnd; inversion Hnd as [|k' l Hk Hnd']; subst.
  - injection Heq as -> ->. now rewrite String.eqb_refl.
  - destruct (String.eqb_spec o k) as [->|Hne]; auto.
    exfalso. apply Hk. unfold JsMap.keys. apply in_map_iff. exists (k, c). auto. }
rewrite tallies_get in Hget.
destruct (Nat.eqb_spec (tally o vs) 0); [discriminate|].
injection Hget as <-. split; auto. lia.
Qed.

(** The keys of the tallies stand in the order in which the options got
    their first vote. *)
Lemma tallies_key_order vs : forall kpre w kpost,
  JsMap.keys (tallies vs) = kpre ++ w :: kpost ->
  exists pre post,
    vs = pre ++ w :: post /\ ~ In w pre /\ (forall o, In o pre -> In o kpre).
Proof.
induction vs as [|v vs IH] using rev_ind; intros kpre w kpost Hk.
- destruct kpre; discriminate.
- rewrite tallies_snoc in Hk. unfold countStep in Hk.
  destruct (in_dec string_dec v (JsMap.keys (tallies vs))) as [Hin|Hout].
  + rewrite JsMapFacts.keys_set_present in Hk by assumption.
    destruct (IH _ _ _ Hk) as (pre & post & -> & Hw & Hpre).
    exists pre, (post ++ [v]). rewrite <- app_assoc. auto.
  + rewrite JsMapFacts.keys_set_absent in Hk by assumption.
    destruct kpost as [|x kpost _] using rev_ind.
    * apply app_inj_tail in Hk as [Hk ->].
      exists vs, []. repeat split.
      -- now rewrite <- tallies_keys_In.
      -- intros o Ho. rewrite <- Hk. now apply tallies_keys_In.
    * change (kpre ++ w :: kpost ++ [x]) with (kpre ++ (w :: kpost) ++ [x]) in Hk.
      rewrite app_assoc in Hk. apply app_inj_tail in Hk as [Hk _].
      destruct (IH _ _ _ Hk) as (pre & post & -> & Hw & Hpre).
      exists pre, (post ++ [v]). rewrite <- app_assoc. auto.
Qed.

(** The loop over the tallies keeps the first entry with the greatest
    count, or its initial state when no count exceeds the initial
    maximum. *)
Lemma pickWinner_fold (l : JsMap.t nat) : forall w0 m0,
  (Forall (fun kv => snd kv <= m0) l
   /\ JsMap.forEach pickWinner l (w0, m0) = (w0, m0))
  \/ exists pre w c post,
       l = pre ++ (w, c) :: post
       /\ m0 < c
       /\ Forall (fun kv => snd kv < c) pre
       /\ Forall (fun kv => snd kv <= c) post
       /\ JsMap.forEach pickWinner l (w0, m0) = (Some w, c).
Proof.
unfold JsMap.forEach.
induction l as [|[k c] l IH]; intros w0 m0; simpl.
- left. auto.
- destruct (Nat.ltb_spec m0 c) as [Hlt|Hge].
  + right.
    destruct (IH (Some k) c)
      as [[Hall Heq] | (pre & w & c' & post & -> & Hc & Hpre & Hpost & Heq)].
    * exists [], k, c, l. simpl. auto.
    * exists ((k, c) :: pre), w, c', post. simpl.
      split; [reflexivity|]. split; [lia|]. split; [|split; assumption].
      constructor; auto.
  + destruct (IH w0 m0)
      as [[Hall Heq] | (pre & w & c' & post & -> & Hc & Hpre & Hpost & Heq)].
    * left. split; auto.
    * right. exists ((k, c) :: pre), w, c', post. simpl.
      split; [reflexivity|]. split; [lia|]. split; [|split; assumption].
      constructor; auto. simpl. lia.
Qed.

(** The winner for a list of votes: the first option of the list when there
    is no vote; otherwise the option that got its first vote earliest among
    those with the greatest tally. *)
Lemma findWinner_tallies (options vs : list string) :
  (vs = [] -> findWinner options (tallies vs) = nth_error options 0)
  /\ (vs <> [] ->
      exists w pre post,
        findWinner options (tallies vs) = Some w
        /\ vs = pre ++ w :: post
        /\ ~ In w pre
        /\ (forall o, tally o vs <= tally w vs)
        /\ (forall o, In o pre -> tally o vs < tally w vs)).
Proof.
split.
- intros ->. reflexivity.
- intros Hne. unfold findWinner.
  destruct (pickWinner_fold (tallies vs) (nth_error options 0) 0)
    as [[Hall _] | (pre & w & c & post & Hl & Hc & Hpre & Hpost & Heq)].
  + exfalso. destruct vs as [|v vs]; [congruence|].
    assert (Hin : In v (JsMap.keys (tallies (v :: vs))))
      by (apply tallies_keys_In; simpl; auto).
    apply in_map_iff in Hin as ([k c] & Hk & Hin). simpl in Hk. subst k.
    pose proof (tallies_entry _ _ _ Hin) as [_ Hpos].
    rewrite Forall_forall in Hall. apply Hall in Hin. simpl in Hin. lia.
  + rewrite Heq. simpl.
    assert (Hentry : forall o c', In (o, c') (tallies vs) -> c' = tally o vs)
      by (intros o c' Hin; now apply tallies_entry in Hin).
    assert (Hw : c = tally w vs).
    { apply Hentry. rewrite Hl. apply in_elt. }
    assert (Hkeys : JsMap.keys (tallies vs) = map fst pre ++ w :: map fst post).
    { rewrite Hl. unfold JsMap.keys. now rewrite map_app. }
    destruct (tallies_key_order vs _ _ _ Hkeys) as (vpre & vpost & Hvs & Hnotin & Hbefore).
    exists w, vpre, vpost. repeat split; auto.
    * intros o. destruct (Nat.eq_dec (tally o vs) 0) as [E|E]; [lia|].
      assert (Hin : In o (JsMap.keys (tallies vs))).
      { apply tallies_keys_In. apply (count_occ_In string_dec). fold (tally o vs). lia. }
      apply in_map_iff in Hin as ([k c'] & Hk & Hin). simpl in Hk. subst k.
      rewrite (Hentry _ _ Hin) in Hin. rewrite Hl in Hin.
      apply in_app_or in Hin as [Hin | [Hin | Hin]].
      -- rewrite Forall_forall in Hpre. apply Hpre in Hin. simpl in Hin. lia.
      -- injection Hin as _ Hc'. lia.
      -- rewrite Forall_forall in Hpost. apply Hpost in Hin. simpl in Hin. lia.
    * intros o Ho. apply Hbefore in Ho.
      apply in_map_iff in Ho as ([k c'] & Hk & Hin). simpl in Hk. subst k.
      assert (Hc' : c' = tally o vs).
      { apply Hentry. rewrite Hl. apply in_or_app. now left. }
      rewrite Forall_forall in Hpre. apply Hpre in Hin. simpl in Hin. lia.
Qed.

Section ConsensusFacts.

Variable World : Type.
Variable query : QueryParams -> World -> QueryRun * World.

Lemma runConsensusAgents_unfold agents question options (s : Sys World) :
  runConsensusAgents query agents question options s =
  let rs := runParallelAgents query agents (votingPrompt question options) s in
  ({| winner := findWinner options (countVotes (parseVotes options (fst rs)));
      votes := parseVotes options (fst rs) |}, snd rs).
Proof.
unfold runConsensusAgents. unfold bind at 1.
destruct (runParallelAgents query agents (votingPrompt question options) s) as [results s1].
reflexivity.
Qed.

(** C1, as the code has it.  The winner of [runConsensusAgents] is the first
    option of the list (or [undefined] when the list is empty) when the
    vote mapping is empty.  Otherwise it is an option with the greatest
    tally, hence the option with strictly the greatest tally when there is
    one; among several options with the greatest tally it is the one that
    got its first vote earliest in the order of the vote mapping: every
    option voted for before the first vote for the winner has a strictly
    smaller tally.  The vote mapping lists the agents with a valid vote in
    the order of the result mapping of the fan-out, which is the order of
    the list of agents when their names are distinct. *)
Theorem consensus_winner_has_greatest_tally
        (agents : list AgentSpec) (question : string) (options : list string)
        (s : Sys World) (out : Consensus) (s' : Sys World) :
  runConsensusAgents query agents question options s = (out, s') ->
  (JsMap.values (votes out) = [] -> winner out = nth_error options 0)
  /\ (forall o,
         0 < tally o (JsMap.values (votes out)) ->
         (forall o', o' <> o ->
                     tally o' (JsMap.values (votes out)) < tally o (JsMap.values (votes out))) ->
         winner out = Some o)
  /\ (JsMap.values (votes out) <> [] ->
      exists w pre post,
        winner out = Some w
        /\ JsMap.values (votes out) = pre ++ w :: post
        /\ ~ In w pre
        /\ (forall o, tally o (JsMap.values (votes out)) <= tally w (JsMap.values (votes out)))
        /\ (forall o, In o pre ->
                      tally o (JsMap.values (votes out)) < tally w (JsMap.values (votes out))))
  /\ (exists results,
        runParallelAgents query agents (votingPrompt question options) s = (results, s')
        /\ votes out = flat_map (ballotEntry options) results
        /\ (NoDup (map specName agents) -> JsMap.keys results = map specName agents)).
Proof.
rewrite runConsensusAgents_unfold. cbv zeta.
pose proof (runParallelAgents_keys_NoDup query agents
              (votingPrompt question options) s) as Hnd.
destruct (runParallelAgents query agents (votingPrompt question options) s)
  as [results s1] eqn:Epar.
intros H. injection H as <- <-. simpl in *.
split; [|split; [|split]]; cycle 3.
{ exists results. split; [reflexivity|]. split.
  - unfold parseVotes. now rewrite parseVotes_entries.
  - intros Hnames.
    destruct (@runParallelAgents_outcomes _ _ _ _ _ _ _ Epar) as (rs & Hlen & -> & _).
    apply setAll_distinct_names; [now rewrite length_map | assumption]. }
all: set (vs := JsMap.values (parseVotes options results));
  rewrite countVotes_tallies; fold vs;
  destruct (findWinner_tallies options vs) as [Hnil Hcons].
1: exact Hnil.
2: exact Hcons.
intros o Hpos Hstrict.
assert (Hne : vs <> []) by (intros E; rewrite E in Hpos; simpl in Hpos; lia).
destruct (Hcons Hne) as (w & pre & post & Hw & _ & _ & Hmax & _).
rewrite Hw. f_equal.
destruct (string_dec w o) as [E|E]; auto.
specialize (Hstrict w E). specialize (Hmax o). lia.
Qed.

End ConsensusFacts.

(* ===================================================================== *)
(** ** The registry *)
(* ===================================================================== *)

Section RegistryFacts.

Variable World : Type.
Variable query : QueryParams -> World -> QueryRun * World.
Variable Data : Type.
Variable dataTruthy : Data -> bool.
Variable stringify : Data -> Thrown + string.

Lemma noCurrentAgent_false (cursor : option string) :
  noCurrentAgent cursor = false <-> exists from, cursor = Some from /\ from <> "".
Proof.
destruct cursor as [[|c from]|]; simpl; split; try discriminate.
- intros (from & H & Hne). injection H as <-. contradiction.
- intros _. eexists. split; [reflexivity | discriminate].
- auto.
- intros (from & H & _). discriminate.
Qed.

(** A handoff whose guards pass: the record is appended; then either the
    payload cannot be printed and the call rejects with the cursor where it
    was, or the cursor moves to the target and the target runs once on the
    handoff message.  The record and the cursor do not depend on what the
    run returns. *)
Lemma handoff_committed (this : AgentOrchestrator Data) (toAgent context : string)
      (data : option Data) (s : Sys World) (from : string) (nextAgent : BaseAgent.t) :
  currentAgent this = Some from -> from <> "" ->
  JsMap.get toAgent (agents this) = Some nextAgent ->
  handoff query dataTruthy stringify this toAgent context data s =
  match dataLine dataTruthy stringify data with
  | inl e =>
      ((Rejected e,
        {| agents := agents this;
           handoffHistory := handoffHistory this
             ++ [{| fromAgent := from; toAgent := toAgent;
                    context := context; data := data |}];
           currentAgent := Some from |}), s)
  | inr line =>
      let message := handoffMessage from context line in
      let answer := consume nextAgent (fst (query (paramsOf nextAgent message) (world s))) in
      ((Returned (fst answer),
        {| agents := JsMap.set toAgent (snd answer) (agents this);
           handoffHistory := handoffHistory this
             ++ [{| fromAgent := from; toAgent := toAgent;
                    context := context; data := data |}];
           currentAgent := Some toAgent |}),
       {| world := snd (query (paramsOf nextAgent message) (world s));
          log := log s ++ [Ran (BaseAgent.config nextAgent)
                               (paramsOf nextAgent message) (fst answer)] |})
  end.
Proof.
intros Hcur Hne Hget. unfold handoff.
assert (Hguard : noCurrentAgent (currentAgent this) = false)
  by (apply noCurrentAgent_false; eauto).
rewrite Hguard, Hget, Hcur. simpl.
destruct (dataLine dataTruthy stringify data) as [e|line]; [reflexivity|].
unfold bind. rewrite run_unfold.
destruct (consume nextAgent _) as [r a'] eqn:E. reflexivity.
Qed.

(** X22. Lookup failures, as the code has them.  A lookup that fails
    changes nothing and runs nothing: the orchestrator, the world and the log
    come back as they were.  [execute] on a name that is not registered returns the failure
    ["Agent not found: "] followed by the name.  [handoff] without a current
    agent returns the failure ["No current agent to hand off from"],
    whatever the target.  [handoff] from a current agent with a non-empty
    name to a name that is not registered returns the failure
    ["Target agent not found: "] followed by the name.  Whenever the guard
    on the cursor or the lookup of the target fails, the result is a
    failure and nothing has changed. *)
Theorem registry_lookup_failures_change_nothing :
  (forall (this : AgentOrchestrator Data) (startAgent task : string) (s : Sys World),
      JsMap.get startAgent (agents this) = None ->
      execute query this startAgent task s =
      ((AgentResult.failure ("Agent not found: " ++ startAgent)%string, this), s))
  /\ (forall (this : AgentOrchestrator Data) (toAgent context : string)
             (data : option Data) (s : Sys World),
         currentAgent this = None ->
         handoff query dataTruthy stringify this toAgent context data s =
         ((Returned (AgentResult.failure "No current agent to hand off from"), this), s))
  /\ (forall (this : AgentOrchestrator Data) (toAgent context : string)
             (data : option Data) (s : Sys World) (from : string),
         currentAgent this = Some from -> from <> "" ->
         JsMap.get toAgent (agents this) = None ->
         handoff query dataTruthy stringify this toAgent context data s =
         ((Returned (AgentResult.failure ("Target agent not found: " ++ toAgent)%string),
           this), s))
  /\ (forall (this : AgentOrchestrator Data) (toAgent context : string)
             (data : option Data) (s : Sys World),
         noCurrentAgent (currentAgent this) = true
         \/ JsMap.get toAgent (agents this) = None ->
         exists r,
           handoff query dataTruthy stringify this toAgent context data s =
           ((Returned r, this), s)
           /\ AgentResult.success r = false).
Proof.
repeat split.
- intros this startAgent task s Hget. unfold execute. now rewrite Hget.
- intros this toAgent context data s Hcur. unfold handoff. now rewrite Hcur.
- intros this toAgent context data s from Hcur Hne Hget. unfold handoff.
  assert (Hguard : noCurrentAgent (currentAgent this) = false)
    by (apply noCurrentAgent_false; eauto).
  now rewrite Hguard, Hget.
- intros this toAgent context data s H. unfold handoff.
  destruct (noCurrentAgent (currentAgent this)) eqn:Hguard.
  + eexists. split; reflexivity.
  + destruct H as [H|H]; [discriminate|]. rewrite H.
    eexists. split; reflexivity.
Qed.

End RegistryFacts.

(* ===================================================================== *)
(** ** The consensus: the votes of the agents *)
(* ===================================================================== *)

(** C8. [runConsensusAgents] reads the vote of an agent in the result the
    fan-out holds under its name: the vote mapping has an entry for the
    agent exactly when that result is a success whose text begins with a run
    of digits that reads, in decimal, the position (from 1) of an option,
    and the entry is that option.  Any other result leaves no entry and no
    count, and nothing fails.  The tallies count the entries of the vote
    mapping per option, and the winner is found from them.  With the options
    A, B, C and the answers 1, 2, 2, 3 and one without a leading digit, the
    vote mapping has four entries, the tallies are A:1, B:2, C:1 and the
    winner is B. *)
Theorem consensus_reads_leading_number :
  (forall (World : Type) (query : QueryParams -> World -> QueryRun * World)
          (agents : list AgentSpec) (question : string) (options : list string)
          (s : Sys World) (out : Consensus) (s' : Sys World),
      runConsensusAgents query agents question options s = (out, s') ->
      exists results,
        runParallelAgents query agents (votingPrompt question options) s = (results, s')
        /\ (forall agentName choice,
               JsMap.get agentName (votes out) = Some choice <->
               exists r, JsMap.get agentName results = Some r
                         /\ ValidVote options r choice)
        /\ (exists rs,
               length rs = length agents
               /\ log s' = log s ++ parallelLog agents (votingPrompt question options) rs
               /\ forall i a r choice,
                    nth_error agents i = Some a -> nth_error rs i = Some r ->
                    (forall j b, i < j -> nth_error agents j = Some b ->
                                 specName b <> specName a) ->
                    (JsMap.get (specName a) (votes out) = Some choice <->
                     ValidVote options r choice))
        /\ (forall o,
               JsMap.get o (countVotes (votes out)) =
               if Nat.eqb (tally o (JsMap.values (votes out))) 0 then None
               else Some (tally o (JsMap.values (votes out))))
        /\ winner out = findWinner options (countVotes (votes out)))
  /\ (let out := fst (runConsensusAgents scripted fiveVoters "Which one?"
                        ["A"; "B"; "C"] (start fiveAnswers)) in
      votes out = [("a1", "A"); ("a2", "B"); ("a3", "B"); ("a4", "C")]
      /\ JsMap.get "a5" (votes out) = None
      /\ countVotes (votes out) = [("A", 1); ("B", 2); ("C", 1)]
      /\ winner out = Some "B").
Proof.
split.
- intros World query agents question options s out s'.
  rewrite runConsensusAgents_unfold. cbv zeta.
  pose proof (runParallelAgents_keys_NoDup query agents
                (votingPrompt question options) s) as Hnd.
  destruct (runParallelAgents query agents (votingPrompt question options) s)
    as [results s1] eqn:Epar. simpl in *.
  intros H. injection H as <- <-. exists results. simpl.
  split; [reflexivity|]. split; [|split; [|split; [|reflexivity]]].
  + intros agentName choice. rewrite parseVotes_get by assumption. split.
    * destruct (JsMap.get agentName results) as [r|]; [|discriminate].
      intros Hb. exists r. split; auto. now apply ballot_spec.
    * intros (r & -> & Hv). now apply ballot_spec.
  + destruct (@runParallelAgents_outcomes _ _ _ _ _ _ _ Epar) as (rs & Hlen & Hres & Hlog).
    exists rs. split; [exact Hlen|]. split; [exact Hlog|].
    intros i a r choice Ha Hr Hlater.
    rewrite parseVotes_get by assumption.
    rewrite Hres, (@setAll_own_result agents rs i a r Ha Hr Hlater).
    apply ballot_spec.
  + intros o. rewrite countVotes_tallies. apply tallies_get.
- vm_compute. repeat split; reflexivity.
Qed.

(* ===================================================================== *)
(** ** Worked examples *)
(* ===================================================================== *)

(** C1 does not hold as a tie-break by the order of the options.  Two
    voters split their votes over two options and the second option of the
    list gets the first vote: the winner is the second option, not the one
    that stands first in the list of options. *)
Lemma consensus_tie_goes_to_first_vote :
  exists (agents : list AgentSpec) (question : string) (options : list string)
         (s : Sys Script),
    agents = [spec "x"; spec "y"]
    /\ options = ["A"; "B"]
    /\ s = start [replies "2" "s1"; replies "1" "s2"]
    /\ JsMap.values (votes (fst (runConsensusAgents scripted agents question options s)))
       = ["B"; "A"]
    /\ winner (fst (runConsensusAgents scripted agents question options s)) = Some "B"
    /\ EarliestTopOption options
         (JsMap.values (votes (fst (runConsensusAgents scripted agents question options s))))
         "A"
    /\ ~ EarliestTopOption options
         (JsMap.values (votes (fst (runConsensusAgents scripted agents question options s))))
         "B".
Proof.
exists [spec "x"; spec "y"], "Which one?", ["A"; "B"],
       (start [replies "2" "s1"; replies "1" "s2"]).
repeat (split; [reflexivity|]).
change (JsMap.values (votes (fst (runConsensusAgents scripted [spec "x"; spec "y"]
          "Which one?" ["A"; "B"] (start [replies "2" "s1"; replies "1" "s2"])))))
  with ["B"; "A"].
assert (Htally : forall o, tally o ["B"; "A"] <= 1).
{ intros o. unfold tally. cbn [count_occ].
  destruct (string_dec "B" o), (string_dec "A" o); subst; try discriminate; lia. }
split.
- exists 0. repeat split.
  + intros o. change (tally "A" ["B"; "A"]) with 1. apply Htally.
  + intros j o Hj. lia.
- intros (i & Hi & Hmax & Hbefore).
  destruct i as [|[|i]]; simpl in Hi.
  + discriminate.
  + specialize (Hbefore 0 "A" (Nat.lt_0_succ 0) eq_refl).
    vm_compute in Hbefore. lia.
  + destruct i; discriminate.
Qed.

(** The chain of three agents stops after its second stage. *)
Lemma sequential_chain_witness :
  runSequentialChain scripted [spec "a"; spec "b"; spec "c"] "go"
    (start [replies "one" "s1"; gives_up "error_max_turns" "s2"; replies "three" "s3"])
  = (fst demoChain, snd demoChain)
  /\ length (fst demoChain) = 2
  /\ exists entries,
       log (snd demoChain) = [] ++ entries
       /\ map runOutcome (runs entries) = fst demoChain
       /\ map runConfig (runs entries) = [specConfig (spec "a"); specConfig (spec "b")]
       /\ constructions entries = [specConfig (spec "a"); specConfig (spec "b")].
Proof.
assert (H : runSequentialChain scripted [spec "a"; spec "b"; spec "c"] "go"
              (start [replies "one" "s1"; gives_up "error_max_turns" "s2";
                      replies "three" "s3"])
            = (fst demoChain, snd demoChain)) by reflexivity.
split; [exact H|].
destruct (@sequential_chain_stops_at_first_failure _ _ _ _ _ _ _ H)
  as (Hfail & _ & _ & Hlog).
split.
- eapply (Hfail 1); reflexivity.
- exact Hlog.
Defined.

(** A run whose terminal event is not a success. *)
Lemma run_always_returns_a_result_witness :
  scripted (paramsOf demoAgent "hello") (world (start [gives_up "error_max_turns" "s9"]))
  = (gives_up "error_max_turns" "s9", [])
  /\ exists r agent',
       run scripted demoAgent "hello" (start [gives_up "error_max_turns" "s9"])
       = ((r, agent'),
          {| world := [];
             log := [] ++ [Ran (BaseAgent.config demoAgent) (paramsOf demoAgent "hello") r] |})
       /\ wellFormed r = true
       /\ AgentResult.success r = false
       /\ AgentResult.error r = Some "error_max_turns"
       /\ AgentResult.errors r = Some ["budget"].
Proof.
split; [reflexivity|].
destruct (@run_always_returns_a_result Script scripted demoAgent "hello"
            (start [gives_up "error_max_turns" "s9"])
            (gives_up "error_max_turns" "s9") [] eq_refl)
  as (r & agent' & Hrun & Hwf & _ & _ & _ & Hlast).
exists r, agent'. split; [exact Hrun|]. split; [exact Hwf|].
rewrite (Hlast [SystemMessage "init"] _ [] eq_refl eq_refl eq_refl
               ltac:(discriminate)).
repeat split.
Defined.

(** A run that succeeds leaves the session of its terminal event in the
    agent. *)
Lemma run_success_sets_session_witness :
  run scripted demoAgent "hello" (start [replies "hi" "session-1"])
  = ((fst (fst demoRun), snd (fst demoRun)), snd demoRun)
  /\ AgentResult.success (fst (fst demoRun)) = true
  /\ exists q pre m post,
       q = fst (scripted (paramsOf demoAgent "hello")
                         (world (start [replies "hi" "session-1"])))
       /\ raised q = None
       /\ events q = pre ++ ResultMessage m :: post
       /\ noResultIn post = true
       /\ SDKResultMessage.subtype m = "success"
       /\ BaseAgent.sessionId (snd (fst demoRun)) = Some (SDKResultMessage.session_id m)
       /\ AgentResult.sessionId (fst (fst demoRun)) = Some (SDKResultMessage.session_id m)
       /\ AgentResult.result (fst (fst demoRun)) = Some (SDKResultMessage.result m).
Proof.
split; [reflexivity|]. split; [reflexivity|].
exact (@run_success_sets_session Script scripted demoAgent "hello"
         (start [replies "hi" "session-1"])
         (fst (fst demoRun)) (snd (fst demoRun)) (snd demoRun) eq_refl eq_refl).
Defined.

(** Five voters: B has strictly the greatest tally and wins. *)
Lemma consensus_winner_witness :
  runConsensusAgents scripted fiveVoters "Which one?" ["A"; "B"; "C"] (start fiveAnswers)
  = (fst demoConsensus, snd demoConsensus)
  /\ JsMap.values (votes (fst demoConsensus)) = ["A"; "B"; "B"; "C"]
  /\ winner (fst demoConsensus) = Some "B".
Proof.
assert (H : runConsensusAgents scripted fiveVoters "Which one?" ["A"; "B"; "C"]
              (start fiveAnswers)
            = (fst demoConsensus, snd demoConsensus)) by reflexivity.
split; [exact H|]. split; [reflexivity|].
destruct (@consensus_winner_has_greatest_tally _ _ _ _ _ _ _ _ H) as (_ & Hstrict & _).
apply Hstrict.
- vm_compute. lia.
- intros o' Hne.
  change (JsMap.values (votes (fst demoConsensus))) with ["A"; "B"; "B"; "C"].
  unfold tally. cbn [count_occ].
  destruct (string_dec "A" o'), (string_dec "B" o'), (string_dec "C" o');
    subst; try discriminate; try congruence; simpl; lia.
Defined.


(** The supervisor of two delegates: one agent is constructed and run. *)
Lemma supervisor_witness :
  runWithSupervisor scripted "Coordinate the team." demoDelegates "Ship it"
    (start [replies "done" "s1"])
  = (fst demoSupervisor, snd demoSupervisor)
  /\ map AgentConfig.name (constructions (log (snd demoSupervisor))) = ["supervisor"]
  /\ length (runs (log (snd demoSupervisor))) = 1
  /\ JsString.Contains "- coder: writes code"
       (enhancedPrompt "Coordinate the team." demoDelegates "Ship it").
Proof.
assert (H : runWithSupervisor scripted "Coordinate the team." demoDelegates "Ship it"
              (start [replies "done" "s1"])
            = (fst demoSupervisor, snd demoSupervisor)) by reflexivity.
split; [exact H|].
destruct (@supervisor_runs_exactly_one_agent _ _ _ _ _ _ _ _ H)
  as (entries & supervisor & Hlog & Hsup & Hc & Hr & _ & Hname & _ & _ & _ & _ & Hline & _).
assert (Hlog' : log (snd demoSupervisor) = entries) by exact Hlog.
rewrite Hlog', Hc, Hr. cbn [map length]. rewrite Hname. repeat split.
apply (Hline {| subName := "coder"; subSystemPrompt := "You code";
                description := "writes code" |}).
simpl. auto.
Defined.

(** A pipeline of three stages, the first with a transform, and a chain of
    three agents whose second stage gives up: the second stage of each is
    run, on the prompt made from the result of the first. *)
Lemma next_stage_prompt_witness :
  runPipeline scripted demoStages "topic"
    (start [replies "draft text" "s1"; replies "edited text" "s2"; replies "out" "s3"])
  = (fst demoPipeline, snd demoPipeline)
  /\ runSequentialChain scripted [spec "a"; spec "b"; spec "c"] "go"
       (start [replies "one" "s1"; gives_up "error_max_turns" "s2"; replies "three" "s3"])
     = (fst demoChain, snd demoChain)
  /\ (exists x y,
        nth_error (runs (log (snd demoPipeline))) 0 = Some x
        /\ runPrompt x = "topic"
        /\ nth_error (runs (log (snd demoPipeline))) 1 = Some y
        /\ runPrompt y = "LOUD: draft text")
  /\ (exists x y,
        nth_error (runs (log (snd demoChain))) 0 = Some x
        /\ runPrompt x = "go"
        /\ nth_error (runs (log (snd demoChain))) 1 = Some y
        /\ runPrompt y
           = ("Previous agent output:" ++ JsString.nl ++ "one" ++ JsString.nl
                ++ JsString.nl ++ "Please continue with your task.")%string
        /\ nth_error (runs (log (snd demoChain))) 2 = None).
Proof.
assert (Hp : runPipeline scripted demoStages "topic"
               (start [replies "draft text" "s1"; replies "edited text" "s2";
                       replies "out" "s3"])
             = (fst demoPipeline, snd demoPipeline)) by reflexivity.
assert (Hc : runSequentialChain scripted [spec "a"; spec "b"; spec "c"] "go"
               (start [replies "one" "s1"; gives_up "error_max_turns" "s2";
                       replies "three" "s3"])
             = (fst demoChain, snd demoChain)) by reflexivity.
split; [exact Hp|]. split; [exact Hc|]. split.
- destruct (proj1 (@next_stage_prompt Script scripted) _ _ _ _ _ Hp)
    as (entries & Hlog & _ & Hfirst & Hstep & _).
  change (log (snd demoPipeline) = entries) in Hlog. rewrite Hlog.
  destruct Hfirst as (x & Hx & Hpx); [discriminate|].
  assert (Hst : nth_error demoStages 0
                = Some {| stageName := "draft"; stageSystemPrompt := "You draft";
                          transform := Some shout |}) by reflexivity.
  assert (Hrx : AgentResult.result (runOutcome x) = Some "draft text"
                /\ AgentResult.success (runOutcome x) = true).
  { rewrite <- Hlog in Hx. cbn in Hx. injection Hx as <-. split; reflexivity. }
  destruct Hrx as (Hrx & Hsx).
  destruct (Hstep 0 _ x Hst Hx Hsx) as (y & text & Hy & Ht & Hpy); [simpl; lia|].
  exists x, y. split; [exact Hx|]. split; [exact Hpx|]. split; [exact Hy|].
  rewrite Hpy. rewrite Hrx in Ht. injection Ht as <-. reflexivity.
- destruct (proj2 (@next_stage_prompt Script scripted) _ _ _ _ _ Hc)
    as (entries & Hlog & _ & _ & Hfirst & Hstep & Hstop & _).
  change (log (snd demoChain) = entries) in Hlog. rewrite Hlog.
  destruct Hfirst as (x & Hx & Hpx); [discriminate|].
  assert (Hrx : AgentResult.result (runOutcome x) = Some "one"
                /\ AgentResult.success (runOutcome x) = true).
  { rewrite <- Hlog in Hx. cbn in Hx. injection Hx as <-. split; reflexivity. }
  destruct Hrx as (Hrx & Hsx).
  destruct (Hstep 0 x Hx Hsx) as (y & text & Hy & Ht & Hpy); [simpl; lia|].
  exists x, y. split; [exact Hx|]. split; [exact Hpx|]. split; [exact Hy|].
  split; [rewrite Hpy; rewrite Hrx in Ht; injection Ht as <-; reflexivity|].
  apply (Hstop 1 y Hy).
  rewrite <- Hlog in Hy. cbn in Hy. injection Hy as <-. reflexivity.
Defined.

(** C4, where the code departs from it.  After [execute] on the agent
    registered under the empty name, which succeeds and sets the cursor to
    that name, a handoff to a name that is not registered fails with
    ["No current agent to hand off from"] and not with
    ["Target agent not found: ghost"], although a current agent is set.
    Nothing is appended, the cursor stays and nothing runs. *)
Theorem handoff_to_unknown_target_after_execute_on_empty_name :
  let '(o0, s0) := demoRegistry (start [replies "found" "s1"; replies "written" "s2"]) in
  let '((r1, o1), s1) := execute scripted o0 "" "research this" s0 in
  let '((c, o2), s2) :=
    handoff scripted payloadTruthy payloadStringify o1 "ghost" "continue" None s1 in
  AgentResult.success r1 = true
  /\ currentAgent o1 = Some ""
  /\ JsMap.get "ghost" (agents o1) = None
  /\ c = Returned (AgentResult.failure "No current agent to hand off from")
  /\ c <> Returned (AgentResult.failure "Target agent not found: ghost")
  /\ handoffHistory o2 = []
  /\ currentAgent o2 = Some ""
  /\ agents o2 = agents o1
  /\ log s2 = log s1.
Proof.
vm_compute. repeat split. discriminate.
Qed.

(** The three lookup failures on the registry of the examples. *)
Lemma registry_lookup_failures_witness :
  (JsMap.get "ghost" (agents (fst demoRegistered)) = None
   /\ execute scripted (fst demoRegistered) "ghost" "task" (snd demoRegistered)
      = ((AgentResult.failure "Agent not found: ghost", fst demoRegistered),
         snd demoRegistered))
  /\ (currentAgent (fst demoRegistered) = None
      /\ handoff scripted payloadTruthy payloadStringify (fst demoRegistered)
           "writer" "continue" None (snd demoRegistered)
         = ((Returned (AgentResult.failure "No current agent to hand off from"),
             fst demoRegistered),
            snd demoRegistered))
  /\ (currentAgent demoWithCursor = Some "researcher"
      /\ JsMap.get "ghost" (agents demoWithCursor) = None
      /\ handoff scripted payloadTruthy payloadStringify demoWithCursor
           "ghost" "continue" None (snd demoRegistered)
         = ((Returned (AgentResult.failure "Target agent not found: ghost"),
             demoWithCursor),
            snd demoRegistered)).
Proof.
pose proof (@registry_lookup_failures_change_nothing Script scripted Payload
              payloadTruthy payloadStringify) as (Hexec & Hnone & Htarget & _).
split; [|split].
- split; [reflexivity|]. now apply Hexec.
- split; [reflexivity|]. now apply Hnone.
- split; [reflexivity|]. split; [reflexivity|].
  apply Htarget with (from := "researcher").
  + reflexivity.
  + discriminate.
  + reflexivity.
Defined.

(** C10, where the code departs from it.  After [execute] on the agent
    registered under the empty name, which succeeds and sets the cursor to
    that name, a handoff to a registered agent is refused with
    ["No current agent to hand off from"]: no record is appended, the
    cursor stays, nothing runs. *)
Lemma handoff_refused_after_execute_on_empty_name :
  let '(o0, s0) := demoRegistry (start [replies "found" "s1"; replies "written" "s2"]) in
  let '((r1, o1), s1) := execute scripted o0 "" "research this" s0 in
  let '((c, o2), s2) :=
    handoff scripted payloadTruthy payloadStringify o1 "writer" "write it up" None s1 in
  AgentResult.success r1 = true
  /\ currentAgent o1 = Some ""
  /\ (exists writer, JsMap.get "writer" (agents o1) = Some writer)
  /\ c = Returned (AgentResult.failure "No current agent to hand off from")
  /\ handoffHistory o2 = []
  /\ currentAgent o2 = Some ""
  /\ log s2 = log s1.
Proof.
vm_compute. repeat split. eexists. reflexivity.
Qed.

(** The same handoff from an agent with a name: the record is appended and
    the cursor moves, although the run of the target fails. *)
Lemma handoff_committed_though_target_fails :
  let '(o0, s0) := demoRegistry (start [replies "found" "s1"; throws "offline"]) in
  let '((r1, o1), s1) := execute scripted o0 "researcher" "research this" s0 in
  let '((c, o2), s2) :=
    handoff scripted payloadTruthy payloadStringify o1 "writer" "write it up"
            (Some (NumberPayload 7)) s1 in
  currentAgent o1 = Some "researcher"
  /\ c = Returned (AgentResult.failure "offline")
  /\ handoffHistory o2 =
     [{| fromAgent := "researcher"; toAgent := "writer"; context := "write it up";
         data := Some (NumberPayload 7) |}]
  /\ currentAgent o2 = Some "writer"
  /\ length (runs (log s2)) = S (length (runs (log s1))).
Proof.
vm_compute. repeat split.
Qed.

(** A payload that [JSON.stringify] refuses: the call rejects after the
    record is appended and before the cursor moves. *)
Lemma handoff_rejects_on_unprintable_payload :
  let '(o0, s0) := demoRegistry (start [replies "found" "s1"; replies "written" "s2"]) in
  let '((r1, o1), s1) := execute scripted o0 "researcher" "research this" s0 in
  let '((c, o2), s2) :=
    handoff scripted payloadTruthy payloadStringify o1 "writer" "write it up"
            (Some (BigIntPayload 10)) s1 in
  c = Rejected (ErrorObject "Do not know how to serialize a BigInt")
  /\ length (handoffHistory o2) = 1
  /\ currentAgent o2 = Some "researcher"
  /\ log s2 = log s1.
Proof.
vm_compute. repeat split.
Qed.

(* ===================================================================== *)
(** ** Sessions across calls of [BaseAgent.run] *)
(* ===================================================================== *)

(** The session reference a run leaves: that of the last result message it
    received, whatever its subtype and whatever was thrown afterwards; the
    one it had when it received none. *)
Lemma consume_session agent q :
  BaseAgent.config (snd (consume agent q)) = BaseAgent.config agent
  /\ (noResultIn (events q) = true ->
      BaseAgent.sessionId (snd (consume agent q)) = BaseAgent.sessionId agent)
  /\ (forall pre m post,
         events q = pre ++ ResultMessage m :: post -> noResultIn post = true ->
         BaseAgent.sessionId (snd (consume agent q))
         = Some (SDKResultMessage.session_id m)).
Proof.
unfold consume. split; [|split].
- now destruct (fold_left onMessage _ _).
- intros H. now rewrite fold_onMessage_no_result.
- intros pre m post -> H. now rewrite fold_onMessage_last.
Qed.

Section SessionFacts.

Variable World : Type.
Variable query : QueryParams -> World -> QueryRun * World.

(** X1. Two calls of [run] on one agent: the second passes to the engine, as
    [resume], the session identifier of the last result message the first
    call received, also when that message was no success or the engine threw
    after it; when the first call received no result message, the second
    resumes what the first resumed.  The rest of the options is the same in
    both calls. *)
Theorem second_run_resumes_the_session
        (agent : BaseAgent.t) (p1 p2 : string) (s : Sys World)
        (r1 r2 : AgentResult.t) (agent1 agent2 : BaseAgent.t) (s1 s2 : Sys World) :
  run query agent p1 s = ((r1, agent1), s1) ->
  run query agent1 p2 s1 = ((r2, agent2), s2) ->
  exists params2,
    log s2 = log s ++ [Ran (BaseAgent.config agent) (paramsOf agent p1) r1;
                       Ran (BaseAgent.config agent) params2 r2]
    /\ prompt params2 = p2
    /\ options params2 = queryOptions agent1
    /\ BaseAgent.config agent1 = BaseAgent.config agent
    /\ (noResultIn (events (fst (query (paramsOf agent p1) (world s)))) = true ->
        QueryOptions.resume (options params2) = BaseAgent.sessionId agent)
    /\ (forall pre m post,
           events (fst (query (paramsOf agent p1) (world s)))
           = pre ++ ResultMessage m :: post ->
           noResultIn post = true ->
           QueryOptions.resume (options params2)
           = Some (SDKResultMessage.session_id m)).
Proof.
rewrite !run_unfold. intros H1 H2.
set (q1 := fst (query (paramsOf agent p1) (world s))) in *.
injection H1 as Hc1 Hs1.
assert (Hr1 : r1 = fst (consume agent q1)) by now rewrite Hc1.
assert (Ha1 : agent1 = snd (consume agent q1)) by now rewrite Hc1.
destruct (consume_session agent q1) as (Hcfg & Hnone & Hlast).
rewrite <- Ha1 in Hcfg, Hnone, Hlast.
injection H2 as Hc2 Hs2.
assert (Hr2 : r2 = fst (consume agent1
                          (fst (query (paramsOf agent1 p2) (world s1)))))
  by now rewrite Hc2.
exists (paramsOf agent1 p2).
split.
- rewrite <- Hs2. simpl. rewrite <- Hs1. simpl.
  rewrite <- app_assoc. simpl. rewrite <- Hr1, Hcfg, Hr2.
  rewrite <- Hs1. reflexivity.
- repeat split; auto.
Qed.

End SessionFacts.

(* ===================================================================== *)
(** ** [BaseAgent.stream] *)
(* ===================================================================== *)

Lemma withoutFailureDetails_caught e :
  withoutFailureDetails (caught e) = caught e.
Proof. reflexivity. Qed.

(** The loop of [stream] and the loop of [run] keep the same session
    reference, and results that differ by the details of a failure only. *)
Lemma fold_onStreamMessage_onMessage events : forall r r' sid,
  r' = withoutFailureDetails r ->
  fold_left onStreamMessage events (r', sid)
  = (withoutFailureDetails (fst (fold_left onMessage events (r, sid))),
     snd (fold_left onMessage events (r, sid))).
Proof.
induction events as [|e events IH]; intros r r' sid Hr; simpl.
- now rewrite Hr.
- destruct e as [c|c|c|m]; simpl; try (apply IH; assumption).
  apply IH. now destruct (String.eqb _ _).
Qed.

Section StreamFacts.

Variable World : Type.
Variable query : QueryParams -> World -> QueryRun * World.

Lemma nextN_S n st (s : Sys World) :
  nextN query (S n) st s
  = (fst (fst (next query st s))
       :: fst (fst (nextN query n (snd (fst (next query st s))) (snd (next query st s)))),
     snd (fst (nextN query n (snd (fst (next query st s))) (snd (next query st s)))),
     snd (nextN query n (snd (fst (next query st s))) (snd (next query st s)))).
Proof.
cbn [nextN]. unfold bind.
destruct (next query st s) as [[step st'] s1]. simpl.
destruct (nextN query n st' s1) as [[steps st''] s2]. reflexivity.
Qed.

Lemma next_suspended agent message rest raised result (s : Sys World) :
  next query (Suspended agent message rest raised result) s
  = (streamLoop
       {| BaseAgent.config := BaseAgent.config agent;
          BaseAgent.sessionId :=
            snd (onStreamMessage (result, BaseAgent.sessionId agent) message) |}
       rest raised
       (fst (onStreamMessage (result, BaseAgent.sessionId agent) message)),
     s).
Proof.
cbn [next].
destruct (onStreamMessage (result, BaseAgent.sessionId agent) message) as [r' sid].
reflexivity.
Qed.

Lemma next_not_started agent prompt (s : Sys World) :
  next query (NotStarted agent prompt) s
  = (streamLoop agent
       (events (fst (query (paramsOf agent prompt) (world s))))
       (raised (fst (query (paramsOf agent prompt) (world s))))
       noResult,
     {| world := snd (query (paramsOf agent prompt) (world s)); log := log s |}).
Proof.
cbn [next]. unfold bind, callQuery, ret. fold (paramsOf agent prompt).
now destruct (query (paramsOf agent prompt) (world s)).
Qed.

(** A suspended generator asked for as many values as it has messages
    left, and one more: it yields them in order and returns. *)
Lemma nextN_suspended_all rest : forall agent message raised result (s : Sys World),
  nextN query (S (length rest)) (Suspended agent message rest raised result) s
  = ((map Yielded rest
        ++ [Done (match raised with
                  | None =>
                      fst (fold_left onStreamMessage (message :: rest)
                                     (result, BaseAgent.sessionId agent))
                  | Some error => caught error
                  end)],
      Completed
        {| BaseAgent.config := BaseAgent.config agent;
           BaseAgent.sessionId :=
             snd (fold_left onStreamMessage (message :: rest)
                            (result, BaseAgent.sessionId agent)) |}),
     s).
Proof.
induction rest as [|e rest IH]; intros agent message raised result s;
  rewrite nextN_S, next_suspended; cbn [streamLoop fst snd length fold_left].
- now destruct (onStreamMessage (result, BaseAgent.sessionId agent) message).
- rewrite IH. cbn [fst snd map app BaseAgent.config BaseAgent.sessionId fold_left].
  now destruct (onStreamMessage (result, BaseAgent.sessionId agent) message).
Qed.

(** A suspended generator asked for no more values than it has messages
    left: it yields the first of them in order, and has handled the message
    it was suspended at and all the messages yielded but the last. *)
Lemma nextN_suspended_prefix n : forall rest agent message raised result (s : Sys World),
  n <= length rest ->
  exists st,
    nextN query n (Suspended agent message rest raised result) s
    = ((map Yielded (firstn n rest), st), s)
    /\ BaseAgent.config (agentOf st) = BaseAgent.config agent
    /\ BaseAgent.sessionId (agentOf st)
       = snd (fold_left onStreamMessage (firstn n (message :: rest))
                        (result, BaseAgent.sessionId agent)).
Proof.
induction n as [|n IH]; intros rest agent message raised result s Hn.
- eexists. split; [reflexivity|]. split; reflexivity.
- destruct rest as [|e rest]; [simpl in Hn; lia|].
  rewrite nextN_S, next_suspended. cbn [streamLoop fst snd firstn fold_left].
  destruct (IH rest
              {| BaseAgent.config := BaseAgent.config agent;
                 BaseAgent.sessionId :=
                   snd (onStreamMessage (result, BaseAgent.sessionId agent) message) |}
              e raised
              (fst (onStreamMessage (result, BaseAgent.sessionId agent) message)) s)
    as (st & Hrun & Hcfg & Hsid); [simpl in Hn; lia|].
  exists st. rewrite Hrun. cbn [fst snd map]. split; [reflexivity|].
  split; [exact Hcfg|].
  rewrite Hsid. cbn [BaseAgent.sessionId].
  now destruct (onStreamMessage (result, BaseAgent.sessionId agent) message).
Qed.

(** X2. A consumer that takes every value of [agent.stream(prompt)] receives
    the messages of the engine, all of them and in their order, and then the
    return value.  The engine is called as [run] calls it, the agent is left
    with the session reference [run] would leave, and the return value is
    the result [run] would return, except that a failure carries no number
    of turns and no list of errors. *)
Theorem stream_drained_agrees_with_run
        (agent : BaseAgent.t) (prompt : string) (s : Sys World)
        (q : QueryRun) (w : World) :
  query (paramsOf agent prompt) (world s) = (q, w) ->
  nextN query (S (length (events q))) (stream agent prompt) s
  = ((map Yielded (events q)
        ++ [Done (withoutFailureDetails (fst (consume agent q)))],
      Completed (snd (consume agent q))),
     {| world := w; log := log s |}).
Proof.
intros Hq. unfold stream. rewrite nextN_S, next_not_started, Hq.
cbn [fst snd].
assert (Hfold : forall events,
           fold_left onStreamMessage events (noResult, BaseAgent.sessionId agent)
           = (withoutFailureDetails
                (fst (fold_left onMessage events (noResult, BaseAgent.sessionId agent))),
              snd (fold_left onMessage events (noResult, BaseAgent.sessionId agent))))
  by (intros; apply fold_onStreamMessage_onMessage; reflexivity).
unfold consume.
destruct (events q) as [|e rest] eqn:Eev.
- cbn [streamLoop fst snd nextN length fold_left]. unfold ret.
  cbn [fst snd map app].
  destruct (raised q), agent; reflexivity.
- cbn [streamLoop fst snd length]. rewrite nextN_suspended_all.
  rewrite (Hfold (e :: rest)).
  destruct (fold_left onMessage (e :: rest) (noResult, BaseAgent.sessionId agent))
    as [r sid].
  cbn [fst snd map].
  destruct (raised q); reflexivity.
Qed.

(** X3. A consumer that takes [n] values of [agent.stream(prompt)], no more
    than the engine has messages, receives the first [n] messages in their
    order.  The generator has then handled all of them but the last: when
    the consumer leaves at that point, the session reference of the agent is
    the one the first [n - 1] messages give, so it is unchanged when none of
    them is a result message, as for a consumer that leaves on the first
    result message it receives. *)
Theorem stream_left_early_keeps_session
        (agent : BaseAgent.t) (prompt : string) (s : Sys World)
        (q : QueryRun) (w : World) (n : nat) :
  query (paramsOf agent prompt) (world s) = (q, w) ->
  1 <= n -> n <= length (events q) ->
  exists st,
    nextN query n (stream agent prompt) s
    = ((map Yielded (firstn n (events q)), st), {| world := w; log := log s |})
    /\ BaseAgent.config (agentOf (abandon st)) = BaseAgent.config agent
    /\ BaseAgent.sessionId (agentOf (abandon st))
       = snd (fold_left onStreamMessage (firstn (n - 1) (events q))
                        (noResult, BaseAgent.sessionId agent))
    /\ (noResultIn (firstn (n - 1) (events q)) = true ->
        BaseAgent.sessionId (agentOf (abandon st)) = BaseAgent.sessionId agent).
Proof.
intros Hq H1 Hn. destruct n as [|n]; [lia|].
unfold stream. rewrite nextN_S, next_not_started, Hq. cbn [fst snd].
destruct (events q) as [|e rest] eqn:Eev; [simpl in Hn; lia|].
cbn [streamLoop fst snd].
destruct (@nextN_suspended_prefix n rest agent e (raised q) noResult
            {| world := w; log := log s |})
  as (st & Hrun & Hcfg & Hsid); [simpl in Hn; lia|].
exists st. rewrite Hrun. cbn [fst snd firstn map].
replace (S n - 1) with n by lia.
assert (Hsession :
  BaseAgent.sessionId (agentOf (abandon st))
  = snd (fold_left onStreamMessage (firstn n (e :: rest))
                   (noResult, BaseAgent.sessionId agent))) by exact Hsid.
split; [reflexivity|]. split; [exact Hcfg|]. split; [exact Hsession|].
intros Hnone. rewrite Hsession.
rewrite (@fold_onStreamMessage_onMessage _ noResult noResult _ eq_refl).
cbn [snd]. now rewrite fold_onMessage_no_result.
Qed.

End StreamFacts.

(* ===================================================================== *)
(** ** Worked examples of sessions and streams *)
(* ===================================================================== *)

Lemma second_run_resumes_the_session_witness :
  run scripted demoAgent "hello" (start demoTwoRuns)
  = ((fst (fst demoFirstRun), snd (fst demoFirstRun)), snd demoFirstRun)
  /\ run scripted (snd (fst demoFirstRun)) "again" (snd demoFirstRun)
     = ((fst (fst demoSecondRun), snd (fst demoSecondRun)), snd demoSecondRun)
  /\ AgentResult.success (fst (fst demoFirstRun)) = false
  /\ exists params2,
       runs (log (snd demoSecondRun))
       = [(BaseAgent.config demoAgent, paramsOf demoAgent "hello", fst (fst demoFirstRun));
          (BaseAgent.config demoAgent, params2, fst (fst demoSecondRun))]
       /\ QueryOptions.resume (options params2) = Some "s1".
Proof.
split; [reflexivity|]. split; [reflexivity|]. split; [reflexivity|].
destruct (@second_run_resumes_the_session Script scripted demoAgent "hello" "again"
            (start demoTwoRuns)
            (fst (fst demoFirstRun)) (fst (fst demoSecondRun))
            (snd (fst demoFirstRun)) (snd (fst demoSecondRun))
            (snd demoFirstRun) (snd demoSecondRun) eq_refl eq_refl)
  as (params2 & Hlog & _ & _ & _ & _ & Hlast).
exists params2. split.
- rewrite Hlog. reflexivity.
- eapply eq_trans;
    [eapply (Hlast [SystemMessage "init"] _ []); reflexivity | reflexivity].
Defined.

Lemma stream_drained_agrees_with_run_witness :
  scripted (paramsOf demoAgent "hello") (world (start [gives_up "error_max_turns" "s1"]))
  = (gives_up "error_max_turns" "s1", [])
  /\ exists result agent',
       nextN scripted 3 (stream demoAgent "hello") (start [gives_up "error_max_turns" "s1"])
       = (([Yielded (SystemMessage "init");
            Yielded (resultEvent "error_max_turns" "" "s1" (Some ["budget"]));
            Done result], Completed agent'), start [])
       /\ AgentResult.error result = Some "error_max_turns"
       /\ AgentResult.numTurns result = None
       /\ AgentResult.errors result = None
       /\ AgentResult.errors
            (fst (fst (run scripted demoAgent "hello"
                           (start [gives_up "error_max_turns" "s1"]))))
          = Some ["budget"]
       /\ BaseAgent.sessionId agent' = Some "s1".
Proof.
split; [reflexivity|].
eexists. eexists. split.
- exact (@stream_drained_agrees_with_run Script scripted demoAgent "hello"
           (start [gives_up "error_max_turns" "s1"])
           (gives_up "error_max_turns" "s1") [] eq_refl).
- repeat split.
Defined.

Lemma stream_left_early_keeps_session_witness :
  scripted (paramsOf demoAgent "hello") (world (start [replies "hi" "s1"]))
  = (replies "hi" "s1", [])
  /\ 1 <= 3 /\ 3 <= length (events (replies "hi" "s1"))
  /\ exists st,
       nextN scripted 3 (stream demoAgent "hello") (start [replies "hi" "s1"])
       = (([Yielded (SystemMessage "init"); Yielded (AssistantMessage "hi");
            Yielded (resultEvent "success" "hi" "s1" None)], st), start [])
       /\ BaseAgent.sessionId (agentOf (abandon st)) = None.
Proof.
split; [reflexivity|]. split; [lia|]. split; [simpl; lia|].
destruct (@stream_left_early_keeps_session Script scripted demoAgent "hello"
            (start [replies "hi" "s1"]) (replies "hi" "s1") [] 3 eq_refl)
  as (st & Hrun & _ & _ & Hnone); [lia | simpl; lia |].
exists st. split.
- exact Hrun.
- apply Hnone. reflexivity.
Defined.

(* ===================================================================== *)
(** ** [BaseAgent.runConversation] *)
(* ===================================================================== *)

(** The loops of [runConversation] and of [run] leave the same session
    reference. *)
Lemma fold_onConversationMessage_session events : forall r r' sid,
  snd (fold_left onConversationMessage events (r, sid))
  = snd (fold_left onMessage events (r', sid)).
Proof.
induction events as [|e events IH]; intros r r' sid; simpl.
- reflexivity.
- destruct e as [c|c|c|m]; simpl; apply IH.
Qed.

(** Without a successful result message the local [result] keeps its
    value. *)
Lemma fold_onConversationMessage_no_success events : forall st,
  noSuccessIn events = true ->
  fst (fold_left onConversationMessage events st) = fst st.
Proof.
induction events as [|e events IH]; intros st H; simpl.
- reflexivity.
- simpl in H. apply andb_prop in H. destruct H as [He H].
  rewrite (IH _ H).
  destruct e as [c|c|c|m]; simpl; try reflexivity.
  simpl in He. now destruct (String.eqb _ _).
Qed.

Lemma fold_onConversationMessage_last_success pre m post st :
  SDKResultMessage.subtype m = "success" ->
  noSuccessIn post = true ->
  fst (fold_left onConversationMessage (pre ++ ResultMessage m :: post) st)
  = successResult m.
Proof.
intros Hm Hpost. rewrite fold_left_app. cbn [fold_left].
rewrite (fold_onConversationMessage_no_success _ _ Hpost).
simpl. now rewrite Hm.
Qed.

Lemma fold_onConversationMessage_wellFormed events : forall st,
  wellFormed (fst st) = true ->
  wellFormed (fst (fold_left onConversationMessage events st)) = true.
Proof.
induction events as [|e events IH]; intros st H; simpl.
- exact H.
- apply IH. destruct e as [c|c|c|m]; simpl; try exact H.
  now destruct (String.eqb _ _).
Qed.

Section ConversationFacts.

Variable World : Type.
Variable converse :
  list ConversationMessage -> QueryOptions.t -> World -> QueryRun * World.

(** X4. [runConversation] always returns a result.  When the engine throws,
    it is the failure the [catch] clause builds.  Otherwise it is the success
    built from the last successful result message; a result message that is
    no success is never reported: when there is no successful one the result
    is the failure [No result received].  The agent keeps the session of the
    last result message of any subtype, as after [run], so that a success can
    be returned with a session that is not the one the agent resumes next. *)
Theorem conversation_reports_last_success
        (agent : BaseAgent.t) (messages : list ConversationMessage) (s : Sys World) :
  let q := fst (converse messages (conversationOptions agent) (world s)) in
  let out := runConversation converse agent messages s in
  log (snd out) = log s
  /\ world (snd out) = snd (converse messages (conversationOptions agent) (world s))
  /\ BaseAgent.config (snd (fst out)) = BaseAgent.config agent
  /\ wellFormed (fst (fst out)) = true
  /\ (forall e, raised q = Some e -> fst (fst out) = caught e)
  /\ (raised q = None -> noSuccessIn (events q) = true -> fst (fst out) = noResult)
  /\ (raised q = None ->
      forall pre m post,
        events q = pre ++ ResultMessage m :: post ->
        SDKResultMessage.subtype m = "success" ->
        noSuccessIn post = true ->
        fst (fst out) = successResult m)
  /\ BaseAgent.sessionId (snd (fst out)) = BaseAgent.sessionId (snd (consume agent q)).
Proof.
intros q out. subst out. unfold runConversation.
fold q.
destruct (converse messages (conversationOptions agent) (world s)) as [q' w] eqn:E.
subst q. cbn [fst snd log world]. unfold consumeConversation, consume.
pose proof (fold_onConversationMessage_session (events q') noResult noResult
              (BaseAgent.sessionId agent)) as Hsess.
pose proof (fold_onConversationMessage_no_success (events q')
              (noResult, BaseAgent.sessionId agent)) as Hnone.
pose proof (@fold_onConversationMessage_wellFormed (events q')
              (noResult, BaseAgent.sessionId agent) eq_refl) as Hwf.
pose proof (fun pre m post =>
              @fold_onConversationMessage_last_success pre m post
                (noResult, BaseAgent.sessionId agent)) as Hlast.
destruct (fold_left onConversationMessage (events q') (noResult, BaseAgent.sessionId agent))
  as [r sid] eqn:Efold.
destruct (fold_left onMessage (events q') (noResult, BaseAgent.sessionId agent))
  as [r0 sid0] eqn:Efold0.
cbn [fst snd BaseAgent.config BaseAgent.sessionId] in *.
repeat split; try reflexivity.
- destruct (raised q') as [e|]; [now destruct e | exact Hwf].
- intros e He. now rewrite He.
- intros Hr Hs. rewrite Hr. now apply Hnone.
- intros Hr pre m post Hev Hm Hpost. rewrite Hr.
  rewrite Hev in Efold. rewrite <- (Hlast pre m post Hm Hpost).
  now rewrite Efold.
- exact Hsess.
Qed.

End ConversationFacts.

(* worked example *)
Lemma conversation_success_with_another_session :
  AgentResult.success (fst (fst demoConversation)) = true
  /\ AgentResult.result (fst (fst demoConversation)) = Some "one"
  /\ AgentResult.sessionId (fst (fst demoConversation)) = Some "s1"
  /\ BaseAgent.sessionId (snd (fst demoConversation)) = Some "s2".
Proof. repeat split. Qed.

(* ===================================================================== *)
(** ** The factories and [runQuery] *)
(* ===================================================================== *)

Section FactoryFacts.

Variable World : Type.
Variable query : QueryParams -> World -> QueryRun * World.

Lemma thenRun_newBaseAgent config input (s : Sys World) :
  thenRun query (newBaseAgent config) input s
  = run query {| BaseAgent.config := withDefaults config; BaseAgent.sessionId := None |}
        input
        {| world := world s; log := log s ++ [Constructed (withDefaults config)] |}.
Proof. reflexivity. Qed.

(** X5. An agent made by [createAgent], [createToolAgent] or
    [createMcpAgent] and run once.  A property of [options] wins over the
    explicit argument of the factory: the name, the system prompt, the list
    of allowed tools, the servers.  The engine always receives a model, a
    number of turns and a permission mode, the defaults of the constructor
    where [options] has none, and no session to resume.  (As everywhere in
    the model, an optional property is absent or has a value: an object that
    carries the key with the value [undefined] is not represented.) *)
Theorem factory_options_win_over_arguments
        (call : FactoryCall) (opts : PartialAgentConfig.t) (input : string)
        (s : Sys World) :
  let out := thenRun query (callFactory call opts) input s in
  exists c params,
    log (snd out) = log s ++ [Constructed c; Ran c params (fst (fst out))]
    /\ BaseAgent.config (snd (fst out)) = c
    /\ AgentConfig.name c
       = orElseValue (PartialAgentConfig.name opts) (explicitName call)
    /\ prompt params = input
    /\ QueryOptions.systemPrompt (options params)
       = orElseValue (PartialAgentConfig.systemPrompt opts) (explicitPrompt call)
    /\ QueryOptions.allowedTools (options params)
       = orElse (PartialAgentConfig.allowedTools opts) (explicitTools call)
    /\ QueryOptions.disallowedTools (options params)
       = PartialAgentConfig.disallowedTools opts
    /\ QueryOptions.mcpServers (options params)
       = orElse (PartialAgentConfig.mcpServers opts) (explicitServers call)
    /\ QueryOptions.model (options params)
       = Some (orElseValue (PartialAgentConfig.model opts) DEFAULT_MODEL)
    /\ QueryOptions.maxTurns (options params)
       = Some (orElseValue (PartialAgentConfig.maxTurns opts) DEFAULT_MAX_TURNS)
    /\ QueryOptions.permissionMode (options params)
       = Some (orElseValue (PartialAgentConfig.permissionMode opts) PermDefault)
    /\ QueryOptions.resume (options params) = None.
Proof.
intros out. subst out.
assert (H : exists base,
           callFactory call opts = newBaseAgent (World := World) (withOptions base opts)
           /\ AgentConfig.name base = explicitName call
           /\ AgentConfig.systemPrompt base = explicitPrompt call
           /\ AgentConfig.allowedTools base = explicitTools call
           /\ AgentConfig.disallowedTools base = None
           /\ AgentConfig.mcpServers base = explicitServers call
           /\ AgentConfig.model base = None
           /\ AgentConfig.maxTurns base = None
           /\ AgentConfig.permissionMode base = None).
{ destruct call; eexists; (split; [reflexivity|]); repeat split. }
destruct H as (base & -> & Hn & Hp & Ht & Hd & Hm & Hmo & Hmt & Hpm).
rewrite thenRun_newBaseAgent, run_unfold. cbn [fst snd log world].
eexists. eexists. split.
- rewrite <- app_assoc. reflexivity.
- split.
  { apply (proj1 (consume_session _ _)). }
  cbn.
  rewrite Hn, Hp, Ht, Hd, Hm, Hmo, Hmt, Hpm.
  destruct opts as [on op om omt opm oat odt oms]; cbn.
  destruct om, omt, opm, odt; repeat split.
Qed.

Lemma runQuery_unfold input systemPrompt opts (s : Sys World) :
  runQuery query input systemPrompt opts s
  = let agent :=
      {| BaseAgent.config :=
           withDefaults (withOptions (createAgentConfig "one-shot"
                                        (oneShotPrompt systemPrompt)) opts);
         BaseAgent.sessionId := None |} in
    let q := query (paramsOf agent input) (world s) in
    (fst (consume agent (fst q)),
     {| world := snd q;
        log := log s ++ [Constructed (BaseAgent.config agent);
                         Ran (BaseAgent.config agent) (paramsOf agent input)
                             (fst (consume agent (fst q)))] |}).
Proof.
unfold runQuery, createAgentWith, bind.
change (newBaseAgent (withOptions (createAgentConfig "one-shot" (oneShotPrompt systemPrompt)) opts) s)
  with ({| BaseAgent.config :=
             withDefaults (withOptions (createAgentConfig "one-shot"
                                          (oneShotPrompt systemPrompt)) opts);
           BaseAgent.sessionId := None |},
        {| world := world s;
           log := log s ++ [Constructed
                              (withDefaults (withOptions (createAgentConfig "one-shot"
                                               (oneShotPrompt systemPrompt)) opts))] |}).
cbv beta iota. rewrite run_unfold. cbn [world log].
destruct (consume _ _) as [r a']. cbn [fst snd ret BaseAgent.config].
now rewrite <- app_assoc.
Qed.

(** X6. [runQuery] makes one agent and runs it once on the prompt, without a
    session to resume, and returns what that run returns.  The agent is
    called [one-shot] unless [options] names it.  A system prompt that is
    left out or empty is replaced by the default one; [options] wins over
    both. *)
Theorem one_shot_query_default_prompt
        (input : string) (systemPrompt : option string) (opts : PartialAgentConfig.t)
        (s : Sys World) :
  let out := runQuery query input systemPrompt opts s in
  exists c params,
    log (snd out) = log s ++ [Constructed c; Ran c params (fst out)]
    /\ world (snd out) = snd (query params (world s))
    /\ fst out
       = fst (consume {| BaseAgent.config := c; BaseAgent.sessionId := None |}
                      (fst (query params (world s))))
    /\ wellFormed (fst out) = true
    /\ prompt params = input
    /\ QueryOptions.resume (options params) = None
    /\ AgentConfig.name c = orElseValue (PartialAgentConfig.name opts) "one-shot"
    /\ (systemPrompt = None \/ systemPrompt = Some "" ->
        QueryOptions.systemPrompt (options params)
        = orElseValue (PartialAgentConfig.systemPrompt opts)
                      "You are a helpful assistant.")
    /\ (forall p, systemPrompt = Some p -> p <> "" ->
        QueryOptions.systemPrompt (options params)
        = orElseValue (PartialAgentConfig.systemPrompt opts) p).
Proof.
intros out. subst out. rewrite runQuery_unfold.
set (agent := {| BaseAgent.config := _; BaseAgent.sessionId := None |}).
cbv zeta. cbn [fst snd log world].
exists (BaseAgent.config agent), (paramsOf agent input).
split; [reflexivity|].
split; [reflexivity|].
split; [reflexivity|].
split; [apply wellFormed_consume|].
split; [reflexivity|]. split; [reflexivity|].
split; [reflexivity|].
split.
- intros [-> | ->]; reflexivity.
- intros p -> Hp. cbn. destruct p; [contradiction | reflexivity].
Qed.

End FactoryFacts.

(** Without [options], the factory of the strategies and the factory with
    its third argument make the same agent. *)
Lemma createAgentWith_none (World : Type) name systemPrompt (s : Sys World) :
  createAgentWith name systemPrompt PartialAgentConfig.none s
  = createAgent name systemPrompt s.
Proof. reflexivity. Qed.

(* ===================================================================== *)
(** ** The registry of [AgentOrchestrator] across calls *)
(* ===================================================================== *)

Lemma get_map_resetAgent n (m : JsMap.t BaseAgent.t) :
  JsMap.get n (map (fun kv => (fst kv, resetAgent (snd kv))) m)
  = option_map resetAgent (JsMap.get n m).
Proof.
induction m as [|[k v] m IH]; simpl; [reflexivity|].
now destruct (String.eqb n k).
Qed.

Lemma keys_map_resetAgent (m : JsMap.t BaseAgent.t) :
  JsMap.keys (map (fun kv => (fst kv, resetAgent (snd kv))) m) = JsMap.keys m.
Proof.
unfold JsMap.keys. rewrite map_map. reflexivity.
Qed.

Section RegistryCalls.

Variable World : Type.
Variable query : QueryParams -> World -> QueryRun * World.
Variable Data : Type.
Variable dataTruthy : Data -> bool.
Variable stringify : Data -> Thrown + string.

Lemma execute_unfold (this : AgentOrchestrator Data) startAgent task (s : Sys World) :
  execute query this startAgent task s
  = match JsMap.get startAgent (agents this) with
    | None => ((AgentResult.failure ("Agent not found: " ++ startAgent)%string, this), s)
    | Some agent =>
        let q := query (paramsOf agent task) (world s) in
        let answer := consume agent (fst q) in
        ((fst answer,
          {| agents := JsMap.set startAgent (snd answer) (agents this);
             handoffHistory := handoffHistory this;
             currentAgent := Some startAgent |}),
         {| world := snd q;
            log := log s ++ [Ran (BaseAgent.config agent) (paramsOf agent task)
                                 (fst answer)] |})
    end.
Proof.
unfold execute. destruct (JsMap.get startAgent (agents this)) as [agent|]; [|reflexivity].
unfold bind. rewrite run_unfold. now destruct (consume agent _).
Qed.

Lemma handoff_unfold (this : AgentOrchestrator Data) toAgent context data (s : Sys World) :
  handoff query dataTruthy stringify this toAgent context data s
  = if noCurrentAgent (currentAgent this)
    then ((Returned (AgentResult.failure "No current agent to hand off from"), this), s)
    else
      match JsMap.get toAgent (agents this) with
      | None =>
          ((Returned (AgentResult.failure ("Target agent not found: " ++ toAgent)%string),
            this), s)
      | Some nextAgent =>
          let from := orEmpty (currentAgent this) in
          let history :=
            handoffHistory this
              ++ [{| fromAgent := from; toAgent := toAgent;
                     context := context; data := data |}] in
          match dataLine dataTruthy stringify data with
          | inl e =>
              ((Rejected e,
                {| agents := agents this; handoffHistory := history;
                   currentAgent := currentAgent this |}), s)
          | inr line =>
              let message := handoffMessage from context line in
              let q := query (paramsOf nextAgent message) (world s) in
              let answer := consume nextAgent (fst q) in
              ((Returned (fst answer),
                {| agents := JsMap.set toAgent (snd answer) (agents this);
                   handoffHistory := history;
                   currentAgent := Some toAgent |}),
               {| world := snd q;
                  log := log s ++ [Ran (BaseAgent.config nextAgent)
                                       (paramsOf nextAgent message) (fst answer)] |})
          end
      end.
Proof.
unfold handoff. destruct (noCurrentAgent (currentAgent this)); [reflexivity|].
destruct (JsMap.get toAgent (agents this)) as [nextAgent|]; [|reflexivity].
cbv zeta.
destruct (dataLine dataTruthy stringify data) as [e|line]; [reflexivity|].
unfold bind. rewrite run_unfold. now destruct (consume nextAgent _).
Qed.

(** X7. [registerAgent] followed by [getAgent] under the same name gives the
    agent just constructed: the configuration with the defaults of the
    constructor, and no session.  An agent already registered under that name
    is replaced where it stands in the table, and its session is lost; a new
    name goes to the end of the table.  The other agents, the handoff history
    and the cursor are as before, and the engine is not called. *)
Theorem register_then_get
        (this : AgentOrchestrator Data) (config : AgentConfig.t) (s : Sys World) :
  let out := registerAgent this config s in
  getAgent (fst out) (AgentConfig.name config)
  = Some {| BaseAgent.config := withDefaults config; BaseAgent.sessionId := None |}
  /\ (forall n, n <> AgentConfig.name config -> getAgent (fst out) n = getAgent this n)
  /\ (In (AgentConfig.name config) (JsMap.keys (agents this)) ->
      JsMap.keys (agents (fst out)) = JsMap.keys (agents this))
  /\ (~ In (AgentConfig.name config) (JsMap.keys (agents this)) ->
      JsMap.keys (agents (fst out))
      = JsMap.keys (agents this) ++ [AgentConfig.name config])
  /\ handoffHistory (fst out) = handoffHistory this
  /\ currentAgent (fst out) = currentAgent this
  /\ world (snd out) = world s
  /\ log (snd out) = log s ++ [Constructed (withDefaults config)].
Proof.
intros out. subst out. unfold getAgent. cbn.
split; [apply JsMapFacts.get_set_same|].
split; [intros n Hn; apply JsMapFacts.get_set_other; congruence|].
split; [apply JsMapFacts.keys_set_present|].
split; [apply JsMapFacts.keys_set_absent|].
repeat split.
Qed.

(** X8. [execute] on a registered name runs the agent held under that name
    once, on the task and with the session the agent has, and returns what
    the run returns.  The cursor is on that name afterwards, also when the
    run failed.  The table holds the agent with the session the run left;
    the other agents, the order of the table and the handoff history are as
    before. *)
Theorem execute_moves_the_cursor
        (this : AgentOrchestrator Data) (startAgent task : string) (s : Sys World)
        (agent : BaseAgent.t) :
  getAgent this startAgent = Some agent ->
  let out := execute query this startAgent task s in
  let q := query (paramsOf agent task) (world s) in
  fst (fst out) = fst (consume agent (fst q))
  /\ currentAgent (snd (fst out)) = Some startAgent
  /\ handoffHistory (snd (fst out)) = handoffHistory this
  /\ getAgent (snd (fst out)) startAgent = Some (snd (consume agent (fst q)))
  /\ (forall n, n <> startAgent -> getAgent (snd (fst out)) n = getAgent this n)
  /\ JsMap.keys (agents (snd (fst out))) = JsMap.keys (agents this)
  /\ world (snd out) = snd q
  /\ log (snd out)
     = log s ++ [Ran (BaseAgent.config agent) (paramsOf agent task) (fst (fst out))]
  /\ QueryOptions.resume (options (paramsOf agent task)) = BaseAgent.sessionId agent.
Proof.
intros Hget out q. subst out q. unfold getAgent in *.
rewrite execute_unfold, Hget. cbn.
split; [reflexivity|]. split; [reflexivity|]. split; [reflexivity|].
split; [apply JsMapFacts.get_set_same|].
split; [intros n Hn; apply JsMapFacts.get_set_other; congruence|].
split.
{ apply JsMapFacts.keys_set_present. apply JsMapFacts.get_In_keys. congruence. }
repeat split.
Qed.

(** X12. [handoff] from a current agent with a name that is not empty to a
    registered target.  One record is appended to the history, with the
    cursor as its source, before anything else happens.  When the payload
    cannot be printed the promise rejects, the cursor stays, and no agent is
    run.  Otherwise the cursor moves to the target, also when the run fails;
    the target is run once on the handoff message, with the session it has,
    and the table holds it with the session the run left. *)
Theorem handoff_records_then_runs
        (this : AgentOrchestrator Data) (toAgent context : string) (data : option Data)
        (s : Sys World) (from : string) (nextAgent : BaseAgent.t) :
  currentAgent this = Some from -> from <> "" ->
  getAgent this toAgent = Some nextAgent ->
  let out := handoff query dataTruthy stringify this toAgent context data s in
  handoffHistory (snd (fst out))
  = handoffHistory this
      ++ [{| fromAgent := from; toAgent := toAgent; context := context; data := data |}]
  /\ JsMap.keys (agents (snd (fst out))) = JsMap.keys (agents this)
  /\ (forall n, n <> toAgent -> getAgent (snd (fst out)) n = getAgent this n)
  /\ (forall e, dataLine dataTruthy stringify data = inl e ->
        fst (fst out) = Rejected e
        /\ currentAgent (snd (fst out)) = Some from
        /\ agents (snd (fst out)) = agents this
        /\ snd out = s)
  /\ (forall line, dataLine dataTruthy stringify data = inr line ->
        let message := handoffMessage from context line in
        let q := query (paramsOf nextAgent message) (world s) in
        fst (fst out) = Returned (fst (consume nextAgent (fst q)))
        /\ currentAgent (snd (fst out)) = Some toAgent
        /\ getAgent (snd (fst out)) toAgent = Some (snd (consume nextAgent (fst q)))
        /\ world (snd out) = snd q
        /\ log (snd out)
           = log s ++ [Ran (BaseAgent.config nextAgent) (paramsOf nextAgent message)
                           (fst (consume nextAgent (fst q)))]).
Proof.
intros Hcur Hne Hget out. subst out. unfold getAgent in *.
rewrite (@handoff_committed World query Data dataTruthy stringify this toAgent context
           data s from nextAgent Hcur Hne Hget).
assert (Hin : In toAgent (JsMap.keys (agents this)))
  by (apply JsMapFacts.get_In_keys; congruence).
destruct (dataLine dataTruthy stringify data) as [e|line]; cbn.
- split; [reflexivity|]. split; [reflexivity|]. split; [reflexivity|].
  split.
  + intros e' He. injection He as <-. repeat split.
  + intros line Hl. discriminate.
- split; [reflexivity|].
  split; [now apply JsMapFacts.keys_set_present|].
  split; [intros n Hn; apply JsMapFacts.get_set_other; congruence|].
  split.
  + intros e He. discriminate.
  + intros line' Hl. injection Hl as <-.
    split; [reflexivity|]. split; [reflexivity|].
    split; [apply JsMapFacts.get_set_same|]. split; reflexivity.
Qed.

(** X10. [reset] keeps every registered agent, under its name, in its place
    and with its configuration, and clears its session; it empties the handoff
    history and removes the cursor.  A second [reset] changes nothing more,
    and a handoff made next is refused for want of a current agent, without
    a run. *)
Theorem reset_keeps_agents_clears_sessions (this : AgentOrchestrator Data) :
  JsMap.keys (agents (reset this)) = JsMap.keys (agents this)
  /\ (forall n, getAgent (reset this) n = option_map resetAgent (getAgent this n))
  /\ (forall n a, getAgent (reset this) n = Some a -> BaseAgent.sessionId a = None)
  /\ getHandoffHistory (reset this) = []
  /\ currentAgent (reset this) = None
  /\ reset (reset this) = reset this
  /\ (forall toAgent context data (s : Sys World),
        handoff query dataTruthy stringify (reset this) toAgent context data s
        = ((Returned (AgentResult.failure "No current agent to hand off from"),
            reset this), s)).
Proof.
split; [apply keys_map_resetAgent|].
split; [intros n; apply get_map_resetAgent|].
split.
{ intros n a. unfold getAgent. cbn [reset agents]. rewrite get_map_resetAgent.
  destruct (JsMap.get n (agents this)); [|discriminate].
  intros H. injection H as <-. reflexivity. }
split; [reflexivity|]. split; [reflexivity|].
split.
{ unfold reset. cbn [agents]. f_equal. rewrite map_map.
  apply map_ext. intros [k v]. reflexivity. }
reflexivity.
Qed.

Lemma perform_unfold (this : AgentOrchestrator Data) call (s : Sys World) :
  perform query dataTruthy stringify this call s
  = match call with
    | CallRegister config => registerAgent this config s
    | CallExecute startAgent task =>
        (snd (fst (execute query this startAgent task s)),
         snd (execute query this startAgent task s))
    | CallHandoff toAgent context data =>
        (snd (fst (handoff query dataTruthy stringify this toAgent context data s)),
         snd (handoff query dataTruthy stringify this toAgent context data s))
    | CallReset => (reset this, s)
    end.
Proof.
destruct call as [config|startAgent task|target ctx payload|];
  cbn [perform]; try reflexivity; unfold bind.
- now destruct (execute query this startAgent task s) as [[r t] s'].
- now destruct (handoff query dataTruthy stringify this target ctx payload s)
    as [[r t] s'].
Qed.

(** What one call does to the table of agents: nothing; or it puts, under a
    name the call touches, an agent with the configuration of the one that
    was there; or it registers an agent; or it resets every agent. *)
Lemma perform_agents (this : AgentOrchestrator Data) call (s : Sys World) :
  let this' := fst (perform query dataTruthy stringify this call s) in
  agents this' = agents this
  \/ (exists k a a',
         touches k call = true /\ registers k call = false
         /\ JsMap.get k (agents this) = Some a
         /\ BaseAgent.config a' = BaseAgent.config a
         /\ currentAgent this' = Some k
         /\ agents this' = JsMap.set k a' (agents this))
  \/ (exists config,
         call = CallRegister config
         /\ agents this'
            = JsMap.set (AgentConfig.name config)
                {| BaseAgent.config := withDefaults config; BaseAgent.sessionId := None |}
                (agents this))
  \/ (call = CallReset
      /\ agents this' = map (fun kv => (fst kv, resetAgent (snd kv))) (agents this)).
Proof.
intros this'. subst this'. rewrite perform_unfold.
destruct call as [config|startAgent task|target ctx payload|].
- right. right. left. exists config. split; reflexivity.
- rewrite execute_unfold.
  destruct (JsMap.get startAgent (agents this)) as [agent|] eqn:Hget; [|now left].
  right. left.
  exists startAgent, agent,
         (snd (consume agent (fst (query (paramsOf agent task) (world s))))).
  cbn. rewrite String.eqb_refl.
  split; [reflexivity|]. split; [reflexivity|]. split; [exact Hget|].
  split; [apply (proj1 (consume_session _ _))|]. split; reflexivity.
- rewrite handoff_unfold.
  destruct (noCurrentAgent (currentAgent this)); [now left|].
  destruct (JsMap.get target (agents this)) as [nextAgent|] eqn:Hget; [|now left].
  cbv zeta.
  destruct (dataLine dataTruthy stringify payload) as [e|line]; [now left|].
  right. left.
  exists target, nextAgent,
         (snd (consume nextAgent
                 (fst (query (paramsOf nextAgent
                                (handoffMessage (orEmpty (currentAgent this)) ctx line))
                             (world s))))).
  cbn. rewrite String.eqb_refl.
  split; [reflexivity|]. split; [reflexivity|]. split; [exact Hget|].
  split; [apply (proj1 (consume_session _ _))|]. split; reflexivity.
- right. right. right. split; reflexivity.
Qed.

Lemma performAll_cons (this : AgentOrchestrator Data) call calls (s : Sys World) :
  performAll query dataTruthy stringify this (call :: calls) s
  = performAll query dataTruthy stringify
      (fst (perform query dataTruthy stringify this call s)) calls
      (snd (perform query dataTruthy stringify this call s)).
Proof.
cbn [performAll]. unfold bind.
now destruct (perform query dataTruthy stringify this call s).
Qed.

(** X9. The configuration under a name changes only when an agent is
    registered under that name: whatever else is called, in any number and
    order, the name stays registered or unregistered as it was, and a
    registered agent keeps its configuration. *)
Theorem configuration_changes_by_registration_only
        (calls : list (RegistryCall Data)) (this : AgentOrchestrator Data)
        (n : string) (s : Sys World) :
  forallb (fun call => negb (registers n call)) calls = true ->
  option_map BaseAgent.config
    (getAgent (fst (performAll query dataTruthy stringify this calls s)) n)
  = option_map BaseAgent.config (getAgent this n).
Proof.
revert this s. induction calls as [|call calls IH]; intros this s H; [reflexivity|].
cbn [forallb] in H. apply andb_prop in H. destruct H as [Hcall H].
rewrite performAll_cons, (IH _ _ H). unfold getAgent.
destruct (perform_agents this call s)
  as [-> | [(k & a & a' & _ & _ & Hget & Hcfg & _ & ->)
         | [(config & -> & ->) | (-> & ->)]]].
- reflexivity.
- destruct (String.eqb k n) eqn:E.
  + apply String.eqb_eq in E. subst k.
    now rewrite JsMapFacts.get_set_same, Hget; cbn; rewrite Hcfg.
  + apply String.eqb_neq in E. now rewrite JsMapFacts.get_set_other.
- cbn in Hcall. apply negb_true_iff in Hcall. apply String.eqb_neq in Hcall.
  now rewrite JsMapFacts.get_set_other.
- rewrite get_map_resetAgent. now destruct (JsMap.get n (agents this)).
Qed.

(** X14. The agent object under a name, with its session, is as it was after
    any sequence of calls none of which registers an agent under that name,
    executes that agent, hands off to it or resets the registry: a run of one
    agent never reaches the session of another. *)
Theorem untouched_agent_is_unchanged
        (calls : list (RegistryCall Data)) (this : AgentOrchestrator Data)
        (n : string) (s : Sys World) :
  forallb (fun call => negb (touches n call)) calls = true ->
  getAgent (fst (performAll query dataTruthy stringify this calls s)) n
  = getAgent this n.
Proof.
revert this s. induction calls as [|call calls IH]; intros this s H; [reflexivity|].
cbn [forallb] in H. apply andb_prop in H. destruct H as [Hcall H].
rewrite performAll_cons, (IH _ _ H). unfold getAgent.
apply negb_true_iff in Hcall.
destruct (perform_agents this call s)
  as [-> | [(k & a & a' & Hk & _ & _ & _ & _ & ->)
         | [(config & -> & ->) | (-> & _)]]].
- reflexivity.
- apply JsMapFacts.get_set_other. intros ->. congruence.
- cbn in Hcall. apply String.eqb_neq in Hcall.
  now apply JsMapFacts.get_set_other.
- discriminate.
Qed.

End RegistryCalls.

(* ===================================================================== *)
(** ** Invariants of [AgentOrchestrator] *)
(* ===================================================================== *)

Section RegistryInvariants.

Variable World : Type.
Variable query : QueryParams -> World -> QueryRun * World.
Variable Data : Type.
Variable dataTruthy : Data -> bool.
Variable stringify : Data -> Thrown + string.

Lemma RegistryInv_new : RegistryInv (newOrchestrator (Data := Data)).
Proof.
repeat split; try discriminate; try contradiction. constructor.
Qed.

(** A run of a registered agent stores it back under its name. *)
Lemma RegistryInv_update (this : AgentOrchestrator Data) k a a'
      (history : list (AgentHandoff Data)) (cursor : option string) :
  RegistryInv this ->
  JsMap.get k (agents this) = Some a ->
  BaseAgent.config a' = BaseAgent.config a ->
  (forall c, cursor = Some c -> In c (JsMap.keys (agents this))) ->
  (forall h, In h history -> recordOk (JsMap.keys (agents this)) h) ->
  RegistryInv {| agents := JsMap.set k a' (agents this);
                 handoffHistory := history;
                 currentAgent := cursor |}.
Proof.
intros (Hnd & Hname & Hcur & Hrec) Hget Hcfg Hc Hh.
assert (Hin : In k (JsMap.keys (agents this)))
  by (apply JsMapFacts.get_In_keys; congruence).
unfold RegistryInv. cbn [agents handoffHistory currentAgent].
rewrite JsMapFacts.keys_set_present by exact Hin.
split; [exact Hnd|]. split; [|split; assumption].
intros n b. destruct (String.eqb k n) eqn:E.
- apply String.eqb_eq in E. subst n. rewrite JsMapFacts.get_set_same.
  intros H. injection H as <-. rewrite Hcfg. now apply Hname.
- apply String.eqb_neq in E. rewrite JsMapFacts.get_set_other by exact E.
  apply Hname.
Qed.

Lemma perform_RegistryInv (this : AgentOrchestrator Data) call (s : Sys World) :
  RegistryInv this ->
  RegistryInv (fst (perform query dataTruthy stringify this call s)).
Proof.
intros Hinv. pose proof Hinv as (Hnd & Hname & Hcur & Hrec).
rewrite perform_unfold.
destruct call as [config|startAgent task|target ctx payload|].
- unfold RegistryInv. cbn.
  assert (Hmono : forall k, In k (JsMap.keys (agents this)) ->
                            In k (JsMap.keys (JsMap.set (AgentConfig.name config)
                                   {| BaseAgent.config := withDefaults config;
                                      BaseAgent.sessionId := None |} (agents this))))
    by (intros k Hk; apply JsMapFacts.In_keys_set; now right).
  split; [now apply JsMapFacts.NoDup_keys_set|].
  split; [|split].
  + intros n a. destruct (String.eqb (AgentConfig.name config) n) eqn:E.
    * apply String.eqb_eq in E. subst n. rewrite JsMapFacts.get_set_same.
      intros H. injection H as <-. cbn.
      split; [reflexivity|].
      split; [destruct (AgentConfig.model config) | destruct (AgentConfig.maxTurns config)];
        discriminate.
    * apply String.eqb_neq in E. rewrite JsMapFacts.get_set_other by exact E.
      apply Hname.
  + intros c Hc. apply Hmono. now apply Hcur.
  + intros h Hh. destruct (Hrec h Hh) as (H1 & H2 & H3).
    repeat split; auto.
- rewrite execute_unfold.
  destruct (JsMap.get startAgent (agents this)) as [agent|] eqn:Hget; [|exact Hinv].
  cbn [fst snd]. eapply RegistryInv_update; eauto.
  + apply (proj1 (consume_session _ _)).
  + intros c Hc. injection Hc as <-. apply JsMapFacts.get_In_keys. congruence.
- rewrite handoff_unfold.
  destruct (noCurrentAgent (currentAgent this)) eqn:Hguard; [exact Hinv|].
  destruct (JsMap.get target (agents this)) as [nextAgent|] eqn:Hget; [|exact Hinv].
  apply noCurrentAgent_false in Hguard. destruct Hguard as (from & Hfrom & Hne).
  assert (Hto : In target (JsMap.keys (agents this)))
    by (apply JsMapFacts.get_In_keys; congruence).
  assert (Hhist : forall h,
             In h (handoffHistory this
                     ++ [{| fromAgent := orEmpty (currentAgent this); toAgent := target;
                            context := ctx; data := payload |}]) ->
             recordOk (JsMap.keys (agents this)) h).
  { intros h Hh. apply in_app_or in Hh. destruct Hh as [Hh|[<-|[]]]; [now apply Hrec|].
    rewrite Hfrom. cbn. repeat split; auto. }
  cbv zeta.
  destruct (dataLine dataTruthy stringify payload) as [e|line]; cbn [fst snd].
  + unfold RegistryInv. cbn [agents handoffHistory currentAgent]. auto.
  + eapply RegistryInv_update; eauto.
    * apply (proj1 (consume_session _ _)).
    * intros c Hc. injection Hc as <-. exact Hto.
- unfold RegistryInv, reset. cbn [fst agents handoffHistory currentAgent].
  rewrite keys_map_resetAgent.
  split; [exact Hnd|]. split; [|split; [discriminate | contradiction]].
  intros n a. rewrite get_map_resetAgent.
  destruct (JsMap.get n (agents this)) as [b|] eqn:Hb; [|discriminate].
  intros H. injection H as <-. cbn. now apply Hname.
Qed.

Lemma performAll_RegistryInv calls : forall (this : AgentOrchestrator Data) (s : Sys World),
  RegistryInv this ->
  RegistryInv (fst (performAll query dataTruthy stringify this calls s)).
Proof.
induction calls as [|call calls IH]; intros this s H; [exact H|].
rewrite performAll_cons. apply IH. now apply perform_RegistryInv.
Qed.

Lemma perform_history_length (this : AgentOrchestrator Data) call (s : Sys World) :
  length (handoffHistory (fst (perform query dataTruthy stringify this call s)))
  <= length (handoffHistory this) + (if isHandoffCall call then 1 else 0).
Proof.
rewrite perform_unfold.
destruct call as [config|startAgent task|target ctx payload|]; cbn [isHandoffCall].
- cbn. lia.
- rewrite execute_unfold.
  destruct (JsMap.get startAgent (agents this)); cbn; lia.
- rewrite handoff_unfold.
  destruct (noCurrentAgent (currentAgent this)); [cbn; lia|].
  destruct (JsMap.get target (agents this)); [|cbn; lia].
  cbv zeta. destruct (dataLine dataTruthy stringify payload); cbn;
    rewrite length_app; cbn; lia.
- cbn. lia.
Qed.

Lemma performAll_history_length calls : forall (this : AgentOrchestrator Data) (s : Sys World),
  length (handoffHistory (fst (performAll query dataTruthy stringify this calls s)))
  <= length (handoffHistory this) + length (filter isHandoffCall calls).
Proof.
induction calls as [|call calls IH]; intros this s; [cbn; lia|].
rewrite performAll_cons.
pose proof (IH (fst (perform query dataTruthy stringify this call s))
               (snd (perform query dataTruthy stringify this call s))) as H1.
pose proof (perform_history_length this call s) as H2.
cbn [filter]. destruct (isHandoffCall call); cbn [length]; lia.
Qed.

(** X11. After any sequence of calls on a new orchestrator: the names of
    the table are distinct; every agent is held under the name of its own
    configuration and has a model and a number of turns; the cursor, when
    set, names a registered agent; every record of the handoff history has a
    source that is not the empty name, and a source and a target that are
    registered; and the history has no more records than handoffs were
    called.  (The model and the number of turns are those of the
    configuration or the defaults of the constructor; a configuration that
    carries one of these keys with the value [undefined] is not
    represented.) *)
Theorem registry_invariants (calls : list (RegistryCall Data)) (s : Sys World) :
  let this := fst (performAll query dataTruthy stringify newOrchestrator calls s) in
  NoDup (JsMap.keys (agents this))
  /\ (forall n a, getAgent this n = Some a ->
                  AgentConfig.name (BaseAgent.config a) = n
                  /\ AgentConfig.model (BaseAgent.config a) <> None
                  /\ AgentConfig.maxTurns (BaseAgent.config a) <> None)
  /\ (forall c, currentAgent this = Some c -> getAgent this c <> None)
  /\ (forall h, In h (getHandoffHistory this) ->
                fromAgent h <> ""
                /\ getAgent this (fromAgent h) <> None
                /\ getAgent this (toAgent h) <> None)
  /\ length (getHandoffHistory this) <= length (filter isHandoffCall calls).
Proof.
intros this.
destruct (@performAll_RegistryInv calls newOrchestrator s RegistryInv_new)
  as (Hnd & Hname & Hcur & Hrec).
fold this in Hnd, Hname, Hcur, Hrec.
split; [exact Hnd|]. split; [exact Hname|].
split; [intros c Hc; apply JsMapFacts.get_In_keys; now apply Hcur|].
split.
- intros h Hh. destruct (Hrec h Hh) as (H1 & H2 & H3).
  split; [exact H1|]. split; apply JsMapFacts.get_In_keys; assumption.
- exact (performAll_history_length calls newOrchestrator s).
Qed.

End RegistryInvariants.

(* ===================================================================== *)
(** ** The text of the handoff message *)
(* ===================================================================== *)


(* ===================================================================== *)
(** ** Worked examples of the registry *)
(* ===================================================================== *)

Lemma execute_moves_the_cursor_witness :
  getAgent (fst demoRegistered) "researcher"
  = Some (freshAgent "researcher" "You are researcher")
  /\ AgentResult.success
       (fst (fst (execute scripted (fst demoRegistered) "researcher" "research this"
                          (start [gives_up "error_max_turns" "s1"])))) = false
  /\ currentAgent
       (snd (fst (execute scripted (fst demoRegistered) "researcher" "research this"
                          (start [gives_up "error_max_turns" "s1"]))))
     = Some "researcher".
Proof.
split; [reflexivity|].
pose proof (@execute_moves_the_cursor Script scripted Payload (fst demoRegistered)
              "researcher" "research this" (start [gives_up "error_max_turns" "s1"])
              (freshAgent "researcher" "You are researcher") eq_refl) as H.
cbv zeta in H. destruct H as (Hr & Hcur & _).
split; [rewrite Hr; reflexivity | exact Hcur].
Defined.

Lemma handoff_records_then_runs_witness :
  currentAgent demoWithCursor = Some "researcher"
  /\ "researcher" <> ""
  /\ getAgent demoWithCursor "writer" = Some (freshAgent "writer" "You are writer")
  /\ getHandoffHistory
       (snd (fst (handoff scripted payloadTruthy payloadStringify demoWithCursor
                          "writer" "write it up" (Some (NumberPayload 7))
                          (start [throws "boom"]))))
     = [{| fromAgent := "researcher"; toAgent := "writer"; context := "write it up";
           data := Some (NumberPayload 7) |}]
  /\ currentAgent
       (snd (fst (handoff scripted payloadTruthy payloadStringify demoWithCursor
                          "writer" "write it up" (Some (NumberPayload 7))
                          (start [throws "boom"]))))
     = Some "writer".
Proof.
split; [reflexivity|]. split; [discriminate|]. split; [reflexivity|].
pose proof (@handoff_records_then_runs Script scripted Payload payloadTruthy
              payloadStringify demoWithCursor "writer" "write it up"
              (Some (NumberPayload 7)) (start [throws "boom"]) "researcher"
              (freshAgent "writer" "You are writer") eq_refl
              (fun E : "researcher" = "" => eq_ind "researcher"
                 (fun t => match t with EmptyString => False | String _ _ => True end)
                 I "" E)
              eq_refl) as H.
cbv zeta in H. destruct H as (Hhist & _ & _ & _ & Hrun).
split; [exact Hhist|].
exact (proj1 (proj2 (Hrun "Data: 7" eq_refl))).
Defined.

Lemma configuration_changes_by_registration_only_witness :
  forallb (fun call => negb (registers "writer" call)) demoLaterCalls = true
  /\ option_map BaseAgent.config
       (getAgent (fst (performAll scripted payloadTruthy payloadStringify
                                  (fst demoAfterHandoff) demoLaterCalls
                                  (snd demoAfterHandoff))) "writer")
     = Some (withDefaults (namedConfig "writer")).
Proof.
split; [reflexivity|].
rewrite (@configuration_changes_by_registration_only Script scripted Payload
           payloadTruthy payloadStringify demoLaterCalls (fst demoAfterHandoff)
           "writer" (snd demoAfterHandoff) eq_refl).
reflexivity.
Defined.

Lemma untouched_agent_is_unchanged_witness :
  forallb (fun call => negb (touches "writer" call)) demoOtherCalls = true
  /\ option_map BaseAgent.sessionId
       (getAgent (fst (performAll scripted payloadTruthy payloadStringify
                                  (fst demoAfterHandoff) demoOtherCalls
                                  (snd demoAfterHandoff))) "writer")
     = Some (Some "s2").
Proof.
split; [reflexivity|].
rewrite (@untouched_agent_is_unchanged Script scripted Payload
           payloadTruthy payloadStringify demoOtherCalls (fst demoAfterHandoff)
           "writer" (snd demoAfterHandoff) eq_refl).
reflexivity.
Defined.

(* ===================================================================== *)
(** ** [getSessionId], [setSessionId] and [reset] of [BaseAgent] *)
(* ===================================================================== *)

Section SessionAccessors.

Variable World : Type.
Variable query : QueryParams -> World -> QueryRun * World.

(** X15. The session set by [setSessionId] is the one the next run passes to
    the engine as [resume], and the one [getSessionId] gives after a run
    without a result message; after [reset] the next run resumes nothing,
    whatever session the agent had.  Neither changes the configuration. *)
Theorem session_accessors_steer_the_next_run
        (agent : BaseAgent.t) (sessionId input : string) (s : Sys World) :
  (let out := run query (setSessionId agent sessionId) input s in
   exists params,
     log (snd out) = log s ++ [Ran (BaseAgent.config agent) params (fst (fst out))]
     /\ prompt params = input
     /\ QueryOptions.resume (options params) = Some sessionId
     /\ QueryOptions.systemPrompt (options params)
        = AgentConfig.systemPrompt (BaseAgent.config agent)
     /\ (noResultIn (events (fst (query params (world s)))) = true ->
         getSessionId (snd (fst out)) = Some sessionId))
  /\ (let out := run query (resetAgent agent) input s in
      exists params,
        log (snd out) = log s ++ [Ran (BaseAgent.config agent) params (fst (fst out))]
        /\ prompt params = input
        /\ QueryOptions.resume (options params) = None
        /\ (noResultIn (events (fst (query params (world s)))) = true ->
            getSessionId (snd (fst out)) = None))
  /\ getSessionId (setSessionId agent sessionId) = Some sessionId
  /\ getSessionId (resetAgent agent) = None
  /\ resetAgent (setSessionId agent sessionId) = resetAgent agent.
Proof.
split; [|split; [|repeat split]].
- cbv zeta. rewrite run_unfold. cbn [fst snd log].
  exists (paramsOf (setSessionId agent sessionId) input).
  split; [reflexivity|]. split; [reflexivity|]. split; [reflexivity|].
  split; [reflexivity|].
  intros H. unfold getSessionId.
  now rewrite (proj1 (proj2 (consume_session _ _)) H).
- cbv zeta. rewrite run_unfold. cbn [fst snd log].
  exists (paramsOf (resetAgent agent) input).
  split; [reflexivity|]. split; [reflexivity|]. split; [reflexivity|].
  intros H. unfold getSessionId.
  now rewrite (proj1 (proj2 (consume_session _ _)) H).
Qed.

End SessionAccessors.

(* ===================================================================== *)
(** ** The outcome of [runPipeline] *)
(* ===================================================================== *)

Lemma last_cons (A : Type) (x d : A) (l : list A) : last (x :: l) d = last l x.
Proof.
revert x d. induction l as [|y l IH]; intros x d; [reflexivity|].
change (last (x :: y :: l) d) with (last (y :: l) d). now rewrite !IH.
Qed.

Lemma last_at_length (A : Type) (l : list A) : forall k x d,
  nth_error l k = Some x -> length l = S k -> last l d = x.
Proof.
induction l as [|y l IH]; intros k x d Hk Hlen; [discriminate|].
rewrite last_cons. destruct k as [|k].
- injection Hk as <-. destruct l; [reflexivity | discriminate].
- simpl in Hk, Hlen. eapply IH; eauto.
Qed.

(** When only the last result of a list can be a failure and the last one
    is a success, every result is a success. *)
Lemma all_succeeded (results : list AgentResult.t) (d : AgentResult.t) :
  (forall k r, nth_error results k = Some r ->
               AgentResult.success r = false -> length results = S k) ->
  AgentResult.success (last results d) = true ->
  forallb AgentResult.success results = true.
Proof.
intros Hfail Hlast. apply forallb_forall. intros r Hr.
destruct (AgentResult.success r) eqn:Hs; [reflexivity|].
apply In_nth_error in Hr. destruct Hr as (k & Hk).
rewrite (last_at_length results d Hk (Hfail k r Hk Hs)) in Hlast. congruence.
Qed.

Section PipelineOutcomeFacts.

Variable World : Type.
Variable query : QueryParams -> World -> QueryRun * World.

Lemma pipelineLoop_outcome stages : forall input final table (s : Sys World),
  exists new,
    log (snd (pipelineLoop query stages input final table s))
    = log s ++ pipelineLog stages input new
    /\ length new <= length stages
    /\ finalResult (fst (pipelineLoop query stages input final table s)) = last new final
    /\ stageResults (fst (pipelineLoop query stages input final table s))
       = JsMap.setAll (combine (map stageName stages) new) table
    /\ (forall k r, nth_error new k = Some r ->
                    AgentResult.success r = false -> length new = S k)
    /\ (forallb AgentResult.success new = true -> length new = length stages)
    /\ (stages <> [] -> new <> []).
Proof.
induction stages as [|st stages IH]; intros input final table s.
- exists []. cbn. rewrite app_nil_r. repeat split; auto.
  intros [|k] r; discriminate.
- rewrite pipelineLoop_cons. cbv zeta.
  set (r := stageResult query (stageName st) (stageSystemPrompt st) input s).
  set (s1 := {| world := _; log := _ |}).
  destruct (AgentResult.success r) eqn:Hs; cbn [negb].
  + destruct (IH (pipelineInput st r) r (JsMap.set (stageName st) r table) s1)
      as (new & Hlog & Hlen & Hfin & Htab & Hfail & Hall & _).
    exists (r :: new). rewrite Hlog, Hfin, Htab, last_cons.
    subst s1. cbn [log pipelineLog length map combine forallb].
    rewrite <- app_assoc.
    split; [reflexivity|]. split; [lia|]. split; [reflexivity|].
    split; [reflexivity|].
    split.
    { intros [|k] r' Hk Hr'; cbn in Hk.
      - congruence.
      - f_equal. eauto. }
    split; [|discriminate].
    rewrite Hs. cbn [andb]. intros H. f_equal. auto.
  + exists [r]. subst s1. cbn [fst snd log finalResult stageResults pipelineLog].
    rewrite pipelineLog_nil.
    split; [reflexivity|]. split; [cbn; lia|]. split; [reflexivity|].
    split.
    { cbn [map combine]. now rewrite combine_nil. }
    split.
    { intros [|[|k]] r' Hk Hr'; cbn in Hk; try discriminate. reflexivity. }
    split; [|discriminate].
    cbn. rewrite Hs. discriminate.
Qed.

(** X16. What [runPipeline] returns.  Without stages it returns the failure
    [No stages executed] and an empty table, and calls nothing.  Otherwise
    the final result is the result of the last stage that ran, and it is a
    success only when every stage ran and succeeded.  The table is what the
    writes of the results under the names of their stages leave, in the order
    of the stages: of two stages with one name it keeps the later result, as
    the fan-out does. *)
Theorem pipeline_outcome
        (stages : list PipelineStage) (initialInput : string) (s : Sys World) :
  let out := runPipeline query stages initialInput s in
  exists results,
    log (snd out) = log s ++ pipelineLog stages initialInput results
    /\ map runOutcome (runs (pipelineLog stages initialInput results)) = results
    /\ length results <= length stages
    /\ finalResult (fst out) = last results (AgentResult.failure "No stages executed")
    /\ stageResults (fst out)
       = JsMap.setAll (combine (map stageName stages) results) JsMap.empty
    /\ (forall name,
           JsMap.get name (stageResults (fst out))
           = JsMap.lastWrite name (combine (map stageName stages) results))
    /\ (stages = [] -> results = [] /\ snd out = s)
    /\ (stages <> [] -> results <> [])
    /\ (forall k r, nth_error results k = Some r ->
                    AgentResult.success r = false ->
                    length results = S k /\ finalResult (fst out) = r)
    /\ (AgentResult.success (finalResult (fst out)) = true ->
        length results = length stages
        /\ forallb AgentResult.success results = true).
Proof.
intros out. subst out. unfold runPipeline.
destruct (pipelineLoop_outcome stages initialInput
            (AgentResult.failure "No stages executed") JsMap.empty s)
  as (results & Hlog & Hlen & Hfin & Htab & Hfail & Hall & Hne).
exists results.
split; [exact Hlog|].
split; [now apply runs_pipelineLog|].
split; [exact Hlen|]. split; [exact Hfin|]. split; [exact Htab|].
split.
{ intros name. rewrite Htab, JsMapFacts.get_setAll.
  now destruct (JsMap.lastWrite name _). }
split.
{ intros ->. split; [destruct results; [reflexivity | cbn in Hlen; lia]|].
  now destruct s. }
split; [exact Hne|].
split.
{ intros k r Hk Hr. pose proof (Hfail k r Hk Hr) as Hl. split; [exact Hl|].
  rewrite Hfin. eapply last_at_length; eauto. }
intros Hs. rewrite Hfin in Hs.
pose proof (all_succeeded results _ Hfail Hs) as Hok. auto.
Qed.

End PipelineOutcomeFacts.

(* ===================================================================== *)
(** ** The winner and the voters of [runConsensusAgents] *)
(* ===================================================================== *)

Lemma ballot_In_options options r choice :
  ballot options r = Some choice -> In choice options.
Proof.
unfold ballot. destruct (AgentResult.success r); [|discriminate].
destruct (JsString.matchLeadingDigits _); [|discriminate].
destruct (_ && _)%bool; [|discriminate].
apply nth_error_In.
Qed.

Lemma parseVotes_values_In options (results : JsMap.t AgentResult.t) v :
  NoDup (JsMap.keys results) ->
  In v (JsMap.values (parseVotes options results)) -> In v options.
Proof.
intros Hnd. unfold parseVotes.
rewrite parseVotes_entries by (auto; intros k _ []).
cbn [app JsMap.empty]. unfold JsMap.values. rewrite in_map_iff.
intros ([a v'] & Hv & Hin). cbn in Hv. subst v'.
apply in_flat_map in Hin. destruct Hin as (kv & _ & Hkv).
unfold ballotEntry in Hkv.
destruct (ballot options (snd kv)) as [c|] eqn:Hb; [|contradiction].
destruct Hkv as [E|[]]. injection E as _ <-.
eapply ballot_In_options; eauto.
Qed.

Section ConsensusOutcomeFacts.

Variable World : Type.
Variable query : QueryParams -> World -> QueryRun * World.

(** X17. [runConsensusAgents] never names a winner that is not one of the
    options: the winner is undefined exactly when there are no options.
    Every vote of the mapping is one of the options, and every voter is one
    of the agents; no name votes twice. *)
Theorem consensus_winner_is_an_option
        (agents : list AgentSpec) (question : string) (options : list string)
        (s : Sys World) :
  let out := fst (runConsensusAgents query agents question options s) in
  (winner out = None <-> options = [])
  /\ (forall w, winner out = Some w -> In w options)
  /\ (forall agentName choice,
         JsMap.get agentName (votes out) = Some choice ->
         In choice options /\ In agentName (map specName agents))
  /\ NoDup (JsMap.keys (votes out))
  /\ length (JsMap.keys (votes out)) <= length agents.
Proof.
intros out. subst out. rewrite runConsensusAgents_unfold. cbv zeta.
pose proof (runParallelAgents_keys_NoDup query agents
              (votingPrompt question options) s) as Hnd.
destruct (runParallelAgents query agents (votingPrompt question options) s)
  as [results s1] eqn:Epar.
cbn [fst snd winner votes] in *.
destruct (@runParallelAgents_outcomes _ _ _ _ _ _ _ Epar) as (rs & Hlen & Hres & _).
pose proof (@parseVotes_values_In options results) as Hopt.
set (vs := JsMap.values (parseVotes options results)) in *.
rewrite countVotes_tallies. fold vs.
destruct (findWinner_tallies options vs) as [Hnil Hcons].
assert (Hw : forall w, findWinner options (tallies vs) = Some w -> In w options).
{ intros w Hw. destruct vs as [|v vs'] eqn:Evs.
  - rewrite (Hnil eq_refl) in Hw. eapply nth_error_In; eauto.
  - destruct Hcons as (w' & pre & post & Hw' & Hsplit & _); [discriminate|].
    rewrite Hw' in Hw. injection Hw as <-.
    apply Hopt; [exact Hnd|]. rewrite Hsplit. apply in_or_app. right. now left. }
assert (Hvotes : parseVotes options results
                 = flat_map (ballotEntry options) results).
{ unfold parseVotes. rewrite parseVotes_entries by (auto; intros k _ []). reflexivity. }
assert (Hkeys : forall l : JsMap.t AgentResult.t,
           exists sub, JsMap.keys (flat_map (ballotEntry options) l) = sub
                       /\ (forall k, In k sub -> In k (JsMap.keys l))
                       /\ (NoDup (JsMap.keys l) -> NoDup sub)
                       /\ length sub <= length l).
{ induction l as [|[k r] l IH].
  - exists []. repeat split; auto; constructor.
  - destruct IH as (sub & Hsub & Hin & Hnodup & Hle).
    cbn [flat_map]. unfold ballotEntry at 1. cbn [fst snd].
    destruct (ballot options r).
    + exists (k :: sub). cbn. rewrite <- Hsub.
      split; [reflexivity|]. rewrite Hsub.
      split; [intros k' [->|Hk']; [now left | right; auto]|].
      split; [|lia].
      intros Hn. inversion Hn; subst. constructor; auto.
    + exists sub. cbn.
      split; [exact Hsub|].
      split; [intros k' Hk'; right; auto|].
      split; [|lia].
      intros Hn. inversion Hn; subst. auto. }
destruct (Hkeys results) as (sub & Hsub & Hin & Hnodup & Hle).
rewrite <- Hvotes in Hsub.
assert (Hresults : forall k, In k (JsMap.keys results) -> In k (map specName agents)).
{ intros k Hk. rewrite Hres in Hk. apply JsMapFacts.In_keys_setAll in Hk.
  destruct Hk as [Hk|[]]. rewrite map_fst_combine in Hk; [exact Hk|].
  now rewrite length_map. }
split.
{ split.
  - intros Hnone. destruct vs as [|v vs'] eqn:Evs.
    + rewrite (Hnil eq_refl) in Hnone. now destruct options.
    + destruct Hcons as (w' & pre & post & Hw' & _); [discriminate|]. congruence.
  - intros ->. destruct (findWinner [] (tallies vs)) as [w|] eqn:E; [|reflexivity].
    destruct (Hw w eq_refl). }
split; [exact Hw|].
split.
{ intros agentName choice Hget. split.
  - rewrite parseVotes_get in Hget by exact Hnd.
    destruct (JsMap.get agentName results); [|discriminate].
    eapply ballot_In_options; eauto.
  - apply Hresults, Hin. rewrite <- Hsub. apply JsMapFacts.get_In_keys. congruence. }
split; [rewrite Hsub; auto|].
rewrite Hsub. etransitivity; [exact Hle|].
assert (Hl : length results <= length agents); [|exact Hl].
rewrite <- (length_map fst results). fold (JsMap.keys results).
rewrite <- (length_map specName agents).
apply NoDup_incl_length; [exact Hnd | exact Hresults].
Qed.

End ConsensusOutcomeFacts.

(* ===================================================================== *)
(** ** The agents of the composition strategies *)
(* ===================================================================== *)






Section StrategyAgents.

Variable World : Type.
Variable query : QueryParams -> World -> QueryRun * World.


End StrategyAgents.

(* ===================================================================== *)
(** ** The numbers of the voting prompt *)
(* ===================================================================== *)









(* ===================================================================== *)
(** ** The agent route *)
(* ===================================================================== *)

Section RouteFacts.

Variable World : Type.
Variable query : QueryParams -> World -> QueryRun * World.

Lemma newBaseAgent_unfold config (s : Sys World) :
  newBaseAgent config s
  = ({| BaseAgent.config := withDefaults config; BaseAgent.sessionId := None |},
     {| world := world s; log := log s ++ [Constructed (withDefaults config)] |}).
Proof. reflexivity. Qed.

(** The agent the handler makes for a body. *)
Lemma answer_unfold env body isPro (s : Sys World) :
  answer query env body isPro s
  = let agentType := orElseValue (AgentRequest.agentType body) defaultAgentType in
    let effectivePrompt :=
      effectiveSystemPrompt
        (orElseValue (AgentRequest.systemPrompt body) "You are a helpful AI assistant.")
        agentType in
    let tools := effectiveTools (AgentRequest.tools body) agentType in
    let name := (AgentType.name agentType ++ "-agent")%string in
    let base := if (0 <? length tools)%nat
                then toolAgentConfig name effectivePrompt tools
                else createAgentConfig name effectivePrompt in
    let agent :=
      {| BaseAgent.config :=
           withDefaults (withOptions base
                           (maxTurnsOnly (orElseValue (AgentRequest.maxTurns body) 10%N)));
         BaseAgent.sessionId := None |} in
    let params := paramsOf agent (orEmpty (AgentRequest.prompt body)) in
    let r := fst (consume agent (fst (query params (world s)))) in
    (if negb isPro
     then match RouteEnv.incrementApiLimit env with
          | Some _ =>
              (internalError, [CheckedApiLimit; CheckedSubscription; IncrementedApiLimit])
          | None =>
              (JsonResponse (responseOf r),
               [CheckedApiLimit; CheckedSubscription; IncrementedApiLimit])
          end
     else (JsonResponse (responseOf r), [CheckedApiLimit; CheckedSubscription]),
     {| world := snd (query params (world s));
        log := log s ++ [Constructed (BaseAgent.config agent);
                         Ran (BaseAgent.config agent) params r] |}).
Proof.
unfold answer. cbv zeta.
destruct (0 <? length (effectiveTools (AgentRequest.tools body)
                         (orElseValue (AgentRequest.agentType body) defaultAgentType)))%nat;
  unfold createToolAgent, createAgentWith;
  unfold bind at 1; rewrite newBaseAgent_unfold;
  unfold bind; rewrite run_unfold; cbn [world log];
  destruct (consume _ _) as [r a'] eqn:E; cbn [fst snd BaseAgent.config];
  rewrite <- app_assoc; cbn [app];
  (destruct isPro; cbn [negb]; [reflexivity|]);
  destruct (RouteEnv.incrementApiLimit env); reflexivity.
Qed.

(** The guards of the handler, one after the other; the last case is the
    request they let through. *)
Ltac route_guards env s :=
  unfold POST;
  destruct (RouteEnv.auth env) as [?|userId] eqn:Eauth; [|
  destruct (RouteEnv.json env) as [?|body'] eqn:Ejson; [|
  destruct (absent userId) eqn:Euser; [|
  destruct (absent (RouteEnv.ANTHROPIC_API_KEY env)) eqn:Ekey; [|
  destruct (absent (AgentRequest.prompt body')) eqn:Eprompt; [|
  destruct (RouteEnv.checkApiLimit env) as [?|freeTrial] eqn:Elimit; [|
  destruct (RouteEnv.checkSubscription env) as [?|isPro] eqn:Esub; [|
  destruct (negb freeTrial && negb isPro) eqn:Etrial;
    [|rewrite (answer_unfold env body' isPro s); cbv zeta] ]]]]]]];
  cbn [ret fst snd].

Lemma log_grows (s : Sys World) w a b :
  {| world := w; log := log s ++ [a; b] |} <> s.
Proof.
intros H. apply (f_equal (@log World)) in H. cbn in H.
apply (f_equal (@length _)) in H. rewrite length_app in H. cbn in H. lia.
Qed.

Lemma route_refusal env (s : Sys World) text status :
  fst (fst (POST query env s)) = TextResponse text status ->
  text <> "Internal Error" ->
  In (text, status)
     [("Unauthorized", 401%N); ("Anthropic API Key not configured.", 500%N);
      ("Prompt is required", 400%N);
      ("Free trial has expired. Please upgrade to pro.", 403%N)]
  /\ snd (POST query env s) = s
  /\ ~ In IncrementedApiLimit (snd (fst (POST query env s))).
Proof.
route_guards env s;
  try (intros H Hne; injection H as <- <-;
       first [ contradiction
             | split; [cbn; tauto|]; split; [reflexivity|];
               cbn; intuition discriminate ]).
destruct isPro; cbn [negb fst snd]; [discriminate|].
destruct (RouteEnv.incrementApiLimit env); cbn [fst snd]; [|discriminate].
intros H Hne. injection H as <- <-. contradiction.
Qed.

Lemma route_json env (s : Sys World) body :
  fst (fst (POST query env s)) = JsonResponse body ->
  exists c params r,
    log (snd (POST query env s)) = log s ++ [Constructed c; Ran c params r]
    /\ world (snd (POST query env s)) = snd (query params (world s))
    /\ r = fst (consume {| BaseAgent.config := c; BaseAgent.sessionId := None |}
                        (fst (query params (world s))))
    /\ body = responseOf r
    /\ wellFormed r = true
    /\ (In IncrementedApiLimit (snd (fst (POST query env s)))
        <-> RouteEnv.checkSubscription env = inr false).
Proof.
route_guards env s; try discriminate.
set (agent := {| BaseAgent.config := _; BaseAgent.sessionId := None |}).
set (params := paramsOf agent (orEmpty (AgentRequest.prompt body'))).
pose proof (wellFormed_consume agent (fst (query params (world s)))) as Hwf.
destruct isPro; cbn [negb fst snd].
- intros H. injection H as <-. exists (BaseAgent.config agent), params. eexists.
  split; [reflexivity|]. split; [reflexivity|]. split; [reflexivity|].
  split; [reflexivity|]. split; [exact Hwf|].
  split; [cbn; intuition discriminate | discriminate].
- destruct (RouteEnv.incrementApiLimit env); cbn [fst snd]; [discriminate|].
  intros H. injection H as <-. exists (BaseAgent.config agent), params. eexists.
  split; [reflexivity|]. split; [reflexivity|]. split; [reflexivity|].
  split; [reflexivity|]. split; [exact Hwf|].
  split; [reflexivity | cbn; tauto].
Qed.

Lemma route_internal env (s : Sys World) :
  fst (fst (POST query env s)) = internalError ->
  (snd (POST query env s) = s
   /\ ~ In IncrementedApiLimit (snd (fst (POST query env s))))
  \/ (exists c params r,
         log (snd (POST query env s)) = log s ++ [Constructed c; Ran c params r]
         /\ RouteEnv.incrementApiLimit env <> None
         /\ RouteEnv.checkSubscription env = inr false).
Proof.
route_guards env s;
  try (intros _; left; split; [reflexivity | cbn; intuition discriminate]).
destruct isPro; cbn [negb fst snd]; [discriminate|].
destruct (RouteEnv.incrementApiLimit env) eqn:Einc; cbn [fst snd]; [|discriminate].
intros _. right. eexists. eexists. eexists.
split; [reflexivity|]. split; [discriminate | reflexivity].
Qed.

Lemma route_counted env (s : Sys World) :
  In IncrementedApiLimit (snd (fst (POST query env s))) ->
  snd (POST query env s) <> s.
Proof.
route_guards env s; try (cbn; intuition discriminate).
intros _. destruct isPro; cbn [negb snd]; [apply log_grows|].
destruct (RouteEnv.incrementApiLimit env); apply log_grows.
Qed.

(** A request that passes every guard is answered by a run: the guards are
    the only way out before the agent is made. *)
Lemma route_admitted env (s : Sys World) userId body freeTrial isPro :
  RouteEnv.auth env = inr userId -> RouteEnv.json env = inr body ->
  absent userId = false -> absent (RouteEnv.ANTHROPIC_API_KEY env) = false ->
  absent (AgentRequest.prompt body) = false ->
  RouteEnv.checkApiLimit env = inr freeTrial ->
  RouteEnv.checkSubscription env = inr isPro ->
  freeTrial || isPro = true ->
  exists c params r,
    log (snd (POST query env s)) = log s ++ [Constructed c; Ran c params r]
    /\ (fst (fst (POST query env s)) = JsonResponse (responseOf r)
        \/ (isPro = false /\ RouteEnv.incrementApiLimit env <> None
            /\ fst (fst (POST query env s)) = internalError)).
Proof.
intros Hauth Hjson Huser Hkey Hprompt Hlimit Hsub Hpass.
unfold POST. rewrite Hauth, Hjson, Huser, Hkey, Hprompt, Hlimit, Hsub.
replace (negb freeTrial && negb isPro) with false
  by (destruct freeTrial, isPro; try reflexivity; discriminate).
rewrite answer_unfold. cbv zeta.
eexists. eexists. eexists. split; [cbn [snd log]; reflexivity|].
destruct isPro; cbn [negb fst]; [now left|].
destruct (RouteEnv.incrementApiLimit env); [right | now left].
split; [reflexivity|]. split; [discriminate | reflexivity].
Qed.

(** X20. What the response of the agent route tells about what happened,
    for the bodies of the model: fields of the expected types, and an agent
    type that names no property inherited from [Object.prototype].
    A request that passes every guard is answered by one run.  A refusal
    (unauthorized, no key, no prompt, trial expired) means nothing was called
    or counted.  A JSON response means one agent was constructed and run
    once, carries the result of that run without its list of errors, and the
    usage was counted exactly for a user without subscription, whether the
    run succeeded or not.  [Internal Error] means either that nothing ran, or
    that the agent ran and counting the usage threw afterwards.  A body that
    cannot be read gives [Internal Error] also for a user who is not signed
    in, and the usage is never counted without a run. *)
Theorem route_response_tells_what_ran (env : RouteEnv.t) (s : Sys World) :
  let out := POST query env s in
  (forall userId body freeTrial isPro,
      RouteEnv.auth env = inr userId -> RouteEnv.json env = inr body ->
      absent userId = false -> absent (RouteEnv.ANTHROPIC_API_KEY env) = false ->
      absent (AgentRequest.prompt body) = false ->
      RouteEnv.checkApiLimit env = inr freeTrial ->
      RouteEnv.checkSubscription env = inr isPro ->
      freeTrial || isPro = true ->
      exists c params r,
        log (snd out) = log s ++ [Constructed c; Ran c params r]
        /\ (fst (fst out) = JsonResponse (responseOf r)
            \/ (isPro = false /\ RouteEnv.incrementApiLimit env <> None
                /\ fst (fst out) = internalError)))
  /\ (forall text status,
         fst (fst out) = TextResponse text status -> text <> "Internal Error" ->
         In (text, status)
            [("Unauthorized", 401%N); ("Anthropic API Key not configured.", 500%N);
             ("Prompt is required", 400%N);
             ("Free trial has expired. Please upgrade to pro.", 403%N)]
         /\ snd out = s
         /\ ~ In IncrementedApiLimit (snd (fst out)))
  /\ (forall body,
         fst (fst out) = JsonResponse body ->
         exists c params r,
           log (snd out) = log s ++ [Constructed c; Ran c params r]
           /\ world (snd out) = snd (query params (world s))
           /\ r = fst (consume {| BaseAgent.config := c; BaseAgent.sessionId := None |}
                               (fst (query params (world s))))
           /\ body = responseOf r
           /\ wellFormed r = true
           /\ (In IncrementedApiLimit (snd (fst out))
               <-> RouteEnv.checkSubscription env = inr false))
  /\ (fst (fst out) = internalError ->
      (snd out = s /\ ~ In IncrementedApiLimit (snd (fst out)))
      \/ (exists c params r,
             log (snd out) = log s ++ [Constructed c; Ran c params r]
             /\ RouteEnv.incrementApiLimit env <> None
             /\ RouteEnv.checkSubscription env = inr false))
  /\ (forall e, RouteEnv.json env = inl e -> fst (fst out) = internalError)
  /\ (In IncrementedApiLimit (snd (fst out)) -> snd out <> s).
Proof.
intros out. subst out.
split; [intros userId body freeTrial isPro; apply route_admitted|].
split; [intros text status; apply route_refusal|].
split; [intros body; apply route_json|].
split; [apply route_internal|].
split; [|apply route_counted].
intros e He. unfold POST. rewrite He. now destruct (RouteEnv.auth env).
Qed.

(** X21. The agent of a request that was answered with a result, for the
    bodies of the model: fields of the expected types, and an agent type
    that names no property inherited from [Object.prototype].  The agent is
    named after the agent type and runs once on the prompt, without a session
    to resume, with the number of turns of the request or 10.  Each of the
    four named agent types has a system prompt of its own, and the one of
    the request is ignored; any other agent type uses the one of the
    request.  The tools of the request are the allowed tools when it names
    some; a request without the property gets the preset of its agent type;
    and a request with an empty list of tools gets no restriction at all,
    whatever its agent type. *)
Theorem route_agent_selection
        (env : RouteEnv.t) (s : Sys World) (body : AgentRequest.t)
        (response : AgentResponse.t) :
  RouteEnv.json env = inr body ->
  fst (fst (POST query env s)) = JsonResponse response ->
  exists c params r input,
    log (snd (POST query env s)) = log s ++ [Constructed c; Ran c params r]
    /\ response = responseOf r
    /\ AgentRequest.prompt body = Some input /\ input <> ""
    /\ prompt params = input
    /\ options params
       = queryOptions {| BaseAgent.config := c; BaseAgent.sessionId := None |}
    /\ AgentConfig.name c
       = (AgentType.name (orElseValue (AgentRequest.agentType body) defaultAgentType)
            ++ "-agent")%string
    /\ AgentConfig.maxTurns c = Some (orElseValue (AgentRequest.maxTurns body) 10%N)
    /\ AgentConfig.model c = Some DEFAULT_MODEL
    /\ AgentConfig.allowedTools c
       = routeTools (AgentRequest.tools body)
                    (orElseValue (AgentRequest.agentType body) defaultAgentType)
    /\ (namedAgentType (orElseValue (AgentRequest.agentType body) defaultAgentType)
        = false ->
        AgentConfig.systemPrompt c
        = orElseValue (AgentRequest.systemPrompt body) "You are a helpful AI assistant.")
    /\ (namedAgentType (orElseValue (AgentRequest.agentType body) defaultAgentType)
        = true ->
        forall other,
          systemPrompts other (orElseValue (AgentRequest.agentType body) defaultAgentType)
          = Some (AgentConfig.systemPrompt c)).
Proof.
intros Hbody.
route_guards env s; try discriminate.
injection Hbody as ->.
set (agentType := orElseValue (AgentRequest.agentType body) defaultAgentType) in *.
set (systemPrompt := orElseValue (AgentRequest.systemPrompt body) _) in *.
set (tools := effectiveTools (AgentRequest.tools body) agentType).
set (agent := {| BaseAgent.config := _; BaseAgent.sessionId := None |}).
set (params := paramsOf agent (orEmpty (AgentRequest.prompt body))).
set (r := fst (consume agent (fst (query params (world s))))).
intros Hresp.
assert (Hr : response = responseOf r).
{ destruct isPro; cbn [negb fst] in Hresp; [now injection Hresp|].
  destruct (RouteEnv.incrementApiLimit env); [discriminate | now injection Hresp]. }
destruct (AgentRequest.prompt body) as [input|] eqn:Einput; [|discriminate].
exists (BaseAgent.config agent), params, r, input.
split; [reflexivity|]. split; [exact Hr|]. split; [reflexivity|].
split; [intros ->; discriminate|].
split; [reflexivity|]. split; [reflexivity|].
split; [subst agent; now destruct (0 <? length tools)%nat|].
split; [subst agent; now destruct (0 <? length tools)%nat|].
split; [subst agent; now destruct (0 <? length tools)%nat|].
split.
{ subst agent tools. unfold effectiveTools, toolPresets, routeTools. cbv zeta.
  destruct (AgentRequest.tools body) as [[|t given]|]; try reflexivity.
  destruct (String.eqb (AgentType.name agentType) "default") eqn:E1.
  { apply String.eqb_eq in E1. rewrite E1. reflexivity. }
  destruct (String.eqb (AgentType.name agentType) "researcher"); [reflexivity|].
  destruct (String.eqb (AgentType.name agentType) "writer") eqn:E3.
  { apply String.eqb_eq in E3. rewrite E3. reflexivity. }
  destruct (String.eqb (AgentType.name agentType) "analyst"); [reflexivity|].
  destruct (String.eqb (AgentType.name agentType) "developer"); reflexivity. }
assert (Hsp : AgentConfig.systemPrompt (BaseAgent.config agent)
              = effectiveSystemPrompt systemPrompt agentType)
  by (subst agent; now destruct (0 <? length tools)%nat).
rewrite Hsp. unfold effectiveSystemPrompt, systemPrompts, namedAgentType.
cbv zeta. cbn [existsb].
split.
- intros Hnamed. apply orb_false_iff in Hnamed. destruct Hnamed as (H1 & Hnamed).
  apply orb_false_iff in Hnamed. destruct Hnamed as (H2 & Hnamed).
  apply orb_false_iff in Hnamed. destruct Hnamed as (H3 & Hnamed).
  apply orb_false_iff in Hnamed. destruct Hnamed as (H4 & _).
  rewrite H1, H2, H3, H4.
  destruct (String.eqb (AgentType.name agentType) "default"); [|reflexivity].
  now destruct (JsString.truthy systemPrompt).
- intros Hnamed other.
  destruct (String.eqb (AgentType.name agentType) "default") eqn:Ed.
  { apply String.eqb_eq in Ed. rewrite Ed in Hnamed. discriminate. }
  destruct (String.eqb (AgentType.name agentType) "researcher"); [reflexivity|].
  destruct (String.eqb (AgentType.name agentType) "writer"); [reflexivity|].
  destruct (String.eqb (AgentType.name agentType) "analyst"); [reflexivity|].
  destruct (String.eqb (AgentType.name agentType) "developer"); [reflexivity|].
  discriminate.
Qed.

End RouteFacts.

Lemma route_agent_selection_witness :
  RouteEnv.json demoEnv = inr demoRequest
  /\ exists c params r,
       log (snd (POST scripted demoEnv (start [gives_up "error_max_turns" "s1"])))
       = [Constructed c; Ran c params r]
       /\ fst (POST scripted demoEnv (start [gives_up "error_max_turns" "s1"]))
          = (JsonResponse (responseOf r),
             [CheckedApiLimit; CheckedSubscription; IncrementedApiLimit])
       /\ AgentResult.success r = false
       /\ AgentConfig.name c = "developer-agent"
       /\ AgentConfig.allowedTools c = None
       /\ QueryOptions.allowedTools (options params) = None.
Proof.
split; [reflexivity|].
destruct (@route_agent_selection Script scripted demoEnv
            (start [gives_up "error_max_turns" "s1"]) demoRequest
            (responseOf (fst (fst (run scripted
                                     (fst (createAgentWith "developer-agent"
                                             "You are a software developer. Help write, review, and debug code. Use file tools when needed."
                                             (maxTurnsOnly 10) (start [])))
                                     "Fix the bug"
                                     (start [gives_up "error_max_turns" "s1"])))))
            eq_refl eq_refl)
  as (c & params & r & input & Hlog & Hr & _ & _ & _ & Hopts & Hname & _ & _ & Htools & _).
exists c, params, r.
split; [exact Hlog|].
split.
{ apply (f_equal runs) in Hlog. cbn in Hlog. injection Hlog as _ _ <-. reflexivity. }
split.
{ apply (f_equal runs) in Hlog. cbn in Hlog. injection Hlog as _ _ <-. reflexivity. }
split; [exact Hname|]. split; [exact Htools|].
rewrite Hopts. cbn. exact Htools.
Defined.

(** The same request after the trial has run out: refused, nothing runs and
    nothing is counted. *)
Lemma route_refuses_expired_trial :
  POST scripted demoExpiredEnv (start [replies "done" "s1"])
  = ((TextResponse "Free trial has expired. Please upgrade to pro." 403,
      [CheckedApiLimit; CheckedSubscription]),
     start [replies "done" "s1"]).
Proof. reflexivity. Qed.
